(** * Payment-processing demo: a shallow embedding of the bank simulator,
    the idempotency service and the gateway's authorization service.

  Python objects become records, [Dict]s whose iteration order is
  observable become insertion-ordered association lists, the other
  [Dict]s become [gmap]s, [int] is [Z], exceptions are an explicit
  outcome, and the ambient reads of a call (clock, random tokens) are
  passed to it as an explicit argument. *)

From Stdlib Require Import ZArith Lia Bool Ascii.
From stdpp Require Import gmap strings list fin_maps pretty.

Open Scope string_scope.
Open Scope Z_scope.

(* ===================================================================== *)
(** * Python prelude *)
(* ===================================================================== *)

Module Py.

(** The exceptions that the modelled code can raise. The repository's own
    exception classes carry their message. *)
Inductive Exn :=
| ValueError
| OverflowError
| IndexError
| TypeError
| IdempotencyConflict (msg : string)
| IdempotencyInProgress (msg : string)
| IdempotencyFailedPreviously (type_name message : string)
| InvalidAmountError (msg : string)
| AuthorizationError (msg : string) (decline_code : string)
| CaptureError (msg : string)
| PaymentError (msg : string)
| TokenNotFoundError (msg : string)
| TokenExpiredError (msg : string)
| TokenAlreadyUsedError (msg : string)
| OtherError (type_name message : string).

(** [type(e).__name__] *)
Definition exn_type_name (e : Exn) : string :=
  match e with
  | ValueError => "ValueError"
  | OverflowError => "OverflowError"
  | IndexError => "IndexError"
  | TypeError => "TypeError"
  | IdempotencyConflict _ => "IdempotencyConflict"
  | IdempotencyInProgress _ => "IdempotencyInProgress"
  | IdempotencyFailedPreviously _ _ => "IdempotencyFailedPreviously"
  | InvalidAmountError _ => "InvalidAmountError"
  | AuthorizationError _ _ => "AuthorizationError"
  | CaptureError _ => "CaptureError"
  | PaymentError _ => "PaymentError"
  | TokenNotFoundError _ => "TokenNotFoundError"
  | TokenExpiredError _ => "TokenExpiredError"
  | TokenAlreadyUsedError _ => "TokenAlreadyUsedError"
  | OtherError type_name _ => type_name
  end.

(** [str(e)]; the messages of the built-in exceptions are not modelled. *)
Definition exn_message (e : Exn) : string :=
  match e with
  | ValueError | OverflowError | IndexError | TypeError => EmptyString
  | IdempotencyConflict msg | IdempotencyInProgress msg
  | InvalidAmountError msg | AuthorizationError msg _ | CaptureError msg
  | PaymentError msg | TokenNotFoundError msg | TokenExpiredError msg
  | TokenAlreadyUsedError msg => msg
  | IdempotencyFailedPreviously type_name message =>
    "Previous request failed with: " ++ type_name ++ ": " ++ message
  | OtherError _ message => message
  end.

Inductive Outcome (A : Type) :=
| Returned (a : A)
| Raised (e : Exn).
Arguments Returned {A} a.
Arguments Raised {A} e.

(** ** Insertion-ordered dictionaries

    [d.get(k)], [d[k] = v] (an existing key keeps its position) and
    iteration over [d.values()] in insertion order. *)
Section Dict.
Context {V : Type}.

Fixpoint dict_get (k : string) (d : list (string * V)) : option V :=
    match d with
    | [] => None
    | (k', v) :: rest => if String.eqb k k' then Some v else dict_get k rest
    end.

Fixpoint dict_set (k : string) (v : V) (d : list (string * V))
    : list (string * V) :=
    match d with
    | [] => [(k, v)]
    | (k', v') :: rest =>
        if String.eqb k k' then (k', v) :: rest
        else (k', v') :: dict_set k v rest
    end.

Definition dict_values (d : list (string * V)) : list V := map snd d.
End Dict.

(** ** [int(p / q)]

    The true division of two [int]s gives the double nearest to the exact
    quotient, ties to even, and raises [OverflowError] when that double
    would be 2^1024 or more; [int] truncates the double towards zero. A
    double is [m * 2^(e - 52)] with [2^52 <= m <= 2^53], where [e] is the
    binary exponent of the exact quotient. Below 1 the truncation is 0
    whatever the precision, so subnormal doubles need no case of their
    own. *)

(** The integer nearest to [n / d], ties to even, for [0 <= n] and [0 < d]. *)
Definition div_half_even (n d : Z) : Z :=
  let q := n / d in
  let r := n mod d in
  if 2 * r <? d then q
  else if d <? 2 * r then q + 1
  else if Z.even q then q else q + 1.

(** Numerator and denominator of [(n / d) / 2^k]. *)
Definition scaled (n d k : Z) : Z * Z :=
  (n * 2 ^ Z.max 0 (- k), d * 2 ^ Z.max 0 k).

(** The [e] with [2^e <= n / d < 2^(e + 1)], for [0 < n] and [0 < d]. *)
Definition binary_exponent (n d : Z) : Z :=
  let e0 := Z.log2 n - Z.log2 d in
  let '(n', d') := scaled n d e0 in
  if d' <=? n' then e0 else e0 - 1.

(** [int(p / q)] for [0 < q]. *)
Definition int_true_div (p q : Z) : Outcome Z :=
  if p =? 0 then Returned 0
  else
    let n := Z.abs p in
    let e := binary_exponent n q in
    let '(n', q') := scaled n q (e - 52) in
    let m := div_half_even n' q' in
    if (1024 <=? e) || ((e =? 1023) && (m =? 2 ^ 53)) then Raised OverflowError
    else
      let magnitude :=
        if 52 <=? e then m * 2 ^ (e - 52) else m / 2 ^ (52 - e) in
      Returned (Z.sgn p * magnitude).

(** ** [datetime]

    A [datetime] is the number of microseconds since the start of the
    proleptic Gregorian day of ordinal 0; [datetime(y, m, d)] is midnight
    of the day whose ordinal the standard library computes with
    [_ymd2ord]. *)
Definition us_per_second : Z := 1000000.
Definition us_per_hour : Z := 3600 * us_per_second.
Definition us_per_day : Z := 24 * us_per_hour.

Definition timedelta_days (n : Z) : Z := n * us_per_day.
Definition timedelta_hours (n : Z) : Z := n * us_per_hour.

Definition MINYEAR : Z := 1.
Definition MAXYEAR : Z := 9999.
Definition MAXORDINAL : Z := 3652059.

Definition is_leap (year : Z) : bool :=
  (year mod 4 =? 0) && (negb (year mod 100 =? 0) || (year mod 400 =? 0)).

Definition days_before_year (year : Z) : Z :=
  let y := year - 1 in
  y * 365 + y / 4 - y / 100 + y / 400.

Definition days_in_month (year month : Z) : Z :=
  if (month =? 2) && is_leap year then 29
  else nth (Z.to_nat month) [0; 31; 28; 31; 30; 31; 30; 31; 31; 30; 31; 30; 31] 0.

Definition days_before_month (year month : Z) : Z :=
  nth (Z.to_nat month) [0; 0; 31; 59; 90; 120; 151; 181; 212; 243; 273; 304; 334] 0
  + (if (2 <? month) && is_leap year then 1 else 0).

Definition ymd2ord (year month day : Z) : Z :=
  days_before_year year + days_before_month year month + day.

(** [datetime(year, month, day)]; [None] stands for the [ValueError] of an
    out-of-range field. *)
Definition datetime (year month day : Z) : option Z :=
  if (MINYEAR <=? year) && (year <=? MAXYEAR)
     && (1 <=? month) && (month <=? 12)
     && (1 <=? day) && (day <=? days_in_month year month)
  then Some (ymd2ord year month day * us_per_day)
  else None.

(** [dt + delta]; [None] stands for the [OverflowError] of a date outside
    [datetime.min .. datetime.max]. *)
Definition datetime_add (dt delta : Z) : option Z :=
  let r := dt + delta in
  if (us_per_day <=? r) && (r <? (MAXORDINAL + 1) * us_per_day)
  then Some r else None.

(** The ordinal of the first day of the month after [month]. *)
Definition next_month_ordinal (year month : Z) : Z :=
  if month =? 12 then ymd2ord (year + 1) 1 1 else ymd2ord year (month + 1) 1.

(** [datetime(y, m, d, hh)], for writing concrete clock readings. *)
Definition at_hour (year month day hour : Z) : Z :=
  ymd2ord year month day * us_per_day + hour * us_per_hour.

End Py.

Import Py.

(* ===================================================================== *)
(** * bank_simulator/issuing_bank.py *)
(* ===================================================================== *)

Module Issuer.

Inductive CardStatus := ACTIVE | BLOCKED | EXPIRED | LOST_STOLEN | FRAUD_SUSPECT.
Inductive AccountType := DEBIT | CREDIT | PREPAID.

#[global] Instance CardStatus_eq_dec : EqDecision CardStatus.
Proof. solve_decision. Defined.
#[global] Instance AccountType_eq_dec : EqDecision AccountType.
Proof. solve_decision. Defined.

Record CardAccount := mkCardAccount {
  card_number : string;
  cardholder_name : string;
  exp_month : Z;
  exp_year : Z;
  cvv : string;
  status : CardStatus;
  account_type : AccountType;
  credit_limit : Z;
  current_balance : Z;
  account_balance : Z;
  holds : gmap string Z;
  velocity_limit : Z;
  single_transaction_limit : Z
}.

(** [sum(self.holds.values())] *)
Definition holds_total (h : gmap string Z) : Z :=
  map_fold (fun _ v acc => v + acc) 0 h.

Definition available_credit (a : CardAccount) : Z :=
  credit_limit a - current_balance a - holds_total (holds a).

Definition available_balance (a : CardAccount) : Z :=
  account_balance a - holds_total (holds a).

(** The expression that [authorize] and [get_account_status] both use. *)
Definition available (a : CardAccount) : Z :=
  if decide (account_type a = CREDIT) then available_credit a
  else available_balance a.

Definition set_holds (a : CardAccount) (h : gmap string Z) : CardAccount :=
  mkCardAccount (card_number a) (cardholder_name a) (exp_month a) (exp_year a)
    (cvv a) (status a) (account_type a) (credit_limit a) (current_balance a)
    (account_balance a) h (velocity_limit a) (single_transaction_limit a).

Definition set_current_balance (a : CardAccount) (b : Z) : CardAccount :=
  mkCardAccount (card_number a) (cardholder_name a) (exp_month a) (exp_year a)
    (cvv a) (status a) (account_type a) (credit_limit a) b
    (account_balance a) (holds a) (velocity_limit a) (single_transaction_limit a).

Definition set_account_balance (a : CardAccount) (b : Z) : CardAccount :=
  mkCardAccount (card_number a) (cardholder_name a) (exp_month a) (exp_year a)
    (cvv a) (status a) (account_type a) (credit_limit a) (current_balance a)
    b (holds a) (velocity_limit a) (single_transaction_limit a).

Record AuthorizationRequest := mkRequest {
  request_id : string;
  req_card_number : string;
  req_exp_month : Z;
  req_exp_year : Z;
  req_cvv : string;
  amount : Z;
  currency : string;
  merchant_id : string;
  merchant_name : string;
  merchant_category : string
}.

Record AuthorizationResponse := mkResponse {
  resp_request_id : string;
  approved : bool;
  auth_code : option string;
  decline_reason : option string;
  avs_result : string;
  cvv_result : string
}.

Record IssuingBank := mkIssuingBank {
  bank_name : string;
  _accounts : list (string * CardAccount);
  _transaction_history : gmap string (list Z)
}.

Definition set_accounts (b : IssuingBank) (accts : list (string * CardAccount))
  : IssuingBank :=
  mkIssuingBank (bank_name b) accts (_transaction_history b).

(** What one call of [authorize] reads from its surroundings: the three
    [datetime.now()] readings, in program order, and the value of
    [secrets.token_hex(3).upper()]. *)
Record Ambient := mkAmbient {
  now_expiry : Z;
  now_velocity : Z;
  now_record : Z;
  token_hex : string
}.

Definition _check_velocity (b : IssuingBank) (card : string) (limit : Z)
           (now : Z) : bool :=
  let cutoff := now - timedelta_hours 1 in
  let history := default [] (_transaction_history b !! card) in
  let recent := filter (fun t => cutoff < t) history in
  Z.of_nat (length recent) <? limit.

Definition _record_transaction (b : IssuingBank) (card : string) (now : Z)
  : IssuingBank :=
  let history := default [] (_transaction_history b !! card) in
  mkIssuingBank (bank_name b) (_accounts b)
    (<[card := (history ++ [now])%list]> (_transaction_history b)).

Definition declined (request : AuthorizationRequest) (reason cvv_res : string)
  : AuthorizationResponse :=
  mkResponse (request_id request) false None (Some reason) "Y" cvv_res.

Definition authorize (b : IssuingBank) (request : AuthorizationRequest)
           (env : Ambient) : Outcome AuthorizationResponse * IssuingBank :=
  match dict_get (req_card_number request) (_accounts b) with
  | None => (Returned (declined request "invalid_card" "M"), b)
  | Some account =>
    if decide (status account = BLOCKED) then
      (Returned (declined request "card_declined" "M"), b)
    else if decide (status account = LOST_STOLEN) then
      (Returned (declined request "pickup_card" "M"), b)
    else if decide (status account = FRAUD_SUSPECT) then
      (Returned (declined request "fraudulent" "M"), b)
    else
      let now := now_expiry env in
      match datetime (exp_year account) (exp_month account) 1 with
      | None => (Raised ValueError, b)
      | Some exp_date =>
        match datetime_add exp_date (timedelta_days 31) with
        | None => (Raised OverflowError, b)
        | Some grace_end =>
          if grace_end <? now then
            (Returned (declined request "expired_card" "M"), b)
          else
            let cvv_res :=
              if String.eqb (req_cvv request) (cvv account) then "M" else "N" in
            if String.eqb cvv_res "N" then
              (Returned (declined request "incorrect_cvc" "N"), b)
            else if single_transaction_limit account <? amount request then
              (Returned (declined request "transaction_not_allowed" "M"), b)
            else if available account <? amount request then
              (Returned (declined request "insufficient_funds" "M"), b)
            else if negb (_check_velocity b (req_card_number request)
                            (velocity_limit account) (now_velocity env)) then
              (Returned (declined request "withdrawal_count_limit_exceeded" "M"), b)
            else
              let code := token_hex env in
              let account' :=
                set_holds account
                  (<[request_id request := amount request]> (holds account)) in
              let b' :=
                set_accounts b
                  (dict_set (req_card_number request) account' (_accounts b)) in
              let b'' :=
                _record_transaction b' (req_card_number request) (now_record env) in
              (Returned (mkResponse (request_id request) true (Some code) None
                           "Y" cvv_res), b'')
        end
      end
  end.

(** The charge that a successful capture applies to the account. *)
Definition apply_charge (account : CardAccount) (amt : Z) : CardAccount :=
  if decide (account_type account = CREDIT)
  then set_current_balance account (current_balance account + amt)
  else set_account_balance account (account_balance account - amt).

(** The loop of [capture] over [self._accounts.values()]. *)
Fixpoint capture_scan (auth_id : string) (amt : Z)
         (accts : list (string * CardAccount))
  : bool * list (string * CardAccount) :=
  match accts with
  | [] => (false, [])
  | (k, account) :: rest =>
    match holds account !! auth_id with
    | Some held_amount =>
      if held_amount <? amt then (false, accts)
      else
        (true,
         (k, apply_charge (set_holds account (delete auth_id (holds account))) amt)
           :: rest)
    | None =>
      let '(r, rest') := capture_scan auth_id amt rest in
      (r, (k, account) :: rest')
    end
  end.

Definition capture (b : IssuingBank) (auth_id : string) (amt : Z)
  : bool * IssuingBank :=
  let '(r, accts) := capture_scan auth_id amt (_accounts b) in
  (r, set_accounts b accts).

Fixpoint void_scan (auth_id : string) (accts : list (string * CardAccount))
  : bool * list (string * CardAccount) :=
  match accts with
  | [] => (false, [])
  | (k, account) :: rest =>
    match holds account !! auth_id with
    | Some _ =>
      (true, (k, set_holds account (delete auth_id (holds account))) :: rest)
    | None =>
      let '(r, rest') := void_scan auth_id rest in
      (r, (k, account) :: rest')
    end
  end.

Definition void (b : IssuingBank) (auth_id : string) : bool * IssuingBank :=
  let '(r, accts) := void_scan auth_id (_accounts b) in
  (r, set_accounts b accts).

Definition refund (b : IssuingBank) (card : string) (amt : Z)
  : bool * IssuingBank :=
  match dict_get card (_accounts b) with
  | None => (false, b)
  | Some account =>
    let account' :=
      if decide (account_type account = CREDIT)
      then set_current_balance account (current_balance account - amt)
      else set_account_balance account (account_balance account + amt) in
    (true, set_accounts b (dict_set card account' (_accounts b)))
  end.

(** [CardAccount(...)] with the dataclass defaults. *)
Definition default_account (number name : string) : CardAccount :=
  mkCardAccount number name 12 2025 "123" ACTIVE CREDIT
    500000 0 100000 ∅ 5 100000.

Definition with_credit (a : CardAccount) (limit balance : Z) : CardAccount :=
  mkCardAccount (card_number a) (cardholder_name a) (exp_month a) (exp_year a)
    (cvv a) (status a) (account_type a) limit balance
    (account_balance a) (holds a) (velocity_limit a) (single_transaction_limit a).

Definition with_status (a : CardAccount) (s : CardStatus) : CardAccount :=
  mkCardAccount (card_number a) (cardholder_name a) (exp_month a) (exp_year a)
    (cvv a) s (account_type a) (credit_limit a) (current_balance a)
    (account_balance a) (holds a) (velocity_limit a) (single_transaction_limit a).

Definition with_debit (a : CardAccount) (balance : Z) : CardAccount :=
  mkCardAccount (card_number a) (cardholder_name a) (exp_month a) (exp_year a)
    (cvv a) (status a) DEBIT (credit_limit a) (current_balance a)
    balance (holds a) (velocity_limit a) (single_transaction_limit a).

(** [_setup_test_accounts] *)
Definition test_accounts : list (string * CardAccount) :=
  [ ("4242424242424242",
     with_credit (default_account "4242424242424242" "Test Success") 1000000 0);
    ("4000000000009995",
     with_credit (default_account "4000000000009995" "Test Insufficient") 10000 9900);
    ("4000000000000002",
     with_status (default_account "4000000000000002" "Test Declined") BLOCKED);
    ("4100000000000019",
     with_status (default_account "4100000000000019" "Test Fraud") FRAUD_SUSPECT);
    ("5555555555554444", default_account "5555555555554444" "Test MC Success");
    ("4000056655665556",
     with_debit (default_account "4000056655665556" "Test Debit") 50000) ].

(** [IssuingBank(bank_name)] *)
Definition init (name : string) : IssuingBank :=
  mkIssuingBank name test_accounts ∅.

End Issuer.

(* ===================================================================== *)
(** * gateway/models.py: [Card.is_expired] *)
(* ===================================================================== *)

Module Models.

(** [Card.is_expired], with [now] the reading of [datetime.utcnow()]: the
    card is valid through the last day of [exp_month]. [None] stands for
    the [ValueError] of an out-of-range month or year. *)
Definition Card_is_expired (exp_year exp_month : Z) (now : Z) : option bool :=
  match datetime exp_year exp_month 1 with
  | None => None
  | Some _ =>
    let expiry :=
      if exp_month =? 12 then datetime (exp_year + 1) 1 1
      else datetime exp_year (exp_month + 1) 1 in
    match expiry with
    | None => None
    | Some e => Some (e <=? now)
    end
  end.

End Models.

(* ===================================================================== *)
(** * Issuing bank: sequences of operations and the funds invariant *)
(* ===================================================================== *)

Module IssuerOps.
Import Issuer.

(** One call on the bank, with everything the call reads. *)
Inductive Op :=
| OpAuthorize (request : AuthorizationRequest) (env : Ambient)
| OpCapture (auth_id : string) (amt : Z)
| OpVoid (auth_id : string).

(** The bank after one call (a raised exception leaves it as it was). *)
Definition step (b : IssuingBank) (op : Op) : IssuingBank :=
  match op with
  | OpAuthorize request env => snd (authorize b request env)
  | OpCapture auth_id amt => snd (capture b auth_id amt)
  | OpVoid auth_id => snd (void b auth_id)
  end.

(** The bank after each call of a sequence, in order. *)
Fixpoint trace (b : IssuingBank) (ops : list Op) : list IssuingBank :=
  match ops with
  | [] => []
  | op :: rest => step b op :: trace (step b op) rest
  end.

Definition holds_nonneg (a : CardAccount) : Prop :=
  map_Forall (fun _ v => 0 <= v) (holds a).

Definition account_ok (a : CardAccount) : Prop :=
  0 <= available a /\ holds_nonneg a.

Definition bank_ok (b : IssuingBank) : Prop :=
  Forall (fun p => account_ok (snd p)) (_accounts b).

Definition funds_nonneg (b : IssuingBank) : Prop :=
  Forall (fun p => 0 <= available (snd p)) (_accounts b).

Definition amount_nonneg (op : Op) : Prop :=
  match op with
  | OpAuthorize request _ => 0 <= amount request
  | _ => True
  end.

(** A bank that knows a single card. *)
Definition single_card_bank (a : CardAccount) : IssuingBank :=
  mkIssuingBank "Demo Bank" [(card_number a, a)] ∅.

(** No account has a hold under [auth_id]. *)
Definition no_holder (accts : list (string * CardAccount)) (auth_id : string)
  : Prop :=
  forall p, p ∈ accts -> holds (snd p) !! auth_id = None.



(** Two accounts agree on everything but holds and balances. *)
Definition same_card (a a' : CardAccount) : Prop :=
  card_number a' = card_number a
  /\ cardholder_name a' = cardholder_name a
  /\ exp_month a' = exp_month a
  /\ exp_year a' = exp_year a
  /\ cvv a' = cvv a
  /\ status a' = status a
  /\ account_type a' = account_type a
  /\ credit_limit a' = credit_limit a
  /\ velocity_limit a' = velocity_limit a
  /\ single_transaction_limit a' = single_transaction_limit a.



(** The bank after an approved authorization: the hold is stored under the
    request id and the clock reading is appended to the card's history. *)
Definition approved_bank (b : IssuingBank) (account : CardAccount)
           (request : AuthorizationRequest) (env : Ambient) : IssuingBank :=
  mkIssuingBank (bank_name b)
    (dict_set (req_card_number request)
       (set_holds account (<[request_id request := amount request]> (holds account)))
       (_accounts b))
    (<[req_card_number request :=
         (default [] (_transaction_history b !! req_card_number request)
            ++ [now_record env])%list]> (_transaction_history b)).






(** A card that expires in a 30-day month, 04/2025, and a clock reading of
    noon on 1 May 2025. *)
Definition april_account : CardAccount :=
  mkCardAccount "4242424242424242" "Test Success" 4 2025 "123" ACTIVE CREDIT
    1000000 0 100000 ∅ 5 100000.

Definition may_first_env : Ambient :=
  mkAmbient (at_hour 2025 5 1 12) (at_hour 2025 5 1 12) (at_hour 2025 5 1 12)
    "A1B2C3".

Definition april_request : AuthorizationRequest :=
  mkRequest "nt_1" "4242424242424242" 4 2025 "123" 5000 "USD" "merch_123"
    "Test Store" "5411".

(** A day on which the demo cards (12/2025) are valid. *)
Definition demo_env : Ambient :=
  mkAmbient (at_hour 2025 6 1 12) (at_hour 2025 6 1 12) (at_hour 2025 6 1 12)
    "A1B2C3".

Definition demo_request (rid card : string) (amt : Z) : AuthorizationRequest :=
  mkRequest rid card 12 2025 "123" amt "USD" "merch_123" "Test Store" "5411".

Definition demo_ops : list Op :=
  [ OpAuthorize (demo_request "auth_001" "4242424242424242" 50000) demo_env;
    OpCapture "auth_001" 50000;
    OpAuthorize (demo_request "auth_002" "4000000000009995" 5000) demo_env;
    OpVoid "auth_002" ].

(** The "Test Insufficient" card: limit 10,000, balance 9,900, no holds. *)
Definition insufficient_account : CardAccount :=
  with_credit (default_account "4000000000009995" "Test Insufficient") 10000 9900.

Definition negative_hold_ops : list Op :=
  [ OpAuthorize (demo_request "nt_1" "4000000000009995" (-50)) demo_env;
    OpAuthorize (demo_request "nt_2" "4000000000009995" 150) demo_env;
    OpVoid "nt_1" ].

End IssuerOps.


(* ===================================================================== *)
(** * bank_simulator/card_network.py *)
(* ===================================================================== *)

Module Network.

Inductive NetworkType := VISA | MASTERCARD | AMEX | DISCOVER.

#[global] Instance NetworkType_eq_dec : EqDecision NetworkType.
Proof. solve_decision. Defined.

(** [NetworkType.value] *)
Definition network_value (n : NetworkType) : string :=
  match n with
  | VISA => "visa"
  | MASTERCARD => "mastercard"
  | AMEX => "amex"
  | DISCOVER => "discover"
  end.

(** The [metadata] dictionary of a logged transaction. *)
Record Metadata := mkMetadata {
  meta_merchant_id : string;
  meta_decline_reason : option string;
  interchange_fee : Z;
  assessment_fee : Z
}.

Record NetworkTransaction := mkNetworkTransaction {
  transaction_id : string;
  network : NetworkType;
  acquirer_id : string;
  issuer_id : string;
  amount : Z;
  currency : string;
  auth_code : option string;
  status : string;
  created_at : Z;
  metadata : Metadata
}.

Definition set_status (t : NetworkTransaction) (s : string) : NetworkTransaction :=
  mkNetworkTransaction (transaction_id t) (network t) (acquirer_id t) (issuer_id t)
    (amount t) (currency t) (auth_code t) s (created_at t) (metadata t).

Definition BIN_RANGES : list (string * NetworkType) :=
  [ ("4", VISA); ("5", MASTERCARD); ("34", AMEX); ("37", AMEX); ("6", DISCOVER) ].

Record CardNetwork := mkCardNetwork {
  network_type : NetworkType;
  _issuers : gmap string Issuer.IssuingBank;
  _transactions : gmap string NetworkTransaction;
  interchange_fee_bps : Z;
  assessment_fee_bps : Z
}.

Definition set_issuer (net : CardNetwork) (name : string)
           (issuer : Issuer.IssuingBank) : CardNetwork :=
  mkCardNetwork (network_type net) (<[name := issuer]> (_issuers net))
    (_transactions net) (interchange_fee_bps net) (assessment_fee_bps net).

Definition set_transaction (net : CardNetwork) (tid : string)
           (t : NetworkTransaction) : CardNetwork :=
  mkCardNetwork (network_type net) (_issuers net)
    (<[tid := t]> (_transactions net)) (interchange_fee_bps net)
    (assessment_fee_bps net).

(** [CardNetwork(network_type)], with its own default issuer. *)
Definition init (nt : NetworkType) : CardNetwork :=
  mkCardNetwork nt {["default" := Issuer.init "Demo Issuing Bank"]} ∅ 200 13.

(** [s[:n]] *)
Definition slice_to (n : nat) (s : string) : string := String.substring 0 n s.

(** [detect_network]: the 2-character prefix, then the first character;
    [card_number[0]] raises [IndexError] on the empty string. Strings are
    byte sequences here; every key of the table is ASCII, so a slice that
    cuts a multi-byte character misses the table as the Python slice does. *)
Definition detect_network (card_number : string) : Outcome (option NetworkType) :=
  match dict_get (slice_to 2 card_number) BIN_RANGES with
  | Some n => Returned (Some n)
  | None =>
    match card_number with
    | EmptyString => Raised IndexError
    | String c _ =>
      match dict_get (String c EmptyString) BIN_RANGES with
      | Some n => Returned (Some n)
      | None => Returned None
      end
    end
  end.

(** The response dictionaries of [route_authorization]. *)
Inductive RouteResult :=
| RouteError (error : string)
| RouteResponse (success : bool) (transaction_id : string)
                (auth_code decline_reason : option string)
                (avs_result cvv_result : string)
                (interchange assessment total : Z).

Definition route_success (r : RouteResult) : bool :=
  match r with
  | RouteError _ => false
  | RouteResponse success _ _ _ _ _ _ _ _ => success
  end.

(** The response dictionaries of [capture] and [void]. *)
Inductive NetResult :=
| NetError (error : string)
| NetCaptured (amount_captured : Z)
| NetVoided.

Definition net_success (r : NetResult) : bool :=
  match r with
  | NetError _ => false
  | _ => true
  end.

(** What one call of [route_authorization] reads from its surroundings:
    [secrets.token_hex(12)], what the issuer reads, and [datetime.utcnow()]. *)
Record RouteAmbient := mkRouteAmbient {
  token_hex12 : string;
  issuer_env : Issuer.Ambient;
  utcnow : Z
}.

Record RouteArgs := mkRouteArgs {
  arg_acquirer_id : string;
  arg_card_number : string;
  arg_exp_month : Z;
  arg_exp_year : Z;
  arg_cvv : string;
  arg_amount : Z;
  arg_currency : string;
  arg_merchant_id : string;
  arg_merchant_name : string;
  arg_merchant_category : string
}.

(** [int(amount * bps / 10000)]: the product is an exact [int], the division
    is a float division and can raise [OverflowError]. *)
Definition fee (amt bps : Z) : Outcome Z := int_true_div (amt * bps) 10000.

Definition route_authorization (net : CardNetwork) (args : RouteArgs)
           (env : RouteAmbient) : Outcome RouteResult * CardNetwork :=
  let transaction_id := "nt_" ++ token_hex12 env in
  match detect_network (arg_card_number args) with
  | Raised e => (Raised e, net)
  | Returned detected =>
    if negb (bool_decide (detected = Some (network_type net))) then
      (Returned (RouteError ("Card not valid for "
                               ++ network_value (network_type net) ++ " network")),
       net)
    else
      match _issuers net !! "default" with
      | None => (Returned (RouteError "No issuing bank found for card"), net)
      | Some issuer =>
        let auth_request :=
          Issuer.mkRequest transaction_id (arg_card_number args)
            (arg_exp_month args) (arg_exp_year args) (arg_cvv args)
            (arg_amount args) (arg_currency args) (arg_merchant_id args)
            (arg_merchant_name args) (arg_merchant_category args) in
        match Issuer.authorize issuer auth_request (issuer_env env) with
        | (Raised e, issuer') => (Raised e, set_issuer net "default" issuer')
        | (Returned response, issuer') =>
          match fee (arg_amount args) (interchange_fee_bps net) with
          | Raised e => (Raised e, set_issuer net "default" issuer')
          | Returned interchange =>
            match fee (arg_amount args) (assessment_fee_bps net) with
            | Raised e => (Raised e, set_issuer net "default" issuer')
            | Returned assessment =>
              let logged :=
                mkNetworkTransaction transaction_id (network_type net)
                  (arg_acquirer_id args) "default" (arg_amount args)
                  (arg_currency args) (Issuer.auth_code response)
                  (if Issuer.approved response then "approved" else "declined")
                  (utcnow env)
                  (mkMetadata (arg_merchant_id args)
                     (Issuer.decline_reason response) interchange assessment) in
              (Returned (RouteResponse (Issuer.approved response) transaction_id
                           (Issuer.auth_code response)
                           (Issuer.decline_reason response)
                           (Issuer.avs_result response)
                           (Issuer.cvv_result response)
                           interchange assessment (interchange + assessment)),
               set_transaction (set_issuer net "default" issuer') transaction_id
                 logged)
            end
          end
        end
      end
  end.

Definition capture (net : CardNetwork) (tid : string) (amt : Z)
  : NetResult * CardNetwork :=
  match _transactions net !! tid with
  | None => (NetError "Transaction not found", net)
  | Some transaction =>
    if negb (String.eqb (status transaction) "approved") then
      (NetError "Transaction not authorized", net)
    else
      match _issuers net !! issuer_id transaction with
      | Some issuer =>
        let '(captured, issuer') := Issuer.capture issuer tid amt in
        if captured then
          (NetCaptured amt,
           set_transaction (set_issuer net (issuer_id transaction) issuer') tid
             (set_status transaction "captured"))
        else
          (NetError "Capture failed",
           set_issuer net (issuer_id transaction) issuer')
      | None => (NetError "Capture failed", net)
      end
  end.

Definition void (net : CardNetwork) (tid : string) : NetResult * CardNetwork :=
  match _transactions net !! tid with
  | None => (NetError "Transaction not found", net)
  | Some transaction =>
    match _issuers net !! issuer_id transaction with
    | Some issuer =>
      let '(voided, issuer') := Issuer.void issuer tid in
      if voided then
        (NetVoided,
         set_transaction (set_issuer net (issuer_id transaction) issuer') tid
           (set_status transaction "voided"))
      else
        (NetError "Void failed", set_issuer net (issuer_id transaction) issuer')
    | None => (NetError "Void failed", net)
    end
  end.

(** Following the words of the specification: the longest prefix found in
    the table, trying the 4-character prefix, then the 2-character prefix,
    then the 1-character prefix. *)
Definition detect_by_prefixes (card_number : string) : option NetworkType :=
  match dict_get (slice_to 4 card_number) BIN_RANGES with
  | Some n => Some n
  | None =>
    match dict_get (slice_to 2 card_number) BIN_RANGES with
    | Some n => Some n
    | None => dict_get (slice_to 1 card_number) BIN_RANGES
    end
  end.

(** [p] is a longest prefix of [card_number] among the keys of the table,
    and the table maps it to [n]. *)
Definition longest_bin_match (card_number p : string) (n : NetworkType) : Prop :=
  String.prefix p card_number = true
  /\ dict_get p BIN_RANGES = Some n
  /\ forall p' n', String.prefix p' card_number = true ->
                  dict_get p' BIN_RANGES = Some n' ->
                  (String.length p' <= String.length p)%nat.

(** One operation on a network, for sequences of them. *)
Inductive Op :=
| OpRoute (args : RouteArgs) (env : RouteAmbient)
| OpCapture (tid : string) (amt : Z)
| OpVoid (tid : string).

Definition step (net : CardNetwork) (op : Op) : CardNetwork :=
  match op with
  | OpRoute args env => snd (route_authorization net args env)
  | OpCapture tid amt => snd (capture net tid amt)
  | OpVoid tid => snd (void net tid)
  end.

Definition run (net : CardNetwork) (ops : list Op) : CardNetwork :=
  fold_left step ops net.

(** The operation does not log a transaction under [tid]. *)
Definition routes_elsewhere (tid : string) (op : Op) : Prop :=
  match op with
  | OpRoute _ env => "nt_" ++ token_hex12 env <> tid
  | _ => True
  end.

Definition demo_args (card : string) (amt : Z) : RouteArgs :=
  mkRouteArgs "acq_demo123" card 12 2025 "123" amt "USD" "merch_123"
    "Demo Store" "5411".

Definition demo_env (token : string) : RouteAmbient :=
  mkRouteAmbient token IssuerOps.demo_env (at_hour 2025 6 1 12).

(** The Visa network after it approved 100 dollars on the demo Visa card
    under the transaction id [nt_abc]. *)
Definition visa_after_route : CardNetwork :=
  snd (route_authorization (init VISA) (demo_args "4242424242424242" 10000)
         (demo_env "abc")).

(** No transaction logged under [tid] has the status [approved]. *)
Definition not_approved (net : CardNetwork) (tid : string) : Prop :=
  forall t, _transactions net !! tid = Some t -> status t <> "approved".

End Network.

(* ===================================================================== *)
(** * bank_simulator/acquiring_bank.py *)
(* ===================================================================== *)

Module Acquirer.

Inductive SettlementStatus := PENDING | BATCHED | SETTLED | FAILED.
Inductive MerchantStatus := ACTIVE | SUSPENDED | CLOSED | UNDER_REVIEW.

#[global] Instance SettlementStatus_eq_dec : EqDecision SettlementStatus.
Proof. solve_decision. Defined.
#[global] Instance MerchantStatus_eq_dec : EqDecision MerchantStatus.
Proof. solve_decision. Defined.

Definition merchant_status_value (s : MerchantStatus) : string :=
  match s with
  | ACTIVE => "active"
  | SUSPENDED => "suspended"
  | CLOSED => "closed"
  | UNDER_REVIEW => "under_review"
  end.

(** [MerchantAccount]; its float field [chargeback_rate] is never read and
    is left out. *)
Record MerchantAccount := mkMerchant {
  merchant_id : string;
  business_name : string;
  status : MerchantStatus;
  discount_rate_bps : Z;
  fixed_fee_cents : Z;
  settlement_delay_days : Z;
  pending_settlement : Z;
  monthly_volume_limit : Z;
  current_month_volume : Z;
  mcc : string
}.

Definition set_pending_settlement (m : MerchantAccount) (v : Z) : MerchantAccount :=
  mkMerchant (merchant_id m) (business_name m) (status m) (discount_rate_bps m)
    (fixed_fee_cents m) (settlement_delay_days m) v (monthly_volume_limit m)
    (current_month_volume m) (mcc m).

Definition set_current_month_volume (m : MerchantAccount) (v : Z) : MerchantAccount :=
  mkMerchant (merchant_id m) (business_name m) (status m) (discount_rate_bps m)
    (fixed_fee_cents m) (settlement_delay_days m) (pending_settlement m)
    (monthly_volume_limit m) v (mcc m).

Record AcquirerTransaction := mkTransaction {
  transaction_id : string;
  txn_merchant_id : string;
  network_transaction_id : string;
  amount : Z;
  currency : string;
  fees : Z;
  net_amount : Z;
  settlement_status : SettlementStatus;
  settlement_date : option Z;
  created_at : Z
}.

(** [txn.settlement_status = BATCHED; txn.settlement_date = date] *)
Definition mark_batched (t : AcquirerTransaction) (date : Z) : AcquirerTransaction :=
  mkTransaction (transaction_id t) (txn_merchant_id t) (network_transaction_id t)
    (amount t) (currency t) (fees t) (net_amount t) BATCHED (Some date)
    (created_at t).

(** The dictionary that [create_settlement_batch] returns. *)
Record Batch := mkBatch {
  batch_id : string;
  batch_transactions : list string;
  total_amount : Z;
  total_fees : Z;
  batch_net_amount : Z;
  batch_created_at : Z
}.

Record AcquiringBank := mkAcquiringBank {
  bank_name : string;
  _merchants : gmap string MerchantAccount;
  _networks : list (Network.NetworkType * Network.CardNetwork);
  _transactions : list (string * AcquirerTransaction);
  _batches : list Batch
}.

Definition set_networks (acq : AcquiringBank)
           (nets : list (Network.NetworkType * Network.CardNetwork))
  : AcquiringBank :=
  mkAcquiringBank (bank_name acq) (_merchants acq) nets (_transactions acq)
    (_batches acq).

Definition set_merchant (acq : AcquiringBank) (m : MerchantAccount)
  : AcquiringBank :=
  mkAcquiringBank (bank_name acq) (<[merchant_id m := m]> (_merchants acq))
    (_networks acq) (_transactions acq) (_batches acq).

Definition set_transactions (acq : AcquiringBank)
           (txns : list (string * AcquirerTransaction)) : AcquiringBank :=
  mkAcquiringBank (bank_name acq) (_merchants acq) (_networks acq) txns
    (_batches acq).

(** [self._networks.get(key)] and the update of the network stored under
    a key, in the insertion order of the dictionary. *)
Fixpoint networks_get (key : Network.NetworkType)
         (nets : list (Network.NetworkType * Network.CardNetwork))
  : option Network.CardNetwork :=
  match nets with
  | [] => None
  | (k, net) :: rest =>
    if decide (key = k) then Some net else networks_get key rest
  end.

Fixpoint networks_set (key : Network.NetworkType) (net : Network.CardNetwork)
         (nets : list (Network.NetworkType * Network.CardNetwork))
  : list (Network.NetworkType * Network.CardNetwork) :=
  match nets with
  | [] => [(key, net)]
  | (k, n) :: rest =>
    if decide (key = k) then (k, net) :: rest
    else (k, n) :: networks_set key net rest
  end.

(** [AcquiringBank(bank_name)] *)
Definition init (name : string) : AcquiringBank :=
  mkAcquiringBank name
    {["merch_demo123" :=
        mkMerchant "merch_demo123" "Demo Store" ACTIVE 290 30 2 0 10000000 0 "5411"]}
    [ (Network.VISA, Network.init Network.VISA);
      (Network.MASTERCARD, Network.init Network.MASTERCARD) ]
    [] [].

(** [_detect_and_get_network]: the key chosen from the first digit and the
    network stored under it; [card_number[0]] raises [IndexError] on the
    empty string. *)
Definition _detect_and_get_network (acq : AcquiringBank) (card_number : string)
  : Outcome (option (Network.NetworkType * Network.CardNetwork)) :=
  match card_number with
  | EmptyString => Raised IndexError
  | String first_digit _ =>
    if Ascii.eqb first_digit "4"%char then
      Returned (option_map (pair Network.VISA)
                  (networks_get Network.VISA (_networks acq)))
    else if Ascii.eqb first_digit "5"%char then
      Returned (option_map (pair Network.MASTERCARD)
                  (networks_get Network.MASTERCARD (_networks acq)))
    else Returned None
  end.

(** The dictionaries that [process_authorization] returns: an error of its
    own, the network's dictionary as it is, or an approval. *)
Inductive AuthResult :=
| AuthError (error : string)
| AuthNetwork (network_result : Network.RouteResult)
| AuthApproved (transaction_id network_transaction_id : string)
               (auth_code : option string)
               (amount fee_discount fee_fixed fee_network fee_total net_amount : Z).

(** What one call of [process_authorization] reads from its surroundings:
    what the network reads, [secrets.token_hex(12)] for the transaction id,
    and [datetime.utcnow()] for [created_at]. *)
Record AuthAmbient := mkAuthAmbient {
  route_env : Network.RouteAmbient;
  txn_token_hex12 : string;
  txn_utcnow : Z
}.

Definition process_authorization (acq : AcquiringBank)
           (mid card_number : string) (exp_month exp_year : Z) (cvv : string)
           (amt : Z) (cur : string) (env : AuthAmbient)
  : Outcome AuthResult * AcquiringBank :=
  match _merchants acq !! mid with
  | None => (Returned (AuthError "Invalid merchant"), acq)
  | Some merchant =>
    if negb (bool_decide (status merchant = ACTIVE)) then
      (Returned (AuthError ("Merchant " ++ merchant_status_value (status merchant))),
       acq)
    else if monthly_volume_limit merchant <? current_month_volume merchant + amt then
      (Returned (AuthError "Monthly volume limit exceeded"), acq)
    else
      match _detect_and_get_network acq card_number with
      | Raised e => (Raised e, acq)
      | Returned None => (Returned (AuthError "Unsupported card network"), acq)
      | Returned (Some (key, network)) =>
        let args :=
          Network.mkRouteArgs (bank_name acq) card_number exp_month exp_year cvv
            amt cur mid (business_name merchant) (mcc merchant) in
        match Network.route_authorization network args (route_env env) with
        | (Raised e, network') =>
          (Raised e, set_networks acq (networks_set key network' (_networks acq)))
        | (Returned network_result, network') =>
          let acq1 := set_networks acq (networks_set key network' (_networks acq)) in
          match network_result with
          | Network.RouteResponse true ntid code _ _ _ _ _ network_fees =>
            match Network.fee amt (discount_rate_bps merchant) with
            | Raised e => (Raised e, acq1)
            | Returned discount_fee =>
              let total_fee := discount_fee + fixed_fee_cents merchant in
              let net := amt - total_fee in
              let tid := "txn_" ++ txn_token_hex12 env in
              let acq2 :=
                set_transactions acq1
                  (dict_set tid
                     (mkTransaction tid mid ntid amt cur total_fee net PENDING
                        None (txn_utcnow env))
                     (_transactions acq1)) in
              let acq3 :=
                set_merchant acq2
                  (set_current_month_volume merchant
                     (current_month_volume merchant + amt)) in
              (Returned (AuthApproved tid ntid code amt discount_fee
                           (fixed_fee_cents merchant) network_fees
                           (total_fee + network_fees) (net - network_fees)),
               acq3)
            end
          | _ => (Returned (AuthNetwork network_result), acq1)
          end
        end
      end
  end.

(** [amount or transaction.amount] *)
Definition or_amount (amt : option Z) (fallback : Z) : Z :=
  match amt with
  | Some a => if a =? 0 then fallback else a
  | None => fallback
  end.

(** [capture]: the network is [list(self._networks.values())[0]]. *)
Definition capture (acq : AcquiringBank) (tid : string) (amt : option Z)
  : Outcome Network.NetResult * AcquiringBank :=
  match dict_get tid (_transactions acq) with
  | None => (Returned (Network.NetError "Transaction not found"), acq)
  | Some transaction =>
    match _networks acq with
    | [] => (Raised IndexError, acq)
    | (key, network) :: others =>
      let capture_amount := or_amount amt (amount transaction) in
      let '(result, network') :=
        Network.capture network (network_transaction_id transaction)
          capture_amount in
      let acq1 := set_networks acq ((key, network') :: others) in
      if Network.net_success result then
        match _merchants acq !! txn_merchant_id transaction with
        | Some merchant =>
          (Returned result,
           mkAcquiringBank (bank_name acq1)
             (<[txn_merchant_id transaction :=
                  set_pending_settlement merchant
                    (pending_settlement merchant + net_amount transaction)]>
                (_merchants acq1))
             (_networks acq1) (_transactions acq1) (_batches acq1))
        | None => (Returned result, acq1)
        end
      else (Returned result, acq1)
    end
  end.

(** What one call of [create_settlement_batch] reads from its surroundings:
    [secrets.token_hex(8)], the reading of [datetime.utcnow()] at the k-th
    pending transaction of the loop, and the reading for [created_at]. *)
Record BatchAmbient := mkBatchAmbient {
  batch_token_hex8 : string;
  settle_utcnow : nat -> Z;
  batch_utcnow : Z
}.

(** The loop of [create_settlement_batch] over the transactions, with its
    accumulators: the number of clock readings so far, the ids and the two
    totals. *)
Fixpoint batch_scan (clock : nat -> Z) (k : nat)
         (txns : list (string * AcquirerTransaction))
         (ids : list string) (total_amount total_fees : Z)
  : list (string * AcquirerTransaction) * list string * Z * Z :=
  match txns with
  | [] => ([], ids, total_amount, total_fees)
  | (key, txn) :: rest =>
    if decide (settlement_status txn = PENDING) then
      let txn' := mark_batched txn (clock k + timedelta_days 2) in
      let '(rest', ids', ta, tf) :=
        batch_scan clock (S k) rest (ids ++ [transaction_id txn])%list
          (total_amount + amount txn) (total_fees + fees txn) in
      ((key, txn') :: rest', ids', ta, tf)
    else
      let '(rest', ids', ta, tf) :=
        batch_scan clock k rest ids total_amount total_fees in
      ((key, txn) :: rest', ids', ta, tf)
  end.

Definition create_settlement_batch (acq : AcquiringBank) (env : BatchAmbient)
  : Batch * AcquiringBank :=
  let '(txns, ids, ta, tf) :=
    batch_scan (settle_utcnow env) 0 (_transactions acq) [] 0 0 in
  let batch :=
    mkBatch ("batch_" ++ batch_token_hex8 env) ids ta tf (ta - tf)
      (batch_utcnow env) in
  (batch,
   mkAcquiringBank (bank_name acq) (_merchants acq) (_networks acq) txns
     (_batches acq ++ [batch])%list).

(** ** Vocabulary of the statements *)

Definition is_pending (t : AcquirerTransaction) : Prop :=
  settlement_status t = PENDING.

#[global] Instance is_pending_dec t : Decision (is_pending t).
Proof. unfold is_pending. apply _. Defined.

(** The pending transactions, in the order of the transaction log. *)
Definition included (txns : list (string * AcquirerTransaction))
  : list AcquirerTransaction :=
  filter is_pending (dict_values txns).

Definition Zsum (l : list Z) : Z := foldr Z.add 0 l.

(** The number of pending transactions among the first [i] entries. *)
Definition pending_before (txns : list (string * AcquirerTransaction)) (i : nat)
  : nat :=
  length (included (take i txns)).

(** What the batch run leaves at an entry of the log. *)
Definition after_batch (clock : nat -> Z) (k : nat) (t : AcquirerTransaction)
  : AcquirerTransaction :=
  if decide (settlement_status t = PENDING)
  then mark_batched t (clock k + timedelta_days 2)
  else t.

(** The scenario of the specification: the demo merchant 10 cents short of
    its monthly volume limit. *)
Definition near_volume_limit : AcquiringBank :=
  set_merchant (init "Demo Acquiring Bank")
    (mkMerchant "merch_demo123" "Demo Store" ACTIVE 290 30 2 0 10000000 9999990
       "5411").

(** The scenario of the specification: two pending transactions. *)
Definition two_pending : AcquiringBank :=
  set_transactions (init "Demo Acquiring Bank")
    [ ("txn_1", mkTransaction "txn_1" "merch_demo123" "nt_1" 10000 "USD" 320 9680
                  PENDING None (at_hour 2025 6 1 12));
      ("txn_2", mkTransaction "txn_2" "merch_demo123" "nt_2" 5000 "USD" 175 4825
                  PENDING None (at_hour 2025 6 1 13)) ].

Definition demo_auth_env : AuthAmbient :=
  mkAuthAmbient (Network.demo_env "n1") "t1" (at_hour 2025 6 1 12).

(** The bank after the demo merchant authorized 100 dollars on the demo
    Mastercard card. *)
Definition after_mastercard_auth : AcquiringBank :=
  snd (process_authorization (init "Demo Acquiring Bank") "merch_demo123"
         "5555555555554444" 12 2025 "123" 10000 "USD" demo_auth_env).

(** The same with the demo Visa card. *)
Definition after_visa_auth : AcquiringBank :=
  snd (process_authorization (init "Demo Acquiring Bank") "merch_demo123"
         "4242424242424242" 12 2025 "123" 10000 "USD" demo_auth_env).

End Acquirer.

(* ===================================================================== *)
(** * shared/idempotency.py *)
(* ===================================================================== *)

Module Idempotency.

Inductive IdempotencyStatus := PENDING | COMPLETED | FAILED.

#[global] Instance IdempotencyStatus_eq_dec : EqDecision IdempotencyStatus.
Proof. solve_decision. Defined.

(** [IdempotencyRecord]; [Dict] is the type of the stored results and the
    stored error is the pair of its [type] and [message] entries. *)
Record IdempotencyRecord (Dict : Type) := mkRecord {
  key : string;
  status : IdempotencyStatus;
  request_hash : string;
  result : option Dict;
  error : option (string * string);
  created_at : Z;
  expires_at : Z
}.
Arguments mkRecord {Dict}.
Arguments key {Dict}.
Arguments status {Dict}.
Arguments request_hash {Dict}.
Arguments result {Dict}.
Arguments error {Dict}.
Arguments created_at {Dict}.
Arguments expires_at {Dict}.

(** [IdempotencyService]: the store of records and the table of locks, each
    lock with its state ([true]: held). *)
Record IdempotencyService (Dict : Type) := mkService {
  store : gmap string (IdempotencyRecord Dict);
  _locks : gmap string bool
}.
Arguments mkService {Dict}.
Arguments store {Dict}.
Arguments _locks {Dict}.

(** What one call of [execute] reads from the clock: [utcnow()] in the
    first [store.get], in the [store.get] under the lock, and in the two
    default factories of the new record. *)
Record ExecAmbient := mkExecAmbient {
  get_utcnow : Z;
  recheck_utcnow : Z;
  created_utcnow : Z;
  expires_utcnow : Z
}.

Section Service.
Context {Params Result Dict : Type}.
Variable _hash_params : Params -> string.
Variable _serialize_result : Result -> Dict.

Definition is_expired (record : IdempotencyRecord Dict) (now : Z) : bool :=
  expires_at record <? now.

(** [IdempotencyStore.get]: an expired record is evicted and not returned. *)
Definition store_get (st : gmap string (IdempotencyRecord Dict)) (k : string)
           (now : Z)
  : option (IdempotencyRecord Dict) * gmap string (IdempotencyRecord Dict) :=
  match st !! k with
  | Some record =>
    if is_expired record now then (None, delete k st) else (Some record, st)
  | None => (None, st)
  end.

Definition _handle_existing_record (record : IdempotencyRecord Dict)
           (hash : string) : Outcome (option Dict) :=
  if negb (String.eqb (request_hash record) hash) then
    Raised (IdempotencyConflict
              ("Idempotency key '" ++ key record
                 ++ "' was used with different parameters. "
                 ++ "Use a new key for different operations."))
  else
    match status record with
    | PENDING =>
      Raised (IdempotencyInProgress "This request is currently being processed")
    | FAILED =>
      match error record with
      | Some (type_name, message) =>
        Raised (IdempotencyFailedPreviously type_name message)
      | None => Raised TypeError
      end
    | COMPLETED => Returned (result record)
    end.

(** [_get_lock]: the lock of the key, created free on first use. *)
Definition _get_lock (locks : gmap string bool) (k : string) : gmap string bool :=
  match locks !! k with
  | Some _ => locks
  | None => <[k := false]> locks
  end.

Definition lock_held (locks : gmap string bool) (k : string) : bool :=
  default false (locks !! k).

(** [execute], for calls that run one after the other. The operation acts
    on a world of its own and returns or raises. A lock that is held stays
    held for the whole call, since no other thread runs: the bounded wait
    times out and the call raises [IdempotencyInProgress]. A free lock is
    taken and is free again when the call ends. *)
Definition execute {World : Type} (svc : IdempotencyService Dict) (k : string)
           (operation : World -> Outcome Result * World)
           (request_params : Params) (env : ExecAmbient) (w : World)
  : Outcome (option Dict) * IdempotencyService Dict * World :=
  let hash := _hash_params request_params in
  let '(existing, store1) := store_get (store svc) k (get_utcnow env) in
  match existing with
  | Some record =>
    (_handle_existing_record record hash, mkService store1 (_locks svc), w)
  | None =>
    let locks1 := _get_lock (_locks svc) k in
    if lock_held locks1 k then
      (Raised (IdempotencyInProgress
                 "Another request with this idempotency key is being processed"),
       mkService store1 locks1, w)
    else
      let '(existing2, store2) := store_get store1 k (recheck_utcnow env) in
      match existing2 with
      | Some record =>
        (_handle_existing_record record hash, mkService store2 locks1, w)
      | None =>
        let record :=
          mkRecord k PENDING hash None None (created_utcnow env)
            (expires_utcnow env + timedelta_hours 24) in
        let store3 := <[k := record]> store2 in
        match operation w with
        | (Returned r, w') =>
          let record' :=
            mkRecord k COMPLETED hash (Some (_serialize_result r)) None
              (created_utcnow env) (expires_utcnow env + timedelta_hours 24) in
          (Returned (Some (_serialize_result r)),
           mkService (<[k := record']> store3) locks1, w')
        | (Raised e, w') =>
          let record' :=
            mkRecord k FAILED hash None
              (Some (exn_type_name e, exn_message e))
              (created_utcnow env) (expires_utcnow env + timedelta_hours 24) in
          (Raised e, mkService (<[k := record']> store3) locks1, w')
        end
      end
  end.

(** Calls of [execute] with one key and one set of parameters, one after
    the other; each call brings its operation and its clock readings. *)
Fixpoint execute_all {World : Type} (svc : IdempotencyService Dict) (k : string)
         (request_params : Params)
         (calls : list ((World -> Outcome Result * World) * ExecAmbient))
         (w : World)
  : list (Outcome (option Dict)) * IdempotencyService Dict * World :=
  match calls with
  | [] => ([], svc, w)
  | (operation, env) :: rest =>
    let '(out, svc1, w1) := execute svc k operation request_params env w in
    let '(outs, svc2, w2) := execute_all svc1 k request_params rest w1 in
    (out :: outs, svc2, w2)
  end.

(** An operation that also counts its invocations. *)
Definition counted {World : Type} (operation : World -> Outcome Result * World)
  : nat * World -> Outcome Result * (nat * World) :=
  fun cw =>
    let '(r, w') := operation (snd cw) in
    (r, (S (fst cw), w')).

(** The record that the call that runs the operation leaves in the store. *)
Definition final_record (k : string) (params : Params) (env : ExecAmbient)
           (out : Outcome Result) : IdempotencyRecord Dict :=
  match out with
  | Returned r =>
    mkRecord k COMPLETED (_hash_params params) (Some (_serialize_result r)) None
      (created_utcnow env) (expires_utcnow env + timedelta_hours 24)
  | Raised e =>
    mkRecord k FAILED (_hash_params params) None
      (Some (exn_type_name e, exn_message e))
      (created_utcnow env) (expires_utcnow env + timedelta_hours 24)
  end.

(** What the call that runs the operation gives back when the operation
    ended with [out]. *)
Definition first_outcome (out : Outcome Result) : Outcome (option Dict) :=
  match out with
  | Returned r => Returned (Some (_serialize_result r))
  | Raised e => Raised e
  end.

(** What a later call with the same parameters gets once the first call's
    operation ended with [out]. *)
Definition replayed (out : Outcome Result) : Outcome (option Dict) :=
  match out with
  | Returned r => Returned (Some (_serialize_result r))
  | Raised e => Raised (IdempotencyFailedPreviously (exn_type_name e) (exn_message e))
  end.

End Service.

End Idempotency.

(* ===================================================================== *)
(** * shared/constants.py, gateway/models.py, gateway/tokenization.py and
      gateway/authorization.py *)
(* ===================================================================== *)

Module Gateway.

Inductive Currency := USD | EUR | GBP.
Inductive CardBrand := VISA | MASTERCARD | AMEX | DISCOVER | UNKNOWN.
Inductive AuthorizationStatus := ACTIVE | CAPTURED | VOIDED | EXPIRED.
Inductive PaymentStatus :=
| PENDING | REQUIRES_ACTION | PROCESSING | AUTHORIZED | SUCCEEDED | FAILED
| CANCELED | REFUNDED | PARTIALLY_REFUNDED.
Inductive DeclineCode :=
| CARD_DECLINED | INSUFFICIENT_FUNDS | EXPIRED_CARD | INVALID_NUMBER
| INVALID_CVV | STOLEN_CARD | LOST_CARD | ISSUER_UNAVAILABLE | TRY_AGAIN
| AUTHENTICATION_REQUIRED | PROCESSING_ERROR | GATEWAY_ERROR.

#[global] Instance AuthorizationStatus_eq_dec : EqDecision AuthorizationStatus.
Proof. solve_decision. Defined.

Definition currency_value (c : Currency) : string :=
  match c with USD => "usd" | EUR => "eur" | GBP => "gbp" end.

(** [status.value] *)
Definition authorization_status_value (s : AuthorizationStatus) : string :=
  match s with
  | ACTIVE => "active" | CAPTURED => "captured"
  | VOIDED => "voided" | EXPIRED => "expired"
  end.

(** [format(status)], which is what an f-string writes for a member of
    this enum: for an enum that mixes in [str], Python 3.11 and later write
    what [str(status)] gives, the name of the member after the name of the
    class. (Python 3.10 and earlier wrote the value.) *)
Definition authorization_status_format (s : AuthorizationStatus) : string :=
  match s with
  | ACTIVE => "AuthorizationStatus.ACTIVE"
  | CAPTURED => "AuthorizationStatus.CAPTURED"
  | VOIDED => "AuthorizationStatus.VOIDED"
  | EXPIRED => "AuthorizationStatus.EXPIRED"
  end.

Definition decline_code_value (c : DeclineCode) : string :=
  match c with
  | CARD_DECLINED => "card_declined"
  | INSUFFICIENT_FUNDS => "insufficient_funds"
  | EXPIRED_CARD => "expired_card"
  | INVALID_NUMBER => "invalid_number"
  | INVALID_CVV => "invalid_cvv"
  | STOLEN_CARD => "stolen_card"
  | LOST_CARD => "lost_card"
  | ISSUER_UNAVAILABLE => "issuer_unavailable"
  | TRY_AGAIN => "try_again"
  | AUTHENTICATION_REQUIRED => "authentication_required"
  | PROCESSING_ERROR => "processing_error"
  | GATEWAY_ERROR => "gateway_error"
  end.

(** [Config] *)
Definition MIN_AMOUNT_CENTS : Z := 50.
Definition MAX_AMOUNT_CENTS : Z := 99999999.
Definition AUTH_HOLD_DAYS : Z := 7.

(** [TEST_CARDS]: the behavior of each magic card number and its decline
    code, when it has one. *)
Definition TEST_CARDS : list (string * (string * option DeclineCode)) :=
  [ ("4242424242424242", ("success", None));
    ("5555555555554444", ("success", None));
    ("378282246310005", ("success", None));
    ("4000000000000002", ("decline", Some CARD_DECLINED));
    ("4000000000009995", ("decline", Some INSUFFICIENT_FUNDS));
    ("4000000000000069", ("decline", Some EXPIRED_CARD));
    ("4000000000000127", ("decline", Some INVALID_CVV));
    ("4000000000003220", ("3ds_required", None));
    ("4000000000000077", ("success_delayed", None));
    ("4000000000000341", ("attach_fail", None)) ].

(** A metadata dictionary. *)
Definition Metadata := list (string * string).

Record Token := mkToken {
  token_id : string;
  token_card_last_four : string;
  token_card_brand : CardBrand;
  card_exp_month : Z;
  card_exp_year : Z;
  token_created_at : Z;
  token_expires_at : option Z;
  used : bool;
  _card_vault_id : option string
}.

Definition set_used (t : Token) : Token :=
  mkToken (token_id t) (token_card_last_four t) (token_card_brand t)
    (card_exp_month t) (card_exp_year t) (token_created_at t)
    (token_expires_at t) true (_card_vault_id t).

Record Authorization := mkAuthorization {
  id : string;
  amount : Z;
  currency : Currency;
  status : AuthorizationStatus;
  card_last_four : string;
  card_brand : CardBrand;
  created_at : Z;
  expires_at : Z;
  captured_at : option Z;
  voided_at : option Z;
  captured_amount : Z;
  auth_code : option string;
  merchant_id : string;
  metadata : Metadata
}.

(** [Charge]; its float field [risk_score] is never written by the
    authorization service and is left out. *)
Record Charge := mkCharge {
  charge_id : string;
  charge_amount : Z;
  charge_currency : Currency;
  charge_status : PaymentStatus;
  charge_card_last_four : string;
  charge_card_brand : CardBrand;
  charge_created_at : Z;
  authorization_code : option string;
  decline_code : option DeclineCode;
  decline_message : option string;
  refunded : bool;
  refunded_amount : Z;
  authorization_id : option string;
  charge_merchant_id : string;
  description : option string;
  charge_metadata : Metadata
}.

(** [Authorization.can_capture(amount)], with the reading of [utcnow()]. *)
Definition can_capture (a : Authorization) (amt : Z) (now : Z) : bool :=
  if negb (bool_decide (status a = ACTIVE)) then false
  else if expires_at a <? now then false
  else if negb (amt =? 0) && (amount a - captured_amount a <? amt) then false
  else true.

Definition can_void (a : Authorization) : bool :=
  bool_decide (status a = ACTIVE).

(** ** Tokenization, as far as [use_token] goes: the tokens and, for each
    vault id, the card number that the vault decrypts. *)
Record TokenizationService := mkTokenization {
  _tokens : gmap string Token;
  _vault : gmap string string
}.

Definition token_is_expired (t : Token) (now : Z) : bool :=
  match token_expires_at t with
  | None => false
  | Some e => e <? now
  end.

Definition use_token (ts : TokenizationService) (tid : string) (now : Z)
  : Outcome (Token * string) * TokenizationService :=
  match _tokens ts !! tid with
  | None => (Raised (TokenNotFoundError ("Token " ++ tid ++ " not found")), ts)
  | Some token =>
    if token_is_expired token now then
      (Raised (TokenExpiredError ("Token " ++ tid ++ " has expired")), ts)
    else if used token then
      (Raised (TokenAlreadyUsedError ("Token " ++ tid ++ " has already been used")),
       ts)
    else
      let token' := set_used token in
      let ts' := mkTokenization (<[tid := token']> (_tokens ts)) (_vault ts) in
      match _card_vault_id token ≫= (fun v => _vault ts !! v) with
      | Some card_number => (Returned (token', card_number), ts')
      | None =>
        (Raised (TokenNotFoundError
                   ("Vault entry " ++ default "None" (_card_vault_id token)
                      ++ " not found")), ts')
      end
  end.

(** ** [BankSimulator] *)
Record BankAuthResponse := mkBankAuthResponse {
  approved : bool;
  bank_auth_code : option string;
  bank_decline_code : option DeclineCode;
  bank_decline_message : option string;
  issuer_response_code : option string
}.

(** [DECLINE_MESSAGES.get(code, "Your card was declined.")] *)
Definition decline_message_of (c : DeclineCode) : string :=
  match c with
  | CARD_DECLINED => "Your card was declined."
  | INSUFFICIENT_FUNDS => "Your card has insufficient funds."
  | EXPIRED_CARD => "Your card has expired."
  | INVALID_NUMBER => "Your card number is invalid."
  | INVALID_CVV => "Your card's security code is invalid."
  | STOLEN_CARD => "Your card was declined."
  | LOST_CARD => "Your card was declined."
  | ISSUER_UNAVAILABLE => "The card issuer is temporarily unavailable."
  | TRY_AGAIN => "Please try again."
  | AUTHENTICATION_REQUIRED => "Additional authentication required."
  | PROCESSING_ERROR => "An error occurred processing your card."
  | GATEWAY_ERROR => "Your card was declined."
  end.

(** [BankSimulator.authorize]; [code] is the value of
    [_generate_auth_code()]. *)
Definition bank_authorize (card_number : string) (amt : Z) (cur : Currency)
           (code : string) : BankAuthResponse :=
  match dict_get card_number TEST_CARDS with
  | Some (behavior, test_code) =>
    if String.eqb behavior "success" then
      mkBankAuthResponse true (Some code) None None None
    else if String.eqb behavior "decline" then
      let dc := default CARD_DECLINED test_code in
      mkBankAuthResponse false None (Some dc) (Some (decline_message_of dc)) None
    else if String.eqb behavior "success_delayed" then
      mkBankAuthResponse true (Some code) None None None
    else if String.eqb behavior "3ds_required" then
      mkBankAuthResponse false None (Some AUTHENTICATION_REQUIRED)
        (Some "3D Secure authentication required") None
    else mkBankAuthResponse true (Some code) None None None
  | None => mkBankAuthResponse true (Some code) None None None
  end.

(** [BankSimulator.capture] *)
Definition bank_capture (code : option string) (amt : Z) : bool := true.

(** A call made on [self.bank]. *)
Inductive BankCall :=
| CallAuthorize (card_number : string) (amt : Z) (cur : Currency)
| CallCapture (code : option string) (amt : Z).

(** ** [AuthorizationService]

    The state that the wrapped operations act on: the tokenization service,
    the two stores, and, to speak about them in statements, the list of calls
    made on the bank so far (the source keeps no such list). *)
Record World := mkWorld {
  tokenization : TokenizationService;
  _authorizations : gmap string Authorization;
  _charges : gmap string Charge;
  bank_calls : list BankCall
}.

(** What an operation returns: an [Authorization] or a [Charge]. *)
Inductive GatewayResult :=
| RAuthorization (a : Authorization)
| RCharge (c : Charge).

(** The [__dict__] of a returned object: the attribute dictionary of the
    stored object itself, named here by the object's kind and id. *)
Inductive ObjRef :=
| AuthorizationDict (id : string)
| ChargeDict (id : string).

(** [_serialize_result] on the objects that the gateway passes to it. *)
Definition _serialize_result (r : GatewayResult) : ObjRef :=
  match r with
  | RAuthorization a => AuthorizationDict (id a)
  | RCharge c => ChargeDict (charge_id c)
  end.

Record AuthorizationService := mkAuthorizationService {
  idempotency : Idempotency.IdempotencyService ObjRef;
  world : World
}.

(** What a public method returns: the object, or the cached dictionary that
    [IdempotencyService.execute] returns. *)
Inductive GatewayReturn :=
| Object (r : GatewayResult)
| Cached (d : option ObjRef).

(** The values of a [request_params] dictionary. *)
Inductive JVal :=
| JString (s : string)
| JInt (z : Z)
| JBool (b : bool)
| JNull
| JOther (repr : string).

Definition Params := list (string * JVal).

(** An [amount] argument: an [int], or an object of another type with its
    [str]. *)
Inductive AmountArg :=
| IntAmount (z : Z)
| NotAnInt (repr : string).

Definition amount_json (a : AmountArg) : JVal :=
  match a with
  | IntAmount z => JInt z
  | NotAnInt repr => JOther repr
  end.

(** [_validate_amount]; on success the model hands back the integer that
    the amount is, for the code that follows the check. *)
Definition _validate_amount (a : AmountArg) : Outcome Z :=
  match a with
  | NotAnInt _ => Raised (InvalidAmountError "Amount must be an integer (cents)")
  | IntAmount z =>
    if z <? MIN_AMOUNT_CENTS then
      Raised (InvalidAmountError "Amount must be at least 50 cents")
    else if MAX_AMOUNT_CENTS <? z then
      Raised (InvalidAmountError "Amount cannot exceed 99999999 cents")
    else Returned z
  end.

(** [if idempotency_key:] *)
Definition key_given (k : option string) : option string :=
  match k with
  | Some s => if String.eqb s EmptyString then None else Some s
  | None => None
  end.

(** [optional_string or fallback] *)
Definition or_string (s : option string) (fallback : string) : string :=
  match s with
  | Some v => if String.eqb v EmptyString then fallback else v
  | None => fallback
  end.

Definition set_tokenization (w : World) (ts : TokenizationService) : World :=
  mkWorld ts (_authorizations w) (_charges w) (bank_calls w).

Definition log_bank_call (w : World) (c : BankCall) : World :=
  mkWorld (tokenization w) (_authorizations w) (_charges w)
    (bank_calls w ++ [c])%list.

Definition store_authorization (w : World) (a : Authorization) : World :=
  mkWorld (tokenization w) (<[id a := a]> (_authorizations w)) (_charges w)
    (bank_calls w).

Definition store_charge (w : World) (c : Charge) : World :=
  mkWorld (tokenization w) (_authorizations w)
    (<[charge_id c := c]> (_charges w)) (bank_calls w).

(** What [_do_authorize] reads from its surroundings: the clock for the
    token's expiry, the bank's auth code, the random part of the id, and the
    clock for [created_at] and for [expires_at]. *)
Record DoAuthorizeAmbient := mkDoAuthorizeAmbient {
  token_utcnow : Z;
  auth_code_random : string;
  auth_random : string;
  auth_created_utcnow : Z;
  auth_expires_utcnow : Z
}.

Definition _do_authorize (w : World) (tid : string) (amt : Z) (cur : Currency)
           (mid : string) (md : option Metadata) (env : DoAuthorizeAmbient)
  : Outcome GatewayResult * World :=
  match use_token (tokenization w) tid (token_utcnow env) with
  | (Raised e, ts') => (Raised e, set_tokenization w ts')
  | (Returned (token, card_number), ts') =>
    let w1 := log_bank_call (set_tokenization w ts')
                (CallAuthorize card_number amt cur) in
    let bank_response := bank_authorize card_number amt cur (auth_code_random env) in
    if negb (approved bank_response) then
      (Raised (AuthorizationError
                 (or_string (bank_decline_message bank_response)
                    "Authorization failed")
                 (decline_code_value
                    (default CARD_DECLINED (bank_decline_code bank_response)))),
       w1)
    else
      let auth :=
        mkAuthorization ("auth_" ++ auth_random env) amt cur ACTIVE
          (token_card_last_four token) (token_card_brand token)
          (auth_created_utcnow env)
          (auth_expires_utcnow env + timedelta_days AUTH_HOLD_DAYS)
          None None 0 (bank_auth_code bank_response) mid (default [] md) in
      (Returned (RAuthorization auth), store_authorization w1 auth)
  end.

Section Service.
Variable _hash_params : Params -> string.

(** The outcome and the state of a method that went through
    [self.idempotency.execute]. *)
Definition through_idempotency (svc : AuthorizationService) (k : string)
           (operation : World -> Outcome GatewayResult * World)
           (params : Params) (env : Idempotency.ExecAmbient)
  : Outcome GatewayReturn * AuthorizationService :=
  match Idempotency.execute _hash_params _serialize_result (idempotency svc) k
          operation params env (world svc) with
  | (Returned d, idem', w') => (Returned (Cached d), mkAuthorizationService idem' w')
  | (Raised e, idem', w') => (Raised e, mkAuthorizationService idem' w')
  end.

(** The outcome and the state of a method that ran its operation directly. *)
Definition directly (svc : AuthorizationService)
           (operation : World -> Outcome GatewayResult * World)
  : Outcome GatewayReturn * AuthorizationService :=
  match operation (world svc) with
  | (Returned r, w') =>
    (Returned (Object r), mkAuthorizationService (idempotency svc) w')
  | (Raised e, w') => (Raised e, mkAuthorizationService (idempotency svc) w')
  end.

Record AuthorizeAmbient := mkAuthorizeAmbient {
  authorize_exec_env : Idempotency.ExecAmbient;
  authorize_do_env : DoAuthorizeAmbient
}.

Definition authorize (svc : AuthorizationService) (tid : string)
           (amt : AmountArg) (cur : Currency) (mid : string)
           (md : option Metadata) (idempotency_key : option string)
           (env : AuthorizeAmbient)
  : Outcome GatewayReturn * AuthorizationService :=
  match _validate_amount amt with
  | Raised e => (Raised e, svc)
  | Returned z =>
    match key_given idempotency_key with
    | Some k =>
      through_idempotency svc k
        (fun w => _do_authorize w tid z cur mid md (authorize_do_env env))
        [ ("token_id", JString tid); ("amount", JInt z);
          ("currency", JString (currency_value cur)) ]
        (authorize_exec_env env)
    | None =>
      directly svc
        (fun w => _do_authorize w tid z cur mid md (authorize_do_env env))
    end
  end.

(** What [_do_capture] reads from its surroundings: the clock in
    [can_capture], the clock of the expiry test that picks the error
    message, the clock for [captured_at], the random part of the charge id
    and the clock for the charge's [created_at]. *)
Record DoCaptureAmbient := mkDoCaptureAmbient {
  can_capture_utcnow : Z;
  expired_utcnow : Z;
  captured_utcnow : Z;
  charge_random : string;
  charge_created_utcnow : Z
}.

(** [amount or auth.amount] *)
Definition or_amount (amt : option Z) (fallback : Z) : Z :=
  match amt with
  | Some a => if a =? 0 then fallback else a
  | None => fallback
  end.

(** [auth.status = CAPTURED; auth.captured_amount = amt;
     auth.captured_at = now] *)
Definition mark_captured (a : Authorization) (amt now : Z) : Authorization :=
  mkAuthorization (id a) (amount a) (currency a) CAPTURED (card_last_four a)
    (card_brand a) (created_at a) (expires_at a) (Some now) (voided_at a) amt
    (auth_code a) (merchant_id a) (metadata a).

(** [auth.status = VOIDED; auth.voided_at = now] *)
Definition mark_voided (a : Authorization) (now : Z) : Authorization :=
  mkAuthorization (id a) (amount a) (currency a) VOIDED (card_last_four a)
    (card_brand a) (created_at a) (expires_at a) (captured_at a) (Some now)
    (captured_amount a) (auth_code a) (merchant_id a) (metadata a).

Definition _do_capture (w : World) (aid : string) (amt : option Z)
           (env : DoCaptureAmbient) : Outcome GatewayResult * World :=
  match _authorizations w !! aid with
  | None => (Raised (CaptureError ("Authorization " ++ aid ++ " not found")), w)
  | Some auth =>
    let capture_amount := or_amount amt (amount auth) in
    if negb (can_capture auth capture_amount (can_capture_utcnow env)) then
      if bool_decide (status auth = CAPTURED) then
        (Raised (CaptureError "Authorization has already been captured"), w)
      else if bool_decide (status auth = VOIDED) then
        (Raised (CaptureError "Authorization has been voided"), w)
      else if expires_at auth <? expired_utcnow env then
        (Raised (CaptureError "Authorization has expired"), w)
      else (Raised (CaptureError "Cannot capture this amount"), w)
    else
      let w1 := log_bank_call w (CallCapture (auth_code auth) capture_amount) in
      if negb (bank_capture (auth_code auth) capture_amount) then
        (Raised (CaptureError "Bank declined capture"), w1)
      else
        let auth' := mark_captured auth capture_amount (captured_utcnow env) in
        let charge :=
          mkCharge ("ch_" ++ charge_random env) capture_amount (currency auth)
            SUCCEEDED (card_last_four auth) (card_brand auth)
            (charge_created_utcnow env) (auth_code auth) None None false 0
            (Some (id auth)) (merchant_id auth) None (metadata auth) in
        (Returned (RCharge charge),
         store_charge
           (mkWorld (tokenization w1) (<[aid := auth']> (_authorizations w1))
              (_charges w1) (bank_calls w1))
           charge)
  end.

Record CaptureAmbient := mkCaptureAmbient {
  capture_exec_env : Idempotency.ExecAmbient;
  capture_do_env : DoCaptureAmbient
}.

Definition capture (svc : AuthorizationService) (aid : string)
           (amt : option Z) (idempotency_key : option string)
           (env : CaptureAmbient)
  : Outcome GatewayReturn * AuthorizationService :=
  match key_given idempotency_key with
  | Some k =>
    through_idempotency svc k
      (fun w => _do_capture w aid amt (capture_do_env env))
      [ ("authorization_id", JString aid);
        ("amount", match amt with Some z => JInt z | None => JNull end) ]
      (capture_exec_env env)
  | None => directly svc (fun w => _do_capture w aid amt (capture_do_env env))
  end.

(** [void]; the message is an f-string over [auth.status]. *)
Definition void (svc : AuthorizationService) (aid : string) (now : Z)
  : Outcome Authorization * AuthorizationService :=
  match _authorizations (world svc) !! aid with
  | None => (Raised (PaymentError ("Authorization " ++ aid ++ " not found")), svc)
  | Some auth =>
    if negb (can_void auth) then
      (Raised (PaymentError ("Authorization cannot be voided (status: "
                               ++ authorization_status_format (status auth) ++ ")")),
       svc)
    else
      let auth' := mark_voided auth now in
      (Returned auth',
       mkAuthorizationService (idempotency svc)
         (mkWorld (tokenization (world svc))
            (<[aid := auth']> (_authorizations (world svc)))
            (_charges (world svc)) (bank_calls (world svc))))
  end.

(** What [_do_create_charge] reads from its surroundings. *)
Record DoChargeAmbient := mkDoChargeAmbient {
  charge_token_utcnow : Z;
  charge_auth_code_random : string;
  new_charge_random : string;
  new_charge_utcnow : Z;
  new_auth_random : string;
  new_auth_created_utcnow : Z;
  new_auth_expires_utcnow : Z
}.

Definition _do_create_charge (w : World) (tid : string) (amt : AmountArg)
           (cur : Currency) (capture_now : bool) (mid : string)
           (desc : option string) (md : option Metadata)
           (env : DoChargeAmbient) : Outcome GatewayResult * World :=
  match _validate_amount amt with
  | Raised e => (Raised e, w)
  | Returned z =>
    match use_token (tokenization w) tid (charge_token_utcnow env) with
    | (Raised e, ts') => (Raised e, set_tokenization w ts')
    | (Returned (token, card_number), ts') =>
      let w1 := log_bank_call (set_tokenization w ts')
                  (CallAuthorize card_number z cur) in
      let bank_response :=
        bank_authorize card_number z cur (charge_auth_code_random env) in
      let new_charge st code dcode dmsg aid :=
        mkCharge ("ch_" ++ new_charge_random env) z cur st
          (token_card_last_four token) (token_card_brand token)
          (new_charge_utcnow env) code dcode dmsg false 0 aid mid desc
          (default [] md) in
      if negb (approved bank_response) then
        let charge :=
          new_charge FAILED None (bank_decline_code bank_response)
            (bank_decline_message bank_response) None in
        (Returned (RCharge charge), store_charge w1 charge)
      else if negb capture_now then
        let auth :=
          mkAuthorization ("auth_" ++ new_auth_random env) z cur ACTIVE
            (token_card_last_four token) (token_card_brand token)
            (new_auth_created_utcnow env)
            (new_auth_expires_utcnow env + timedelta_days 7)
            None None 0 (bank_auth_code bank_response) mid (default [] md) in
        let charge :=
          new_charge AUTHORIZED (bank_auth_code bank_response) None None
            (Some (id auth)) in
        (Returned (RCharge charge),
         store_charge (store_authorization w1 auth) charge)
      else
        let w2 := log_bank_call w1 (CallCapture (bank_auth_code bank_response) z) in
        if negb (bank_capture (bank_auth_code bank_response) z) then
          (Raised (CaptureError "Bank declined capture"), w2)
        else
          let charge :=
            new_charge SUCCEEDED (bank_auth_code bank_response) None None None in
          (Returned (RCharge charge), store_charge w2 charge)
    end
  end.

Record ChargeAmbient := mkChargeAmbient {
  charge_exec_env : Idempotency.ExecAmbient;
  charge_do_env : DoChargeAmbient
}.

Definition create_charge (svc : AuthorizationService) (tid : string)
           (amt : AmountArg) (cur : Currency) (capture_now : bool)
           (mid : string) (desc : option string) (md : option Metadata)
           (idempotency_key : option string) (env : ChargeAmbient)
  : Outcome GatewayReturn * AuthorizationService :=
  match key_given idempotency_key with
  | Some k =>
    through_idempotency svc k
      (fun w => _do_create_charge w tid amt cur capture_now mid desc md
                  (charge_do_env env))
      [ ("token_id", JString tid); ("amount", amount_json amt);
        ("currency", JString (currency_value cur)); ("capture", JBool capture_now) ]
      (charge_exec_env env)
  | None =>
    directly svc
      (fun w => _do_create_charge w tid amt cur capture_now mid desc md
                  (charge_do_env env))
  end.

(** ** Sequences of calls on the service *)
Inductive Op :=
| OpAuthorize (tid : string) (amt : AmountArg) (cur : Currency) (mid : string)
              (md : option Metadata) (idempotency_key : option string)
              (env : AuthorizeAmbient)
| OpCapture (aid : string) (amt : option Z) (idempotency_key : option string)
            (env : CaptureAmbient)
| OpVoid (aid : string) (now : Z)
| OpCreateCharge (tid : string) (amt : AmountArg) (cur : Currency)
                 (capture_now : bool) (mid : string) (desc : option string)
                 (md : option Metadata) (idempotency_key : option string)
                 (env : ChargeAmbient).

Definition step (svc : AuthorizationService) (op : Op) : AuthorizationService :=
  match op with
  | OpAuthorize tid amt cur mid md k env =>
    snd (authorize svc tid amt cur mid md k env)
  | OpCapture aid amt k env => snd (capture svc aid amt k env)
  | OpVoid aid now => snd (void svc aid now)
  | OpCreateCharge tid amt cur capture_now mid desc md k env =>
    snd (create_charge svc tid amt cur capture_now mid desc md k env)
  end.

End Service.

(** The id of the authorization that the call stores when it stores one. *)
Definition new_authorization_id (op : Op) : option string :=
  match op with
  | OpAuthorize _ _ _ _ _ _ env =>
    Some ("auth_" ++ auth_random (authorize_do_env env))
  | OpCreateCharge _ _ _ _ _ _ _ _ env =>
    Some ("auth_" ++ new_auth_random (charge_do_env env))
  | _ => None
  end.

(** The call is a capture of [aid] that passes the checks of [can_capture]
    on [a]: the amount is at most what remains and the clock is not past
    [expires_at]. *)
Definition captures (op : Op) (aid : string) (a : Authorization) : Prop :=
  exists amt k env,
    op = OpCapture aid amt k env
    /\ (or_amount amt (amount a) = 0
        \/ or_amount amt (amount a) <= amount a - captured_amount a)
    /\ can_capture_utcnow (capture_do_env env) <= expires_at a.

Definition voids (op : Op) (aid : string) : Prop :=
  exists now, op = OpVoid aid now.

(** How a call can change the authorization stored under [aid]: not at
    all, by capturing it, or by voiding it. *)
Definition auths_step (before after : gmap string Authorization)
           (op : Op) : Prop :=
  forall aid a,
    before !! aid = Some a ->
    new_authorization_id op <> Some aid ->
    exists a',
      after !! aid = Some a'
      /\ (status a' = status a
          \/ (status a = ACTIVE /\ status a' = CAPTURED /\ captures op aid a)
          \/ (status a = ACTIVE /\ status a' = VOIDED /\ voids op aid)).

(** Calls on the service one after the other. *)
Definition run (_hash_params : Params -> string) (svc : AuthorizationService)
           (ops : list Op) : AuthorizationService :=
  fold_left (step _hash_params) ops svc.

(** Every stored authorization is for an amount that [_validate_amount]
    accepts. *)
Definition amounts_valid (auths : gmap string Authorization) : Prop :=
  map_Forall (fun _ a => MIN_AMOUNT_CENTS <= amount a <= MAX_AMOUNT_CENTS) auths.

(** A stand-in for [_hash_params] (the first 16 hex digits of the SHA-256
    of the sorted JSON text) in concrete runs: the text itself. *)
Definition show_jval (v : JVal) : string :=
  match v with
  | JString s => s
  | JInt z => pretty z
  | JBool true => "true"
  | JBool false => "false"
  | JNull => "null"
  | JOther repr => repr
  end.

Definition demo_hash (params : Params) : string :=
  String.concat ";" (map (fun p => fst p ++ "=" ++ show_jval (snd p)) params).

(** A service that holds one active authorization of 5,000 cents, expiring
    at noon on 8 June 2025, and one unused token for the demo Visa card. *)
Definition active_auth : Authorization :=
  mkAuthorization "auth_1" 5000 USD ACTIVE "4242" VISA (at_hour 2025 6 1 12)
    (at_hour 2025 6 8 12) None None 0 (Some "A1B2C3") "merch_123" [].

Definition demo_token : Token :=
  mkToken "tok_1" "4242" VISA 12 2025 (at_hour 2025 6 1 12) None false
    (Some "vault_1").

Definition demo_service : AuthorizationService :=
  mkAuthorizationService (Idempotency.mkService ∅ ∅)
    (mkWorld (mkTokenization {["tok_1" := demo_token]}
                {["vault_1" := "4242424242424242"]})
       {["auth_1" := active_auth]} ∅ []).

(** A service as [AuthorizationService(...)] builds it, with no
    authorization and no charge, over a tokenization service that holds one
    unused token for the demo Visa card. *)
Definition new_service : AuthorizationService :=
  mkAuthorizationService (Idempotency.mkService ∅ ∅)
    (mkWorld (mkTokenization {["tok_1" := demo_token]}
                {["vault_1" := "4242424242424242"]})
       ∅ ∅ []).

Definition exec_env_at (now : Z) : Idempotency.ExecAmbient :=
  Idempotency.mkExecAmbient now now now now.

(** Clock readings of a capture on 2 June 2025 and of one on 9 June 2025,
    after the authorization expired. *)
Definition timely_capture_env : CaptureAmbient :=
  mkCaptureAmbient (exec_env_at (at_hour 2025 6 2 12))
    (mkDoCaptureAmbient (at_hour 2025 6 2 12) (at_hour 2025 6 2 12)
       (at_hour 2025 6 2 12) "c1" (at_hour 2025 6 2 12)).

Definition late_capture_env : CaptureAmbient :=
  mkCaptureAmbient (exec_env_at (at_hour 2025 6 9 12))
    (mkDoCaptureAmbient (at_hour 2025 6 9 12) (at_hour 2025 6 9 12)
       (at_hour 2025 6 9 12) "c1" (at_hour 2025 6 9 12)).

Definition demo_charge_env : ChargeAmbient :=
  mkChargeAmbient (exec_env_at (at_hour 2025 6 2 12))
    (mkDoChargeAmbient (at_hour 2025 6 2 12) "A1B2C3" "c1" (at_hour 2025 6 2 12)
       "r1" (at_hour 2025 6 2 12) (at_hour 2025 6 2 12)).

Definition demo_authorize_env : AuthorizeAmbient :=
  mkAuthorizeAmbient (exec_env_at (at_hour 2025 6 2 12))
    (mkDoAuthorizeAmbient (at_hour 2025 6 2 12) "A1B2C3" "r1"
       (at_hour 2025 6 2 12) (at_hour 2025 6 2 12)).

(** The [request_params] that [create_charge] passes to [execute]. *)
Definition create_charge_params (tid : string) (amt : AmountArg) (cur : Currency)
           (capture_now : bool) : Params :=
  [ ("token_id", JString tid); ("amount", amount_json amt);
    ("currency", JString (currency_value cur)); ("capture", JBool capture_now) ].

End Gateway.

(* ===================================================================== *)
(** * Proof steps shared by the case analyses below *)
(* ===================================================================== *)

(** The branch at hand leaves the state as it was. *)
Ltac unchanged := left; reflexivity.

(** The branch at hand stores one new entry. *)
Ltac stored := right; eexists; reflexivity.

(* ===================================================================== *)
(** * Issuing bank: vocabulary for further statements *)
(* ===================================================================== *)

Module IssuerMore.
Import Issuer IssuerOps.

(** The timestamps of a card that fall in the hour before [now]. *)
Definition recent_authorizations (b : IssuingBank) (card : string) (now : Z)
  : list Z :=
  filter (fun t => now - timedelta_hours 1 < t)
    (default [] (_transaction_history b !! card)).

(** The card is blocked, reported lost or stolen, or suspected of fraud. *)
Definition barred (a : CardAccount) : Prop :=
  status a = BLOCKED \/ status a = LOST_STOLEN \/ status a = FRAUD_SUSPECT.

End IssuerMore.

(* ===================================================================== *)
(** * Card network: vocabulary for further statements *)
(* ===================================================================== *)

Module NetworkMore.
Import Network.

(** The transaction id that [route_authorization] generates. *)
Definition routed_id (env : RouteAmbient) : string := "nt_" ++ token_hex12 env.

(** The request that [route_authorization] hands to the issuer. *)
Definition routed_request (args : RouteArgs) (env : RouteAmbient)
  : Issuer.AuthorizationRequest :=
  Issuer.mkRequest (routed_id env) (arg_card_number args)
    (arg_exp_month args) (arg_exp_year args) (arg_cvv args)
    (arg_amount args) (arg_currency args) (arg_merchant_id args)
    (arg_merchant_name args) (arg_merchant_category args).

(** The network after [route_authorization]. *)
Definition routed (net : CardNetwork) (args : RouteArgs) (env : RouteAmbient)
  : CardNetwork :=
  snd (route_authorization net args env).

(** The default issuer holds nothing under [tid]. *)
Definition unheld (net : CardNetwork) (tid : string) : Prop :=
  forall issuer, _issuers net !! "default" = Some issuer ->
                 IssuerOps.no_holder (Issuer._accounts issuer) tid.

(** Every issuer of the network has non-negative available funds and
    non-negative holds on every account. *)
Definition network_ok (net : CardNetwork) : Prop :=
  map_Forall (fun _ issuer => IssuerOps.bank_ok issuer) (_issuers net).

(** Every issuer of the network has non-negative available funds on every
    account. *)
Definition network_funds_nonneg (net : CardNetwork) : Prop :=
  map_Forall (fun _ issuer => IssuerOps.funds_nonneg issuer) (_issuers net).

(** The operation authorizes no negative amount. *)
Definition route_nonneg (op : Op) : Prop :=
  match op with
  | OpRoute args _ => 0 <= arg_amount args
  | _ => True
  end.

End NetworkMore.

(* ===================================================================== *)
(** * Acquiring bank: the remaining methods *)
(* ===================================================================== *)

Module AcquirerMore.
Import Acquirer.

(** [create_merchant]; [token] is what [secrets.token_hex(8)] returns. *)
Definition create_merchant (acq : AcquiringBank) (business_name mcc token : string)
  : MerchantAccount * AcquiringBank :=
  let merchant :=
    mkMerchant ("merch_" ++ token) business_name ACTIVE 290 30 2 0 10000000 0 mcc in
  (merchant,
   mkAcquiringBank (bank_name acq)
     (<[merchant_id merchant := merchant]> (_merchants acq))
     (_networks acq) (_transactions acq) (_batches acq)).

(** The dictionary that [get_merchant_balance] returns. *)
Record MerchantBalance := mkMerchantBalance {
  balance_merchant_id : string;
  balance_business_name : string;
  pending_transactions : Z;
  pending_amount : Z;
  balance_current_month_volume : Z
}.

(** The loop of [get_merchant_balance] over the transactions, with its two
    accumulators. *)
Fixpoint balance_scan (mid : string) (txns : list (string * AcquirerTransaction))
         (pending_count pending_amount : Z) : Z * Z :=
  match txns with
  | [] => (pending_count, pending_amount)
  | (_, txn) :: rest =>
    if String.eqb (txn_merchant_id txn) mid
       && (bool_decide (settlement_status txn = PENDING)
           || bool_decide (settlement_status txn = BATCHED))
    then balance_scan mid rest (pending_count + 1) (pending_amount + net_amount txn)
    else balance_scan mid rest pending_count pending_amount
  end.

Definition get_merchant_balance (acq : AcquiringBank) (mid : string)
  : option MerchantBalance :=
  match _merchants acq !! mid with
  | None => None
  | Some merchant =>
    let '(pending_count, pending_amount) :=
      balance_scan mid (_transactions acq) 0 0 in
    Some (mkMerchantBalance mid (business_name merchant) pending_count
            pending_amount (current_month_volume merchant))
  end.

(** The arguments that [process_authorization] passes to the network. *)
Definition route_args (acq : AcquiringBank) (merchant : MerchantAccount)
           (mid card_number : string) (exp_month exp_year : Z) (cvv : string)
           (amt : Z) (cur : string) : Network.RouteArgs :=
  Network.mkRouteArgs (bank_name acq) card_number exp_month exp_year cvv
    amt cur mid (business_name merchant) (mcc merchant).

(** The transaction that [process_authorization] records on an approval. *)
Definition recorded (merchant : MerchantAccount) (mid ntid : string) (amt : Z)
           (cur : string) (discount_fee : Z) (env : AuthAmbient)
  : AcquirerTransaction :=
  mkTransaction ("txn_" ++ txn_token_hex12 env) mid ntid amt cur
    (discount_fee + fixed_fee_cents merchant)
    (amt - (discount_fee + fixed_fee_cents merchant))
    PENDING None (txn_utcnow env).

Definition is_approved (r : Outcome AuthResult) : bool :=
  match r with
  | Returned (AuthApproved _ _ _ _ _ _ _ _ _) => true
  | _ => false
  end.

(** Every network is stored under its own type. *)
Definition networks_keyed (acq : AcquiringBank) : Prop :=
  forall key net, networks_get key (_networks acq) = Some net ->
                  Network.network_type net = key.

(** A merchant is stored under its own id and its monthly volume is within
    its limit. *)
Definition merchant_ok (k : string) (m : MerchantAccount) : Prop :=
  merchant_id m = k /\ current_month_volume m <= monthly_volume_limit m.

Definition merchants_ok (acq : AcquiringBank) : Prop :=
  map_Forall merchant_ok (_merchants acq).

(** One call of a method of the acquiring bank, for sequences of them. *)
Inductive Op :=
| OpCreateMerchant (business_name mcc token : string)
| OpAuthorize (mid card : string) (exp_month exp_year : Z) (cvv : string)
              (amt : Z) (cur : string) (env : AuthAmbient)
| OpCapture (tid : string) (amt : option Z)
| OpBatch (env : BatchAmbient).

Definition step (acq : AcquiringBank) (op : Op) : AcquiringBank :=
  match op with
  | OpCreateMerchant name mcc token => snd (create_merchant acq name mcc token)
  | OpAuthorize mid card em ey cvv amt cur env =>
    snd (process_authorization acq mid card em ey cvv amt cur env)
  | OpCapture tid amt => snd (capture acq tid amt)
  | OpBatch env => snd (create_settlement_batch acq env)
  end.

Definition run (acq : AcquiringBank) (ops : list Op) : AcquiringBank :=
  fold_left step ops acq.

Definition demo_batch_env (token : string) : BatchAmbient :=
  mkBatchAmbient token (fun _ => at_hour 2025 6 2 9) (at_hour 2025 6 2 9).

(** Every account of every issuer of every network of the bank has
    non-negative available funds and non-negative holds. *)
Definition networks_ok (acq : AcquiringBank) : Prop :=
  Forall (fun p => NetworkMore.network_ok (snd p)) (_networks acq).

(** The operation authorizes no negative amount. *)
Definition authorizes_nonneg (op : Op) : Prop :=
  match op with
  | OpAuthorize _ _ _ _ _ amt _ _ => 0 <= amt
  | _ => True
  end.

End AcquirerMore.

(* ===================================================================== *)
(** * shared/idempotency.py: the store and the key builder *)
(* ===================================================================== *)

Module IdempotencyMore.
Import Idempotency.

Section Store.
Context {Dict : Type}.

(** The record under [k] has expired when the clock reads [clock k]. *)
Definition expired_at (clock : string -> Z)
           (kv : string * IdempotencyRecord Dict) : Prop :=
  is_expired (snd kv) (clock (fst kv)) = true.

#[global] Instance expired_at_dec clock kv : Decision (expired_at clock kv).
Proof. unfold expired_at. apply _. Defined.

(** [cleanup_expired]: the keys of the expired records are collected, then
    deleted one by one, and their number is returned. Every record reads the
    clock for itself; [clock k] is the reading taken for the record under
    [k]. The keys are listed in the order of the map, not in insertion
    order; the deletions and the count do not depend on the order. *)
Definition expired_keys (st : gmap string (IdempotencyRecord Dict))
           (clock : string -> Z) : list string :=
  fst <$> map_to_list (filter (expired_at clock) st).

Definition cleanup_expired (st : gmap string (IdempotencyRecord Dict))
           (clock : string -> Z)
  : nat * gmap string (IdempotencyRecord Dict) :=
  let keys := expired_keys st clock in
  (length keys, foldr delete st keys).

End Store.

(** [IdempotencyKeyBuilder]; [pretty] is the decimal form that an f-string
    gives an [int]. *)
Definition for_charge (order_id : string) (attempt : Z) : string :=
  "charge:" ++ order_id ++ ":v" ++ pretty attempt.

Definition for_refund (charge_id : string) (amount_cents : Z) : string :=
  "refund:" ++ charge_id ++ ":" ++ pretty amount_cents.

Definition for_capture (authorization_id : string) : string :=
  "capture:" ++ authorization_id.

End IdempotencyMore.

(* ===================================================================== *)
(** * Gateway: tokens, charges and brands *)
(* ===================================================================== *)

Module GatewayMore.
Import Gateway.

(** [TokenizationService.get_token], with the reading of [utcnow()]. *)
Definition get_token (ts : TokenizationService) (tid : string) (now : Z)
  : Outcome Token :=
  match _tokens ts !! tid with
  | None => Raised (TokenNotFoundError ("Token " ++ tid ++ " not found"))
  | Some token =>
    if token_is_expired token now then
      Raised (TokenExpiredError ("Token " ++ tid ++ " has expired"))
    else Returned token
  end.

(** [Token.is_valid] *)
Definition is_valid (t : Token) (now : Z) : bool :=
  negb (used t) && negb (token_is_expired t now).

(** Calls of [use_token] one after the other, each with its token id and
    its clock reading. *)
Definition use_all (ts : TokenizationService) (calls : list (string * Z))
  : TokenizationService :=
  fold_left (fun ts c => snd (use_token ts (fst c) (snd c))) calls ts.

(** The token under [tid] exists and is marked used. *)
Definition spent (ts : TokenizationService) (tid : string) : Prop :=
  exists t, _tokens ts !! tid = Some t /\ used t = true.

#[global] Instance PaymentStatus_eq_dec : EqDecision PaymentStatus.
Proof. solve_decision. Defined.

(** [Charge.can_refund(amount)] *)
Definition can_refund (c : Charge) (amt : option Z) : bool :=
  if negb (bool_decide (charge_status c = SUCCEEDED)) then false
  else
    let remaining := charge_amount c - refunded_amount c in
    let refund_amount :=
      match amt with
      | Some a => if a =? 0 then remaining else a
      | None => remaining
      end in
    refund_amount <=? remaining.

(** [s.replace(c, "")] for a one-character [c]. *)
Fixpoint remove_char (c : ascii) (s : string) : string :=
  match s with
  | EmptyString => EmptyString
  | String a rest =>
    if Ascii.eqb a c then remove_char c rest else String a (remove_char c rest)
  end.

(** [card_number.replace(" ", "").replace("-", "")] *)
Definition remove_separators (card_number : string) : string :=
  remove_char "-" (remove_char " " card_number).

(** [BIN_RANGES] of [shared/constants.py]: for each brand, in the order of
    the dictionary, its groups of prefixes. *)
Definition BIN_RANGES : list (CardBrand * list (list string)) :=
  [ (VISA, [["4"]]);
    (MASTERCARD, [["51"; "52"; "53"; "54"; "55"]; ["2221"; "2720"]]);
    (AMEX, [["34"; "37"]]);
    (DISCOVER, [["6011"]; ["644"; "649"]; ["65"]]) ].

(** [detect_card_brand]: the first brand one of whose groups has a prefix
    that the number starts with. *)
Definition detect_card_brand (card_number : string) : CardBrand :=
  let number := remove_separators card_number in
  match
    find (fun entry =>
            existsb (fun prefix_group =>
                       existsb (fun p => String.prefix p number) prefix_group)
              (snd entry))
      BIN_RANGES
  with
  | Some (brand, _) => brand
  | None => UNKNOWN
  end.

(** ** [validate_luhn]

    Strings are byte sequences here. On an ASCII string [isdigit] and [int]
    are what follows; on other strings they go by the Unicode tables, which
    are not modelled: there [validate_luhn] gives [None]. *)
Definition is_ascii (c : ascii) : bool := (N_of_ascii c <? 128)%N.

Definition is_ascii_digit (c : ascii) : bool :=
  (48 <=? N_of_ascii c)%N && (N_of_ascii c <=? 57)%N.

(** [int(d)] for an ASCII digit. *)
Definition digit_value (c : ascii) : Z := Z.of_N (N_of_ascii c) - 48.

(** [digits[i] *= 2; if digits[i] > 9: digits[i] -= 9] *)
Definition double_digit (d : Z) : Z :=
  let d2 := d * 2 in
  if 9 <? d2 then d2 - 9 else d2.

(** [range(i, -1, -2)] for [i >= 0]; [fuel] bounds its length. *)
Fixpoint down_by_two (fuel i : nat) : list nat :=
  match fuel with
  | O => []
  | S fuel' =>
    i :: match i with
         | S (S j) => down_by_two fuel' j
         | _ => []
         end
  end.

(** [range(len(digits) - 2, -1, -2)] *)
Definition luhn_indices (len : nat) : list nat :=
  if (len <? 2)%nat then [] else down_by_two len (len - 2).

(** The loop that doubles every second digit from the right. *)
Definition luhn_doubled (digits : list Z) : list Z :=
  fold_left (fun ds i => alter double_digit i ds)
    (luhn_indices (length digits)) digits.

Definition validate_luhn (card_number : string) : option bool :=
  let number := String.list_ascii_of_string (remove_separators card_number) in
  if negb (forallb is_ascii number) then None
  else if negb (negb (bool_decide (number = [])) && forallb is_ascii_digit number)
  then Some false
  else
    let digits := digit_value <$> number in
    Some (foldr Z.add 0 (luhn_doubled digits) `mod` 10 =? 0).

(** The loop started at index [i] doubles the digit at index [k]. *)
Definition doubled_at (i k : nat) : bool := (k <=? i)%nat && Nat.even (i - k).

(** A digit as it counts in the sum. *)
Definition weigh (b : bool) (d : Z) : Z := if b then double_digit d else d.

(** Whether [luhn_doubled] doubles the digit at index [k] of [len] digits. *)
Definition doubles (len k : nat) : bool :=
  negb (len <? 2)%nat && doubled_at (len - 2) k.

(** Every character of [s] is an ASCII digit. *)
Definition all_digits (s : string) : Prop :=
  forallb is_ascii_digit (String.list_ascii_of_string s) = true.

(** A tokenization service with one fresh token for the demo Visa card. *)
Definition one_token : TokenizationService :=
  mkTokenization
    {["tok_1" := mkToken "tok_1" "4242" VISA 12 2030 (at_hour 2025 6 1 12)
                   (Some (at_hour 2025 6 1 13)) false (Some "vault_1")]}
    {["vault_1" := "4242424242424242"]}.

End GatewayMore.

(* ===================================================================== *)
(** * Facts about the issuing bank *)
(* ===================================================================== *)

Module IssuerFacts.
Import Issuer IssuerOps.

(** ** The scenarios of the specification *)

Example approved_then_captured :
  let b0 := init "Demo Bank" in
  let r1 := authorize b0 (demo_request "auth_001" "4242424242424242" 50000) demo_env in
  let r2 := capture (snd r1) "auth_001" 50000 in
  fst r1 = Returned (mkResponse "auth_001" true (Some "A1B2C3") None "Y" "M")
  /\ (available <$> dict_get "4242424242424242" (_accounts (snd r1))) = Some 950000
  /\ fst r2 = true
  /\ (current_balance <$> dict_get "4242424242424242" (_accounts (snd r2)))
     = Some 50000
  /\ (holds <$> dict_get "4242424242424242" (_accounts (snd r2))) = Some ∅
  /\ (available <$> dict_get "4242424242424242" (_accounts (snd r2))) = Some 950000.
Proof. repeat split; vm_compute; reflexivity. Qed.

Example insufficient_credit_declined :
  fst (authorize (init "Demo Bank")
         (demo_request "auth_002" "4000000000009995" 5000) demo_env)
  = Returned (declined (demo_request "auth_002" "4000000000009995" 5000)
                "insufficient_funds" "M").
Proof. vm_compute. reflexivity. Qed.

Example insufficient_debit_declined :
  fst (authorize (init "Demo Bank")
         (demo_request "auth_003" "4000056655665556" 60000) demo_env)
  = Returned (declined (demo_request "auth_003" "4000056655665556" 60000)
                "insufficient_funds" "M").
Proof. vm_compute. reflexivity. Qed.

Example partial_capture_releases_hold :
  let b1 := snd (authorize (init "Demo Bank")
                   (demo_request "auth_001" "4242424242424242" 50000) demo_env) in
  let r := capture b1 "auth_001" 30000 in
  fst r = true
  /\ (holds <$> dict_get "4242424242424242" (_accounts (snd r))) = Some ∅
  /\ (current_balance <$> dict_get "4242424242424242" (_accounts (snd r)))
     = Some 30000
  /\ (available <$> dict_get "4242424242424242" (_accounts (snd r))) = Some 970000.
Proof. repeat split; vm_compute; reflexivity. Qed.

(** ** Holds and available funds *)

Lemma holds_total_insert_fresh (h : gmap string Z) k v :
  h !! k = None -> holds_total (<[k := v]> h) = v + holds_total h.
Proof.
  intros Hk. unfold holds_total.
  rewrite map_fold_insert_L; [reflexivity | intros; lia | exact Hk].
Qed.

Lemma holds_total_delete (h : gmap string Z) k v :
  h !! k = Some v -> holds_total h = v + holds_total (delete k h).
Proof.
  intros Hk. unfold holds_total.
  rewrite (map_fold_delete_L _ _ k v h); [reflexivity | intros; lia | exact Hk].
Qed.

Lemma holds_total_insert (h : gmap string Z) k v :
  holds_total (<[k := v]> h) = v + holds_total h - default 0 (h !! k).
Proof.
  destruct (h !! k) as [old|] eqn:Hk; simpl.
  - rewrite <- insert_delete_eq.
    rewrite holds_total_insert_fresh by apply lookup_delete_eq.
    rewrite (holds_total_delete h k old Hk). lia.
  - rewrite holds_total_insert_fresh by exact Hk. lia.
Qed.

Lemma available_set_holds a h :
  available (set_holds a h)
  = available a + holds_total (holds a) - holds_total h.
Proof.
  unfold available, available_credit, available_balance; simpl.
  destruct (decide (account_type a = CREDIT)); lia.
Qed.

Lemma available_apply_charge a amt :
  available (apply_charge a amt) = available a - amt.
Proof.
  unfold apply_charge, available, available_credit, available_balance.
  destruct (decide (account_type a = CREDIT)) as [Hc|Hc]; simpl;
    destruct (decide (account_type a = CREDIT)); try contradiction; lia.
Qed.

Lemma holds_apply_charge a amt : holds (apply_charge a amt) = holds a.
Proof. unfold apply_charge. destruct (decide _); reflexivity. Qed.

Lemma dict_get_Forall {V} (P : string * V -> Prop) k d v :
  Forall P d -> dict_get k d = Some v -> exists k', P (k', v).
Proof.
  induction 1 as [|[k' v'] rest Hp _ IH]; simpl; [discriminate|].
  destruct (String.eqb k k'); [|exact IH].
  intros [= ->]. eauto.
Qed.

Lemma dict_set_Forall {V} (P : V -> Prop) k v (d : list (string * V)) :
  Forall (fun p => P (snd p)) d -> P v ->
  Forall (fun p => P (snd p)) (dict_set k v d).
Proof.
  intros Hd Hv. induction Hd as [|[k' v'] rest Hp Hrest IH]; simpl.
  - constructor; [exact Hv | constructor].
  - destruct (String.eqb k k'); constructor; auto.
Qed.

(** Placing a hold of a non-negative amount that fits in the available
    funds keeps the account in order, also when it replaces a hold. *)
Lemma account_ok_hold a rid amt :
  account_ok a -> 0 <= amt -> amt <= available a ->
  account_ok (set_holds a (<[rid := amt]> (holds a))).
Proof.
  intros [Hav Hh] Hamt Hfit. split.
  - rewrite available_set_holds, holds_total_insert.
    destruct (holds a !! rid) as [old|] eqn:Hold; simpl; [|lia].
    specialize (Hh rid old Hold). simpl in Hh. lia.
  - unfold holds_nonneg. simpl. apply map_Forall_insert_2; assumption.
Qed.

Lemma account_ok_capture a hid held amt :
  account_ok a -> holds a !! hid = Some held -> amt <= held ->
  account_ok (apply_charge (set_holds a (delete hid (holds a))) amt).
Proof.
  intros [Hav Hh] Hheld Hle. split.
  - rewrite available_apply_charge, available_set_holds.
    rewrite (holds_total_delete _ _ _ Hheld). lia.
  - unfold holds_nonneg. rewrite holds_apply_charge. simpl.
    apply map_Forall_delete. exact Hh.
Qed.

Lemma account_ok_void a hid held :
  account_ok a -> holds a !! hid = Some held ->
  account_ok (set_holds a (delete hid (holds a))).
Proof.
  intros [Hav Hh] Hheld. split.
  - rewrite available_set_holds, (holds_total_delete _ _ _ Hheld).
    specialize (Hh hid held Hheld). simpl in Hh. lia.
  - unfold holds_nonneg. simpl. apply map_Forall_delete. exact Hh.
Qed.

Lemma authorize_accounts_cases b request env :
  _accounts (snd (authorize b request env)) = _accounts b
  \/ exists account,
      dict_get (req_card_number request) (_accounts b) = Some account
      /\ amount request <= available account
      /\ _accounts (snd (authorize b request env))
         = dict_set (req_card_number request)
             (set_holds account
                (<[request_id request := amount request]> (holds account)))
             (_accounts b).
Proof.
  unfold authorize.
  destruct (dict_get _ _) as [account|] eqn:Hget; [|unchanged].
  repeat (case_decide; [unchanged|]).
  destruct (datetime _ _ _) as [exp_date|]; [|unchanged].
  destruct (datetime_add _ _) as [grace_end|]; [|unchanged].
  destruct (grace_end <? now_expiry env); [unchanged|].
  destruct (String.eqb (if String.eqb _ _ then _ else _) "N"); [unchanged|].
  destruct (single_transaction_limit account <? amount request); [unchanged|].
  destruct (available account <? amount request) eqn:Hfit; [unchanged|].
  destruct (negb _); [unchanged|].
  right. exists account. apply Z.ltb_ge in Hfit. auto.
Qed.

Lemma authorize_bank_ok b request env :
  bank_ok b -> 0 <= amount request -> bank_ok (snd (authorize b request env)).
Proof.
  intros Hb Hamt. unfold bank_ok.
  destruct (authorize_accounts_cases b request env)
    as [-> | (account & Hget & Hfit & ->)]; [exact Hb|].
  apply (dict_set_Forall account_ok); [exact Hb|].
  destruct (dict_get_Forall _ _ _ _ Hb Hget) as [k' Hok].
  apply account_ok_hold; assumption.
Qed.

Lemma capture_scan_ok auth_id amt accts :
  Forall (fun p => account_ok (snd p)) accts ->
  Forall (fun p => account_ok (snd p)) (snd (capture_scan auth_id amt accts)).
Proof.
  induction 1 as [|[k a] rest Ha Hrest IH]; simpl; [constructor|].
  destruct (holds a !! auth_id) as [held|] eqn:Hheld.
  - destruct (held <? amt) eqn:Hlt; simpl.
    + constructor; assumption.
    + apply Z.ltb_ge in Hlt. constructor; [|assumption].
      simpl. eapply account_ok_capture; eassumption.
  - destruct (capture_scan auth_id amt rest) as [r rest']. simpl in *.
    constructor; assumption.
Qed.

Lemma void_scan_ok auth_id accts :
  Forall (fun p => account_ok (snd p)) accts ->
  Forall (fun p => account_ok (snd p)) (snd (void_scan auth_id accts)).
Proof.
  induction 1 as [|[k a] rest Ha Hrest IH]; simpl; [constructor|].
  destruct (holds a !! auth_id) as [held|] eqn:Hheld; simpl.
  - constructor; [|assumption]. simpl. eapply account_ok_void; eassumption.
  - destruct (void_scan auth_id rest) as [r rest']. simpl in *.
    constructor; assumption.
Qed.

Lemma step_bank_ok b op :
  bank_ok b -> amount_nonneg op -> bank_ok (step b op).
Proof.
  intros Hb Hop. destruct op as [request env|auth_id amt|auth_id]; simpl.
  - apply authorize_bank_ok; assumption.
  - unfold capture, bank_ok.
    pose proof (capture_scan_ok auth_id amt _ Hb) as H.
    destruct (capture_scan auth_id amt (_accounts b)); exact H.
  - unfold void, bank_ok.
    pose proof (void_scan_ok auth_id _ Hb) as H.
    destruct (void_scan auth_id (_accounts b)); exact H.
Qed.

Lemma bank_ok_funds b : bank_ok b -> funds_nonneg b.
Proof.
  unfold bank_ok, funds_nonneg. intros H.
  eapply Forall_impl; [exact H | intros p [Hp _]; exact Hp].
Qed.

Lemma trace_bank_ok ops : forall b,
  bank_ok b -> Forall amount_nonneg ops -> Forall bank_ok (trace b ops).
Proof.
  induction ops as [|op rest IH]; intros b Hb Hops; simpl; [constructor|].
  inversion Hops as [|? ? Hop Hrest]; subst.
  pose proof (step_bank_ok b op Hb Hop) as Hstep.
  constructor; [exact Hstep | apply IH; assumption].
Qed.

(** C1 (amended). Starting from a bank in which every account has
    non-negative available funds and only non-negative holds, after every
    operation of any sequence of authorize, capture and void calls whose
    authorization amounts are non-negative, every account's available funds
    ([credit_limit - current_balance - sum of holds] for a credit account,
    [account_balance - sum of holds] otherwise) are still non-negative. *)
Theorem funds_never_negative (b : IssuingBank) (ops : list Op) :
  bank_ok b -> Forall amount_nonneg ops -> Forall funds_nonneg (trace b ops).
Proof.
  intros Hb Hops.
  eapply Forall_impl; [apply trace_bank_ok; eassumption|].
  intros b' Hb'. apply bank_ok_funds. exact Hb'.
Qed.

Lemma funds_never_negative_witness :
  bank_ok (init "Demo Bank")
  /\ Forall amount_nonneg demo_ops
  /\ Forall funds_nonneg (trace (init "Demo Bank") demo_ops).
Proof.
  assert (Hb : bank_ok (init "Demo Bank")).
  { unfold bank_ok, init, test_accounts; simpl.
    repeat (apply Forall_cons; split;
            [split; [vm_compute; discriminate | apply map_Forall_empty]|]).
    apply Forall_nil_2. }
  assert (Hops : Forall amount_nonneg demo_ops).
  { unfold demo_ops. repeat (apply Forall_cons; split; [simpl; try lia; exact I|]).
    apply Forall_nil_2. }
  split; [exact Hb|]. split; [exact Hops|].
  apply (funds_never_negative (init "Demo Bank") demo_ops Hb Hops).
Defined.

(** C1 as stated fails: on a card with 100 cents available, an authorization
    of -50 is approved and raises the available funds to 150, an
    authorization of 150 is then approved, and voiding the first hold
    leaves the card with -50 available. *)
Lemma funds_invariant_counterexample :
  0 <= available insufficient_account
  /\ (trace (single_card_bank insufficient_account) negative_hold_ops !! 2%nat
        ≫= fun b => available <$> dict_get "4000000000009995" (_accounts b))
     = Some (-50)
  /\ ~ Forall funds_nonneg
        (trace (single_card_bank insufficient_account) negative_hold_ops).
Proof.
  split; [vm_compute; discriminate|].
  split; [vm_compute; reflexivity|].
  intros H.
  unfold negative_hold_ops in H. simpl trace in H.
  apply Forall_cons in H as [_ H].
  apply Forall_cons in H as [_ H].
  apply Forall_cons in H as [H _].
  unfold funds_nonneg in H.
  vm_compute in H.
  inversion H as [|? ? Hneg _]. apply Hneg. reflexivity.
Qed.





Lemma days_before_next_year y :
  days_before_year (y + 1)
  = days_before_year y + 365 + (if is_leap y then 1 else 0).
Proof.
  unfold days_before_year, is_leap.
  replace (y + 1 - 1) with y by lia.
  destruct (Z.eqb_spec (y mod 4) 0) as [H4|H4];
    destruct (Z.eqb_spec (y mod 100) 0) as [H100|H100];
    destruct (Z.eqb_spec (y mod 400) 0) as [H400|H400]; simpl;
    Z.div_mod_to_equations; lia.
Qed.

(** The expiry window of [authorize], the first day of the expiry month
    plus 31 days, ends [31 - days_in_month] days after the first day of the
    next month: at the end of the expiry month for a month of 31 days, 1 to
    3 days later for the others. *)
Lemma expiry_window_overshoot y m :
  1 <= m <= 12 ->
  ymd2ord y m 1 + 31 = next_month_ordinal y m + (31 - days_in_month y m).
Proof.
  intros Hm.
  assert (Hcases : m = 1 \/ m = 2 \/ m = 3 \/ m = 4 \/ m = 5 \/ m = 6 \/ m = 7
                   \/ m = 8 \/ m = 9 \/ m = 10 \/ m = 11 \/ m = 12) by lia.
  unfold next_month_ordinal, ymd2ord.
  destruct Hcases
    as [-> | [-> | [-> | [-> | [-> | [-> | [-> | [-> | [-> | [-> | [-> | ->]]]]]]]]]]];
    unfold days_before_month, days_in_month; simpl;
    rewrite ?days_before_next_year; destruct (is_leap y); simpl; lia.
Qed.


(** On a bank that holds a card expiring in a 30-day month, which neither
    [IssuingBank(name)] nor any of its methods builds, the window of
    [authorize] ends after the expiry month: with a card of 04/2025 and the
    clock at noon on 1 May 2025, [Card.is_expired] of the gateway reports
    the card expired while [authorize] approves and stores a hold. *)
Lemma authorize_thirty_day_month :
  Models.Card_is_expired (exp_year april_account) (exp_month april_account)
    (now_expiry may_first_env) = Some true
  /\ datetime 2025 5 1 = Some (at_hour 2025 5 1 0)
  /\ at_hour 2025 5 1 0 < now_expiry may_first_env
  /\ fst (authorize (single_card_bank april_account) april_request may_first_env)
     = Returned (mkResponse "nt_1" true (Some "A1B2C3") None "Y" "M")
  /\ (forall a,
        dict_get "4242424242424242"
          (_accounts (snd (authorize (single_card_bank april_account)
                             april_request may_first_env))) = Some a ->
        holds a !! "nt_1" = Some 5000).
Proof.
  split; [vm_compute; reflexivity|].
  split; [vm_compute; reflexivity|].
  split; [vm_compute; reflexivity|].
  split; [vm_compute; reflexivity|].
  intros a. vm_compute. intros [= <-]. reflexivity.
Qed.

(** ** The banks that the program builds *)

(** The demo cards expire 12/2025: an authorization at 23:00 on 31 December
    2025 is approved, one at 01:00 on 1 January 2026 is declined as
    expired. *)
Example expiry_at_year_end :
  let last_hour := at_hour 2025 12 31 23 in
  let next_year := at_hour 2026 1 1 1 in
  fst (authorize (init "Demo Bank") (demo_request "nt_1" "4242424242424242" 5000)
         (mkAmbient last_hour last_hour last_hour "A1B2C3"))
  = Returned (mkResponse "nt_1" true (Some "A1B2C3") None "Y" "M")
  /\ fst (authorize (init "Demo Bank") (demo_request "nt_1" "4242424242424242" 5000)
            (mkAmbient next_year next_year next_year "A1B2C3"))
     = Returned (mkResponse "nt_1" false None (Some "expired_card") "Y" "M").
Proof. split; vm_compute; reflexivity. Qed.






End IssuerFacts.

(* ===================================================================== *)
(** * Facts about the card network *)
(* ===================================================================== *)

Module NetworkFacts.
Import Network.

Lemma BIN_key_cases p n :
  dict_get p BIN_RANGES = Some n ->
  p = "4" \/ p = "5" \/ p = "34" \/ p = "37" \/ p = "6".
Proof.
  unfold BIN_RANGES; simpl.
  repeat match goal with
         | |- context [String.eqb p ?s] =>
           destruct (String.eqb_spec p s) as [-> | _]; [intros _; auto 10|]
         end.
  discriminate.
Qed.

Lemma BIN_key_length p n :
  dict_get p BIN_RANGES = Some n ->
  (String.length p = 1 \/ String.length p = 2)%nat.
Proof.
  intros H. destruct (BIN_key_cases p n H) as [-> | [-> | [-> | [-> | ->]]]];
    simpl; auto.
Qed.

Lemma slice_prefix n : forall c, String.prefix (slice_to n c) c = true.
Proof.
  unfold slice_to. induction n as [|n IH]; intros [|a c]; simpl; try reflexivity.
  destruct (Ascii.ascii_dec a a); [apply IH | contradiction].
Qed.

Lemma slice_length n : forall c,
  String.length (slice_to n c) = Nat.min n (String.length c).
Proof.
  unfold slice_to. induction n as [|n IH]; intros [|a c]; simpl; try reflexivity.
  rewrite IH. reflexivity.
Qed.

Lemma slice_all n : forall c, (String.length c <= n)%nat -> slice_to n c = c.
Proof.
  unfold slice_to. induction n as [|n IH]; intros [|a c]; simpl; try reflexivity.
  - lia.
  - intros H. rewrite IH by lia. reflexivity.
Qed.

Lemma prefix_length p : forall c,
  String.prefix p c = true -> (String.length p <= String.length c)%nat.
Proof.
  induction p as [|a p IH]; intros [|b c]; simpl; try lia; try discriminate.
  destruct (Ascii.ascii_dec a b); [|discriminate].
  intros H. specialize (IH c H). lia.
Qed.

Lemma prefix_is_slice p c :
  String.prefix p c = true -> p = slice_to (String.length p) c.
Proof. intros H. apply String.prefix_correct in H. symmetry. exact H. Qed.

Lemma slice_one a rest : slice_to 1 (String a rest) = String a EmptyString.
Proof. unfold slice_to. simpl. destruct rest; reflexivity. Qed.

Lemma detect_network_by_prefixes c :
  c <> EmptyString -> detect_network c = Returned (detect_by_prefixes c).
Proof.
  intros Hc. destruct c as [|a rest]; [contradiction|].
  unfold detect_network, detect_by_prefixes.
  destruct (dict_get (slice_to 4 (String a rest)) BIN_RANGES) as [n4|] eqn:E4.
  - pose proof (BIN_key_length _ _ E4) as Hlen.
    rewrite slice_length in Hlen.
    assert (Hle : (String.length (String a rest) <= 2)%nat) by lia.
    rewrite slice_all in E4 by lia.
    rewrite (slice_all 2) by exact Hle. rewrite E4. reflexivity.
  - destruct (dict_get (slice_to 2 (String a rest)) BIN_RANGES); [reflexivity|].
    rewrite slice_one.
    destruct (dict_get (String a EmptyString) BIN_RANGES); reflexivity.
Qed.

Lemma detect_network_longest c n :
  c <> EmptyString ->
  detect_network c = Returned (Some n) <-> exists p, longest_bin_match c p n.
Proof.
  intros Hc. destruct c as [|a rest]; [contradiction|].
  set (c := String a rest).
  assert (Hc1 : (1 <= String.length c)%nat) by (simpl; lia).
  assert (Hs1 : slice_to 1 c = String a EmptyString) by apply slice_one.
  pose proof (slice_prefix 2 c) as Hp2.
  pose proof (slice_length 2 c) as Hl2.
  pose proof (slice_prefix 1 c) as Hp1. rewrite Hs1 in Hp1.
  assert (Hkey : forall p m, String.prefix p c = true ->
                             dict_get p BIN_RANGES = Some m ->
                             p = slice_to 2 c \/ p = String a EmptyString).
  { intros p m Hp Hk. pose proof (prefix_is_slice p c Hp) as Hsl.
    destruct (BIN_key_length p m Hk) as [Hl | Hl]; rewrite Hl in Hsl.
    - right. rewrite Hsl. exact Hs1.
    - left. exact Hsl. }
  unfold detect_network. fold c.
  destruct (dict_get (slice_to 2 c) BIN_RANGES) as [n2|] eqn:E2.
  - split.
    + intros [= <-]. exists (slice_to 2 c). repeat split; [exact Hp2 | exact E2 |].
      intros p' n' Hp' Hk'.
      destruct (BIN_key_length p' n' Hk'); pose proof (prefix_length p' c Hp'); lia.
    + intros (p & Hp & Hk & Hmax).
      destruct (Hkey p n Hp Hk) as [-> | ->].
      * rewrite E2 in Hk. rewrite Hk. reflexivity.
      * specialize (Hmax _ _ Hp2 E2).
        change (String.length (String a EmptyString)) with 1%nat in Hmax.
        assert (Heq : slice_to 2 c = String a EmptyString).
        { rewrite (slice_all 2 c) by lia. rewrite <- Hs1.
          rewrite (slice_all 1 c) by lia. reflexivity. }
        rewrite Heq in E2. rewrite E2 in Hk. rewrite Hk. reflexivity.
  - unfold c at 1.
    destruct (dict_get (String a EmptyString) BIN_RANGES) as [n1|] eqn:E1.
    + split.
      * intros [= <-]. exists (String a EmptyString). repeat split; [exact Hp1 | exact E1 |].
        intros p' n' Hp' Hk'.
        destruct (Hkey p' n' Hp' Hk') as [-> | ->]; [congruence | simpl; lia].
      * intros (p & Hp & Hk & _).
        destruct (Hkey p n Hp Hk) as [-> | ->]; [congruence|].
        rewrite E1 in Hk. rewrite Hk. reflexivity.
    + split; [discriminate|].
      intros (p & Hp & Hk & _).
      destruct (Hkey p n Hp Hk) as [-> | ->]; congruence.
Qed.

Lemma route_mismatch_rejected net args env detected :
  detect_network (arg_card_number args) = Returned detected ->
  detected <> Some (network_type net) ->
  route_authorization net args env
  = (Returned (RouteError ("Card not valid for "
                             ++ network_value (network_type net) ++ " network")),
     net).
Proof.
  intros Hd Hne. unfold route_authorization. rewrite Hd.
  rewrite bool_decide_eq_false_2 by exact Hne. reflexivity.
Qed.

(** C9 (amended). For every non-empty card number, [detect_network]
    returns what the procedure of the specification returns (longest prefix
    first: 4 characters, then 2, then 1), and it returns a brand exactly
    when that brand is the table's entry for a longest prefix of the card
    number found in the table; and whenever the detected brand (or its
    absence) differs from the network's own type, [route_authorization]
    returns an error and leaves the network as it was: no issuer is called
    and no transaction is logged. *)
Theorem brand_detection_longest_prefix (card_number : string) :
  card_number <> EmptyString ->
  detect_network card_number = Returned (detect_by_prefixes card_number)
  /\ (forall n, detect_network card_number = Returned (Some n)
                <-> exists p, longest_bin_match card_number p n)
  /\ (forall net args env,
        arg_card_number args = card_number ->
        detect_by_prefixes card_number <> Some (network_type net) ->
        exists msg,
          route_authorization net args env = (Returned (RouteError msg), net)).
Proof.
  intros Hc. split; [apply detect_network_by_prefixes; exact Hc|].
  split; [intros n; apply detect_network_longest; exact Hc|].
  intros net args env Hcard Hne. eexists.
  apply route_mismatch_rejected with (detected := detect_by_prefixes card_number);
    [|exact Hne].
  rewrite Hcard. apply detect_network_by_prefixes. exact Hc.
Qed.

Lemma brand_detection_longest_prefix_witness :
  "5555555555554444" <> EmptyString
  /\ detect_network "5555555555554444" = Returned (Some MASTERCARD)
  /\ exists msg,
      route_authorization (init VISA) (demo_args "5555555555554444" 5000)
        (demo_env "abc")
      = (Returned (RouteError msg), init VISA).
Proof.
  assert (Hne : "5555555555554444" <> EmptyString) by (intros Habs; discriminate Habs).
  destruct (brand_detection_longest_prefix "5555555555554444" Hne)
    as (Hdetect & _ & Hroute).
  split; [exact Hne|]. split; [exact Hdetect|].
  apply Hroute; [reflexivity | vm_compute; discriminate].
Defined.

(** C9 as stated fails on the empty card number. The procedure of the
    specification finds none of its prefixes in the table, so it gives no
    brand, and no brand differs from the network's type; but
    [detect_network] raises [IndexError] at [card_number[0]], and so does
    [route_authorization], which returns no error. *)
Lemma empty_card_number_counterexample :
  detect_by_prefixes EmptyString = None
  /\ detect_network EmptyString = Raised IndexError
  /\ route_authorization (init VISA) (demo_args EmptyString 5000) (demo_env "abc")
     = (Raised IndexError, init VISA).
Proof. repeat split. Qed.

Lemma capture_success_inv net tid amt :
  net_success (fst (capture net tid amt)) = true ->
  exists t,
    _transactions net !! tid = Some t
    /\ status t = "approved"
    /\ _transactions (snd (capture net tid amt))
       = <[tid := set_status t "captured"]> (_transactions net).
Proof.
  unfold capture.
  destruct (_transactions net !! tid) as [t|] eqn:Ht; [|discriminate].
  destruct (String.eqb_spec (status t) "approved") as [Hs | Hs]; simpl;
    [|discriminate].
  destruct (_issuers net !! issuer_id t) as [issuer|]; [|discriminate].
  destruct (Issuer.capture issuer tid amt) as [[|] issuer']; simpl;
    [|discriminate].
  intros _. exists t. auto.
Qed.

Lemma capture_transactions_cases net tid amt :
  _transactions (snd (capture net tid amt)) = _transactions net
  \/ exists t, _transactions (snd (capture net tid amt))
               = <[tid := set_status t "captured"]> (_transactions net).
Proof.
  unfold capture.
  destruct (_transactions net !! tid) as [t|]; [|unchanged].
  destruct (negb _); [unchanged|].
  destruct (_issuers net !! issuer_id t) as [issuer|]; [|unchanged].
  destruct (Issuer.capture issuer tid amt) as [[|] issuer']; simpl;
    [stored | unchanged].
Qed.

Lemma void_transactions_cases net tid :
  _transactions (snd (void net tid)) = _transactions net
  \/ exists t, _transactions (snd (void net tid))
               = <[tid := set_status t "voided"]> (_transactions net).
Proof.
  unfold void.
  destruct (_transactions net !! tid) as [t|]; [|unchanged].
  destruct (_issuers net !! issuer_id t) as [issuer|]; [|unchanged].
  destruct (Issuer.void issuer tid) as [[|] issuer']; simpl;
    [stored | unchanged].
Qed.

Lemma route_transactions_cases net args env :
  _transactions (snd (route_authorization net args env)) = _transactions net
  \/ exists t, _transactions (snd (route_authorization net args env))
               = <["nt_" ++ token_hex12 env := t]> (_transactions net).
Proof.
  unfold route_authorization.
  destruct (detect_network _) as [detected|]; [|unchanged].
  destruct (negb _); [unchanged|].
  destruct (_issuers net !! "default") as [issuer|]; [|unchanged].
  destruct (Issuer.authorize _ _ _) as [[response|e] issuer']; simpl;
    [|unchanged].
  destruct (fee _ (interchange_fee_bps net)) as [interchange|e]; [|unchanged].
  destruct (fee _ (assessment_fee_bps net)) as [assessment|e];
    [stored | unchanged].
Qed.

Lemma step_not_approved net tid op :
  not_approved net tid -> routes_elsewhere tid op ->
  not_approved (step net op) tid.
Proof.
  intros Hna Hop t'. destruct op as [args env | tid' amt | tid']; simpl in *.
  - destruct (route_transactions_cases net args env) as [-> | [t ->]];
      [apply Hna|].
    rewrite lookup_insert_ne by exact Hop. apply Hna.
  - destruct (capture_transactions_cases net tid' amt) as [-> | [t ->]];
      [apply Hna|].
    destruct (decide (tid' = tid)) as [-> | Hne].
    + rewrite lookup_insert_eq. intros [= <-]. simpl. discriminate.
    + rewrite lookup_insert_ne by exact Hne. apply Hna.
  - destruct (void_transactions_cases net tid') as [-> | [t ->]];
      [apply Hna|].
    destruct (decide (tid' = tid)) as [-> | Hne].
    + rewrite lookup_insert_eq. intros [= <-]. simpl. discriminate.
    + rewrite lookup_insert_ne by exact Hne. apply Hna.
Qed.

Lemma run_not_approved tid ops : forall net,
  not_approved net tid -> Forall (routes_elsewhere tid) ops ->
  not_approved (run net ops) tid.
Proof.
  unfold run. induction ops as [|op rest IH]; intros net Hna Hops; simpl;
    [exact Hna|].
  inversion Hops as [|? ? Hop Hrest]; subst.
  apply IH; [apply step_not_approved; assumption | exact Hrest].
Qed.

Lemma capture_needs_approved net tid amt :
  not_approved net tid -> net_success (fst (capture net tid amt)) = false.
Proof.
  intros Hna. unfold capture.
  destruct (_transactions net !! tid) as [t|] eqn:Ht; [|reflexivity].
  specialize (Hna t Ht).
  destruct (String.eqb_spec (status t) "approved") as [Hs | Hs];
    [contradiction | reflexivity].
Qed.

(** C10. A capture on the network succeeds only on a logged transaction
    whose status is [approved], and a successful capture sets that status to
    [captured]; after it, whatever captures, voids and authorizations of
    other transaction ids follow, every further capture of the same
    transaction id fails. *)
Theorem network_capture_once (net : CardNetwork) (tid : string) (amt : Z) :
  net_success (fst (capture net tid amt)) = true ->
  (exists t, _transactions net !! tid = Some t /\ status t = "approved")
  /\ (exists t', _transactions (snd (capture net tid amt)) !! tid = Some t'
                 /\ status t' = "captured")
  /\ (forall ops amt',
        Forall (routes_elsewhere tid) ops ->
        net_success (fst (capture (run (snd (capture net tid amt)) ops) tid amt'))
        = false).
Proof.
  intros Hok.
  destruct (capture_success_inv net tid amt Hok) as (t & Ht & Hs & Hafter).
  split; [exists t; auto|].
  split.
  - exists (set_status t "captured"). rewrite Hafter, lookup_insert_eq. auto.
  - intros ops amt' Hops. apply capture_needs_approved.
    apply run_not_approved; [|exact Hops].
    intros t'. rewrite Hafter, lookup_insert_eq. intros [= <-]. simpl. discriminate.
Qed.

Lemma network_capture_once_witness :
  net_success (fst (capture visa_after_route "nt_abc" 10000)) = true
  /\ net_success
       (fst (capture (snd (capture visa_after_route "nt_abc" 10000)) "nt_abc" 10000))
     = false.
Proof.
  assert (Hok : net_success (fst (capture visa_after_route "nt_abc" 10000)) = true)
    by (vm_compute; reflexivity).
  split; [exact Hok|].
  destruct (network_capture_once visa_after_route "nt_abc" 10000 Hok)
    as (_ & _ & Hagain).
  apply (Hagain [] 10000). constructor.
Defined.

End NetworkFacts.

(* ===================================================================== *)
(** * Facts about the acquiring bank *)
(* ===================================================================== *)

Module AcquirerFacts.
Import Acquirer.

Example volume_limit_declined :
  fst (process_authorization near_volume_limit "merch_demo123" "4242424242424242"
         12 2025 "123" 20 "USD" demo_auth_env)
  = Returned (AuthError "Monthly volume limit exceeded").
Proof. vm_compute. reflexivity. Qed.

Lemma included_cons key t rest :
  included ((key, t) :: rest)
  = if decide (settlement_status t = PENDING) then t :: included rest
    else included rest.
Proof.
  unfold included, dict_values. simpl. rewrite filter_cons.
  unfold is_pending at 1. simpl.
  destruct (decide (settlement_status t = PENDING)); reflexivity.
Qed.

Lemma Zsum_sub {A} (f g : A -> Z) (l : list A) :
  Zsum ((fun x => f x - g x) <$> l) = Zsum (f <$> l) - Zsum (g <$> l).
Proof.
  unfold Zsum. induction l as [|x l IH]; [reflexivity|].
  rewrite !fmap_cons. cbn [foldr]. rewrite IH. lia.
Qed.

Lemma batch_scan_spec clock txns : forall k ids ta tf,
  exists txns',
    batch_scan clock k txns ids ta tf
    = (txns',
       (ids ++ (transaction_id <$> included txns))%list,
       ta + Zsum (amount <$> included txns),
       tf + Zsum (fees <$> included txns))
    /\ length txns' = length txns
    /\ forall i key txn,
        txns !! i = Some (key, txn) ->
        txns' !! i
        = Some (key, after_batch clock (k + pending_before txns i) txn).
Proof.
  induction txns as [|[key0 t0] rest IH]; intros k ids ta tf; simpl.
  - exists []. unfold included. simpl. rewrite app_nil_r, !Z.add_0_r.
    repeat split. intros i key txn Hi. rewrite lookup_nil in Hi. discriminate.
  - rewrite included_cons.
    destruct (decide (settlement_status t0 = PENDING)) as [Hp | Hp].
    + destruct (IH (S k) (ids ++ [transaction_id t0])%list
                  (ta + amount t0) (tf + fees t0))
        as (rest' & -> & Hlen & Hlook).
      eexists. split; [|split].
      * rewrite !fmap_cons, <- app_assoc. unfold Zsum. cbn [foldr].
        rewrite !Z.add_assoc. reflexivity.
      * simpl. rewrite Hlen. reflexivity.
      * intros [|i] key txn Hi; simpl in *.
        -- injection Hi as <- <-. unfold after_batch, pending_before.
           simpl. rewrite Nat.add_0_r.
           destruct (decide (settlement_status t0 = PENDING));
             [reflexivity | contradiction].
        -- rewrite (Hlook i key txn Hi). do 3 f_equal.
           unfold pending_before. simpl. rewrite included_cons.
           destruct (decide (settlement_status t0 = PENDING));
             [simpl; lia | contradiction].
    + destruct (IH k ids ta tf) as (rest' & -> & Hlen & Hlook).
      eexists. split; [|split].
      * reflexivity.
      * simpl. rewrite Hlen. reflexivity.
      * intros [|i] key txn Hi; simpl in *.
        -- injection Hi as <- <-. unfold after_batch.
           destruct (decide (settlement_status t0 = PENDING));
             [contradiction | reflexivity].
        -- rewrite (Hlook i key txn Hi). do 3 f_equal.
           unfold pending_before. simpl. rewrite included_cons.
           destruct (decide (settlement_status t0 = PENDING));
             [contradiction | reflexivity].
Qed.

(** C8. [create_settlement_batch] leaves every transaction of the log in
    place. A transaction whose [settlement_status] is pending gets the
    status batched and the [settlement_date] [now + 2 days], where [now] is
    the clock reading taken for it in the loop, and keeps its other fields;
    a transaction with another status is unchanged. The batch lists the
    ids of the pending transactions in log order, and its [total_amount],
    [total_fees] and [net_amount] are the sums of their [amount], [fees]
    and [amount - fees]; it is appended to the batches. For the two pending
    transactions (10,000 / 320) and (5,000 / 175) the batch has
    total_amount 15,000, total_fees 495, net_amount 14,505 and both
    transactions end batched, each with its clock reading plus 2 days as
    settlement date. *)
Theorem settlement_batch_spec (acq : AcquiringBank) (env : BatchAmbient) :
  total_amount (fst (create_settlement_batch acq env))
  = Zsum (amount <$> included (_transactions acq))
  /\ total_fees (fst (create_settlement_batch acq env))
     = Zsum (fees <$> included (_transactions acq))
  /\ batch_net_amount (fst (create_settlement_batch acq env))
     = Zsum ((fun t => amount t - fees t) <$> included (_transactions acq))
  /\ batch_transactions (fst (create_settlement_batch acq env))
     = transaction_id <$> included (_transactions acq)
  /\ _batches (snd (create_settlement_batch acq env))
     = (_batches acq ++ [fst (create_settlement_batch acq env)])%list
  /\ length (_transactions (snd (create_settlement_batch acq env)))
     = length (_transactions acq)
  /\ (forall i key txn,
        _transactions acq !! i = Some (key, txn) ->
        exists txn',
          _transactions (snd (create_settlement_batch acq env)) !! i
          = Some (key, txn')
          /\ (settlement_status txn = PENDING ->
              settlement_status txn' = BATCHED
              /\ settlement_date txn'
                 = Some (settle_utcnow env (pending_before (_transactions acq) i)
                         + timedelta_days 2)
              /\ transaction_id txn' = transaction_id txn
              /\ txn_merchant_id txn' = txn_merchant_id txn
              /\ network_transaction_id txn' = network_transaction_id txn
              /\ amount txn' = amount txn
              /\ currency txn' = currency txn
              /\ fees txn' = fees txn
              /\ net_amount txn' = net_amount txn
              /\ created_at txn' = created_at txn)
          /\ (settlement_status txn <> PENDING -> txn' = txn))
  /\ (forall env',
        total_amount (fst (create_settlement_batch two_pending env')) = 15000
        /\ total_fees (fst (create_settlement_batch two_pending env')) = 495
        /\ batch_net_amount (fst (create_settlement_batch two_pending env')) = 14505
        /\ settlement_status
             <$> dict_values
                   (_transactions (snd (create_settlement_batch two_pending env')))
           = [BATCHED; BATCHED]
        /\ settlement_date
             <$> dict_values
                   (_transactions (snd (create_settlement_batch two_pending env')))
           = [Some (settle_utcnow env' 0 + timedelta_days 2);
              Some (settle_utcnow env' 1 + timedelta_days 2)]).
Proof.
  unfold create_settlement_batch.
  destruct (batch_scan_spec (settle_utcnow env) (_transactions acq) 0 [] 0 0)
    as (txns' & -> & Hlen & Hlook).
  simpl. rewrite Zsum_sub.
  do 6 (split; [first [lia | reflexivity | assumption]|]).
  split; [|repeat split].
  intros i key txn Hi. rewrite (Hlook i key txn Hi).
  eexists. split; [reflexivity|]. unfold after_batch.
  destruct (decide (settlement_status txn = PENDING)) as [Hp | Hp].
  - split; [|contradiction]. intros _. simpl. repeat split.
  - split; [contradiction|]. reflexivity.
Qed.

Lemma acquirer_capture_unknown acq tid amt :
  dict_get tid (_transactions acq) = None ->
  capture acq tid amt
  = (Returned (Network.NetError "Transaction not found"), acq).
Proof. intros H. unfold capture. rewrite H. reflexivity. Qed.

(** Whatever network authorized the transaction, [capture] sends the
    capture to the first network of [_networks]; on success it adds the
    transaction's [net_amount] to the pending settlement of its merchant. *)
Lemma acquirer_capture_first_network acq tid amt transaction key network others :
  dict_get tid (_transactions acq) = Some transaction ->
  _networks acq = (key, network) :: others ->
  fst (capture acq tid amt)
  = Returned (fst (Network.capture network (network_transaction_id transaction)
                     (or_amount amt (amount transaction))))
  /\ (forall merchant,
        Network.net_success
          (fst (Network.capture network (network_transaction_id transaction)
                  (or_amount amt (amount transaction)))) = true ->
        _merchants acq !! txn_merchant_id transaction = Some merchant ->
        _merchants (snd (capture acq tid amt)) !! txn_merchant_id transaction
        = Some (set_pending_settlement merchant
                  (pending_settlement merchant + net_amount transaction))).
Proof.
  intros Ht Hn. unfold capture. rewrite Ht, Hn.
  destruct (Network.capture network _ _) as [result network'] eqn:Hcap. simpl.
  split.
  - destruct (Network.net_success result); [|reflexivity].
    destruct (_merchants acq !! txn_merchant_id transaction); reflexivity.
  - intros merchant Hok Hm. rewrite Hok, Hm. simpl. apply lookup_insert_eq.
Qed.

(** C6, at the input where the code departs from it. The demo merchant
    authorizes 100 dollars on the demo Mastercard card: the Mastercard
    network approves and logs [nt_n1], the acquirer records [txn_t1]. The
    capture of [txn_t1] is sent to the first network, Visa, which does not
    know [nt_n1]: the capture fails with "Transaction not found", the
    transaction stays [approved] on the Mastercard network and nothing is
    added to the merchant's pending settlement. *)
Theorem mastercard_capture_misrouted :
  fst (process_authorization (init "Demo Acquiring Bank") "merch_demo123"
         "5555555555554444" 12 2025 "123" 10000 "USD" demo_auth_env)
  = Returned (AuthApproved "txn_t1" "nt_n1" (Some "A1B2C3") 10000 290 30 213 533
                9467)
  /\ (network_transaction_id
        <$> dict_get "txn_t1" (_transactions after_mastercard_auth))
     = Some "nt_n1"
  /\ (networks_get Network.MASTERCARD (_networks after_mastercard_auth)
        ≫= (fun mc => Network.status <$> Network._transactions mc !! "nt_n1"))
     = Some "approved"
  /\ (networks_get Network.VISA (_networks after_mastercard_auth)
        ≫= (fun visa => Network.status <$> Network._transactions visa !! "nt_n1"))
     = None
  /\ fst (capture after_mastercard_auth "txn_t1" None)
     = Returned (Network.NetError "Transaction not found")
  /\ snd (capture after_mastercard_auth "txn_t1" None) = after_mastercard_auth
  /\ (pending_settlement
        <$> _merchants (snd (capture after_mastercard_auth "txn_t1" None))
              !! "merch_demo123")
     = Some 0.
Proof. repeat split; vm_compute; reflexivity. Qed.

(** The same steps with the demo Visa card succeed and add the net amount
    to the merchant's pending settlement. *)
Lemma visa_capture_settles :
  fst (capture after_visa_auth "txn_t1" None)
  = Returned (Network.NetCaptured 10000)
  /\ (pending_settlement
        <$> _merchants (snd (capture after_visa_auth "txn_t1" None))
              !! "merch_demo123")
     = Some 9680.
Proof. split; vm_compute; reflexivity. Qed.

End AcquirerFacts.

(* ===================================================================== *)
(** * Facts about the idempotency service *)
(* ===================================================================== *)

Module IdempotencyFacts.
Import Idempotency.

Section ServiceFacts.
Context {Params Result Dict : Type}.
Variable _hash_params : Params -> string.
Variable _serialize_result : Result -> Dict.

Local Abbreviation execute := (execute _hash_params _serialize_result).
Local Abbreviation execute_all := (execute_all _hash_params _serialize_result).
Local Abbreviation replayed := (replayed _serialize_result).
Local Abbreviation first_outcome := (first_outcome _serialize_result).
Local Abbreviation final_record := (final_record _hash_params _serialize_result).

Lemma store_get_unexpired (st : gmap string (IdempotencyRecord Dict)) k now record :
  st !! k = Some record -> now <= expires_at record ->
  store_get st k now = (Some record, st).
Proof.
  intros Hk Hnow. unfold store_get, is_expired. rewrite Hk.
  destruct (expires_at record <? now) eqn:Hlt; [|reflexivity].
  apply Z.ltb_lt in Hlt. lia.
Qed.

Lemma execute_existing {World : Type} (svc : IdempotencyService Dict) k
      (operation : World -> Outcome Result * World) params env w record :
  store svc !! k = Some record -> get_utcnow env <= expires_at record ->
  execute svc k operation params env w
  = (_handle_existing_record record (_hash_params params), svc, w).
Proof.
  intros Hk Hnow. unfold Idempotency.execute.
  rewrite (store_get_unexpired _ _ _ _ Hk Hnow). destruct svc; reflexivity.
Qed.

Lemma lock_free_after_get (locks : gmap string bool) k :
  lock_held locks k = false -> lock_held (_get_lock locks k) k = false.
Proof.
  unfold lock_held, _get_lock. destruct (locks !! k) as [b|] eqn:Hk.
  - rewrite Hk. auto.
  - intros _. rewrite lookup_insert_eq. reflexivity.
Qed.

Lemma execute_fresh {World : Type} (svc : IdempotencyService Dict) k
      (operation : World -> Outcome Result * World) params env w :
  store svc !! k = None -> lock_held (_locks svc) k = false ->
  execute svc k operation params env w
  = (first_outcome (fst (operation w)),
     mkService (<[k := final_record k params env (fst (operation w))]> (store svc))
       (_get_lock (_locks svc) k),
     snd (operation w)).
Proof.
  intros Hk Hlock. unfold Idempotency.execute, store_get. rewrite Hk.
  rewrite (lock_free_after_get _ _ Hlock). rewrite Hk.
  destruct (operation w) as [[r | e] w']; simpl; rewrite insert_insert_eq;
    reflexivity.
Qed.

Lemma final_record_replays k params env out :
  _handle_existing_record (final_record k params env out) (_hash_params params)
  = replayed out.
Proof.
  unfold _handle_existing_record.
  destruct out as [r | e]; simpl; rewrite String.eqb_refl; reflexivity.
Qed.

Lemma execute_all_replays {World : Type} k params record
      (calls : list ((World -> Outcome Result * World) * ExecAmbient)) :
  forall (svc : IdempotencyService Dict) (w : World),
    store svc !! k = Some record ->
    Forall (fun c => get_utcnow (snd c) <= expires_at record) calls ->
    execute_all svc k params calls w
    = ((fun _ => _handle_existing_record record (_hash_params params)) <$> calls,
       svc, w).
Proof.
  induction calls as [|[operation env] rest IH]; intros svc w Hk Hcalls; simpl;
    [reflexivity|].
  inversion Hcalls as [|? ? Hnow Hrest]; subst. simpl in Hnow.
  rewrite (execute_existing svc k operation params env w record Hk Hnow).
  rewrite (IH svc w Hk Hrest). reflexivity.
Qed.

Lemma counted_fst {World : Type} (operation : World -> Outcome Result * World) n w :
  fst (counted operation (n, w)) = fst (operation w).
Proof. unfold counted. simpl. destruct (operation w); reflexivity. Qed.

Lemma counted_snd {World : Type} (operation : World -> Outcome Result * World) n w :
  snd (counted operation (n, w)) = (S n, snd (operation w)).
Proof. unfold counted. simpl. destruct (operation w); reflexivity. Qed.

(** C2. When [execute] finds an unexpired record under the key it leaves the
    service and the world as they are, so the operation is not invoked, and
    it raises [IdempotencyConflict] if the hash of the parameters differs
    from the stored hash; otherwise it raises [IdempotencyInProgress] for a
    pending record, raises [IdempotencyFailedPreviously] carrying the stored
    error for a failed record, and returns the stored result for a completed
    record. Consequently, when the key has no record and its lock is free,
    any number of calls one after the other with that key and the same
    parameters, none of them after the record's expiry, invoke an operation
    exactly once, in the first call: the invocation counter ends at 1, the
    world is the one that the first operation left, and every later call
    replays the first outcome. *)
Theorem execute_at_most_once :
  (forall (World : Type) (svc : IdempotencyService Dict) (k : string)
          (operation : World -> Outcome Result * World) (params : Params)
          (env : ExecAmbient) (w : World) (record : IdempotencyRecord Dict),
      store svc !! k = Some record ->
      get_utcnow env <= expires_at record ->
      exists out,
        execute svc k operation params env w = (out, svc, w)
        /\ (request_hash record <> _hash_params params ->
            exists msg, out = Raised (IdempotencyConflict msg))
        /\ (request_hash record = _hash_params params ->
            (status record = PENDING ->
             exists msg, out = Raised (IdempotencyInProgress msg))
            /\ (status record = FAILED ->
                forall type_name message,
                  error record = Some (type_name, message) ->
                  out = Raised (IdempotencyFailedPreviously type_name message))
            /\ (status record = COMPLETED -> out = Returned (result record))))
  /\ (forall (World : Type) (svc : IdempotencyService Dict) (k : string)
             (params : Params) (operation : World -> Outcome Result * World)
             (env : ExecAmbient)
             (calls : list ((World -> Outcome Result * World) * ExecAmbient))
             (w : World),
         store svc !! k = None ->
         lock_held (_locks svc) k = false ->
         Forall (fun c => get_utcnow (snd c)
                          <= expires_utcnow env + timedelta_hours 24) calls ->
         exists svc',
           execute_all svc k params
             ((counted operation, env)
                :: ((fun c => (counted (fst c), snd c)) <$> calls))
             (0%nat, w)
           = (first_outcome (fst (operation w))
                :: ((fun _ => replayed (fst (operation w))) <$> calls),
              svc', (1%nat, snd (operation w)))).
Proof.
  split.
  - intros World svc k operation params env w record Hk Hnow.
    exists (_handle_existing_record record (_hash_params params)).
    split; [apply execute_existing; assumption|].
    unfold _handle_existing_record. split.
    + intros Hne. apply String.eqb_neq in Hne. rewrite Hne. simpl. eauto.
    + intros Heq. rewrite Heq, String.eqb_refl. simpl.
      repeat split.
      * intros ->. eauto.
      * intros -> type_name message ->. reflexivity.
      * intros ->. reflexivity.
  - intros World svc k params operation env calls w Hk Hlock Hcalls.
    eexists. cbn [Idempotency.execute_all].
    rewrite (execute_fresh svc k (counted operation) params env (0%nat, w) Hk Hlock).
    rewrite counted_fst, counted_snd.
    rewrite (execute_all_replays k params
               (final_record k params env (fst (operation w)))).
    + rewrite final_record_replays, <- list_fmap_compose. reflexivity.
    + cbn [store]. apply lookup_insert_eq.
    + apply Forall_fmap. eapply Forall_impl; [exact Hcalls|].
      intros [op' env'] Hle. simpl in *.
      destruct (fst (operation w)); exact Hle.
Qed.

Lemma execute_world_cases {World : Type} (svc : IdempotencyService Dict) k
      (operation : World -> Outcome Result * World) params env w :
  snd (execute svc k operation params env w) = w
  \/ snd (execute svc k operation params env w) = snd (operation w).
Proof.
  unfold Idempotency.execute.
  destruct (store_get (store svc) k (get_utcnow env)) as [[record|] store1];
    [unchanged|].
  destruct (lock_held _ k); [unchanged|].
  destruct (store_get store1 k (recheck_utcnow env)) as [[record|] store2];
    [unchanged|].
  right. destruct (operation w) as [[r|e] w']; reflexivity.
Qed.

End ServiceFacts.

Lemma execute_at_most_once_witness :
  exists svc',
    Idempotency.execute_all (fun p : string => p) (fun r : Z => r)
      (mkService ∅ ∅) "order_123" "amount=9900"
      [ (counted (fun _ : unit => (Returned 4242, tt)), mkExecAmbient 0 0 0 0);
        (counted (fun _ : unit => (Returned 4242, tt)), mkExecAmbient 5 5 5 5) ]
      (0%nat, tt)
    = ([Returned (Some 4242); Returned (Some 4242)], svc', (1%nat, tt)).
Proof.
  destruct (execute_at_most_once (fun p : string => p) (fun r : Z => r))
    as [_ Honce].
  apply (Honce unit (mkService ∅ ∅) "order_123" "amount=9900"
           (fun _ : unit => (Returned 4242, tt)) (mkExecAmbient 0 0 0 0)
           [(fun _ : unit => (Returned 4242, tt), mkExecAmbient 5 5 5 5)] tt).
  - reflexivity.
  - reflexivity.
  - repeat constructor. vm_compute. discriminate.
Defined.

End IdempotencyFacts.

(* ===================================================================== *)
(** * Facts about the authorization service *)
(* ===================================================================== *)

Module GatewayFacts.
Import Gateway.

Lemma can_capture_true a amt now :
  can_capture a amt now = true ->
  status a = ACTIVE /\ now <= expires_at a
  /\ (amt = 0 \/ amt <= amount a - captured_amount a).
Proof.
  unfold can_capture.
  destruct (bool_decide (status a = ACTIVE)) eqn:Hs; simpl; [|discriminate].
  apply bool_decide_eq_true_1 in Hs.
  destruct (expires_at a <? now) eqn:He; [discriminate|].
  apply Z.ltb_ge in He.
  destruct (amt =? 0) eqn:Hz; simpl.
  - apply Z.eqb_eq in Hz. auto.
  - destruct (amount a - captured_amount a <? amt) eqn:Hr; [discriminate|].
    apply Z.ltb_ge in Hr. auto.
Qed.

Lemma do_authorize_auths w tid amt cur mid md env :
  _authorizations (snd (_do_authorize w tid amt cur mid md env))
  = _authorizations w
  \/ exists a,
      _authorizations (snd (_do_authorize w tid amt cur mid md env))
      = <["auth_" ++ auth_random env := a]> (_authorizations w).
Proof.
  unfold _do_authorize.
  destruct (use_token _ _ _) as [[[token card]|e] ts']; [|unchanged].
  destruct (negb _); [unchanged | stored].
Qed.

Lemma do_create_charge_auths w tid amt cur capture_now mid desc md env :
  _authorizations (snd (_do_create_charge w tid amt cur capture_now mid desc md env))
  = _authorizations w
  \/ exists a,
      _authorizations
        (snd (_do_create_charge w tid amt cur capture_now mid desc md env))
      = <["auth_" ++ new_auth_random env := a]> (_authorizations w).
Proof.
  unfold _do_create_charge.
  destruct (_validate_amount amt) as [z|e]; [|unchanged].
  destruct (use_token _ _ _) as [[[token card]|e] ts']; [|unchanged].
  destruct (negb (approved _)); [unchanged|].
  destruct (negb capture_now); [stored|].
  destruct (negb (bank_capture _ _)); unchanged.
Qed.

Lemma do_capture_auths w aid amt env :
  _authorizations (snd (_do_capture w aid amt env)) = _authorizations w
  \/ exists a,
      _authorizations w !! aid = Some a
      /\ can_capture a (or_amount amt (amount a)) (can_capture_utcnow env) = true
      /\ _authorizations (snd (_do_capture w aid amt env))
         = <[aid := mark_captured a (or_amount amt (amount a)) (captured_utcnow env)]>
             (_authorizations w).
Proof.
  unfold _do_capture.
  destruct (_authorizations w !! aid) as [a|] eqn:Ha; [|unchanged].
  destruct (can_capture a _ _) eqn:Hcan; simpl.
  - right. exists a. auto.
  - left. repeat (destruct (bool_decide _)); try reflexivity.
    destruct (expires_at a <? expired_utcnow env); reflexivity.
Qed.

Lemma insert_elsewhere_step (auths : gmap string Authorization) op new a0 :
  new_authorization_id op = Some new ->
  auths_step auths (<[new := a0]> auths) op.
Proof.
  intros Hnew aid a Ha Hne. exists a. split; [|unchanged].
  rewrite lookup_insert_ne; [exact Ha|]. intros <-. congruence.
Qed.

Lemma unchanged_step (auths : gmap string Authorization) op :
  auths_step auths auths op.
Proof. intros aid a Ha _. exists a. auto. Qed.

Section ServiceFacts.
Variable _hash_params : Params -> string.

Local Abbreviation step := (step _hash_params).
Local Abbreviation run := (run _hash_params).
Local Abbreviation capture := (capture _hash_params).
Local Abbreviation authorize := (authorize _hash_params).
Local Abbreviation create_charge := (create_charge _hash_params).
Local Abbreviation through_idempotency := (through_idempotency _hash_params).

Lemma through_idempotency_world svc k operation params env :
  world (snd (through_idempotency svc k operation params env)) = world svc
  \/ world (snd (through_idempotency svc k operation params env))
     = snd (operation (world svc)).
Proof.
  unfold Gateway.through_idempotency.
  destruct (IdempotencyFacts.execute_world_cases _hash_params _serialize_result
              (idempotency svc) k operation params env (world svc)) as [H | H];
    destruct (Idempotency.execute _ _ _ _ _ _ _ _) as [[[d|e] idem'] w'];
    simpl in *; auto.
Qed.

Lemma directly_world svc operation :
  world (snd (directly svc operation)) = snd (operation (world svc)).
Proof.
  unfold directly. destruct (operation (world svc)) as [[r|e] w']; reflexivity.
Qed.

Lemma step_auths svc op :
  auths_step (_authorizations (world svc)) (_authorizations (world (step svc op))) op.
Proof.
  destruct op as [tid amt cur mid md k env | aid0 amt k env | aid0 now
                  | tid amt cur capture_now mid desc md k env]; simpl.
  - (* authorize *)
    unfold Gateway.authorize.
    destruct (_validate_amount amt) as [z|e]; [|apply unchanged_step].
    assert (Hop : forall w,
               auths_step (_authorizations w)
                 (_authorizations
                    (snd (_do_authorize w tid z cur mid md (authorize_do_env env))))
                 (OpAuthorize tid amt cur mid md k env)).
    { intros w.
      destruct (do_authorize_auths w tid z cur mid md (authorize_do_env env))
        as [-> | [a0 ->]];
        [apply unchanged_step | apply insert_elsewhere_step; reflexivity]. }
    destruct (key_given k) as [key|].
    + destruct (through_idempotency_world svc key
                  (fun w => _do_authorize w tid z cur mid md (authorize_do_env env))
                  [("token_id", JString tid); ("amount", JInt z);
                   ("currency", JString (currency_value cur))]
                  (authorize_exec_env env)) as [-> | ->];
        [apply unchanged_step | apply Hop].
    + rewrite directly_world. apply Hop.
  - (* capture *)
    unfold Gateway.capture.
    assert (Hop : forall w,
               auths_step (_authorizations w)
                 (_authorizations (snd (_do_capture w aid0 amt (capture_do_env env))))
                 (OpCapture aid0 amt k env)).
    { intros w.
      destruct (do_capture_auths w aid0 amt (capture_do_env env))
        as [-> | (a0 & Ha0 & Hcan & ->)]; [apply unchanged_step|].
      intros aid a Ha _.
      destruct (decide (aid0 = aid)) as [-> | Hne].
      - rewrite Ha in Ha0. injection Ha0 as <-.
        rewrite lookup_insert_eq. eexists. split; [reflexivity|].
        destruct (can_capture_true _ _ _ Hcan) as (Hs & Hnow & Hamt).
        right. left. split; [exact Hs|]. split; [reflexivity|].
        exists amt, k, env. auto.
      - rewrite lookup_insert_ne by exact Hne. exists a. auto. }
    destruct (key_given k) as [key|].
    + destruct (through_idempotency_world svc key
                  (fun w => _do_capture w aid0 amt (capture_do_env env))
                  [("authorization_id", JString aid0);
                   ("amount", match amt with Some z => JInt z | None => JNull end)]
                  (capture_exec_env env)) as [-> | ->];
        [apply unchanged_step | apply Hop].
    + rewrite directly_world. apply Hop.
  - (* void *)
    unfold void.
    destruct (_authorizations (world svc) !! aid0) as [a0|] eqn:Ha0;
      [|apply unchanged_step].
    destruct (can_void a0) eqn:Hv; simpl; [|apply unchanged_step].
    apply bool_decide_eq_true_1 in Hv.
    intros aid a Ha _.
    destruct (decide (aid0 = aid)) as [-> | Hne].
    + rewrite Ha in Ha0. injection Ha0 as <-.
      rewrite lookup_insert_eq. eexists. split; [reflexivity|].
      right. right. split; [exact Hv|]. split; [reflexivity|].
      exists now. reflexivity.
    + rewrite lookup_insert_ne by exact Hne. exists a. auto.
  - (* create_charge *)
    unfold Gateway.create_charge.
    assert (Hop : forall w,
               auths_step (_authorizations w)
                 (_authorizations
                    (snd (_do_create_charge w tid amt cur capture_now mid desc md
                            (charge_do_env env))))
                 (OpCreateCharge tid amt cur capture_now mid desc md k env)).
    { intros w.
      destruct (do_create_charge_auths w tid amt cur capture_now mid desc md
                  (charge_do_env env)) as [-> | [a0 ->]];
        [apply unchanged_step | apply insert_elsewhere_step; reflexivity]. }
    destruct (key_given k) as [key|].
    + destruct (through_idempotency_world svc key
                  (fun w => _do_create_charge w tid amt cur capture_now mid desc md
                              (charge_do_env env))
                  [("token_id", JString tid); ("amount", amount_json amt);
                   ("currency", JString (currency_value cur));
                   ("capture", JBool capture_now)]
                  (charge_exec_env env)) as [-> | ->];
        [apply unchanged_step | apply Hop].
    + rewrite directly_world. apply Hop.
Qed.

Lemma validate_amount_returns amt z :
  _validate_amount amt = Returned z ->
  MIN_AMOUNT_CENTS <= z <= MAX_AMOUNT_CENTS.
Proof.
  unfold _validate_amount. destruct amt as [z0 | repr]; [|discriminate].
  destruct (Z.ltb_spec z0 MIN_AMOUNT_CENTS); [discriminate|].
  destruct (Z.ltb_spec MAX_AMOUNT_CENTS z0); [discriminate|].
  intros [= <-]. auto.
Qed.

Lemma do_authorize_valid w tid z cur mid md env :
  MIN_AMOUNT_CENTS <= z <= MAX_AMOUNT_CENTS ->
  amounts_valid (_authorizations w) ->
  amounts_valid (_authorizations (snd (_do_authorize w tid z cur mid md env))).
Proof.
  intros Hz Hok. unfold _do_authorize.
  destruct (use_token _ _ _) as [[[token card]|e] ts']; [|exact Hok].
  destruct (negb _); [exact Hok|].
  apply map_Forall_insert_2; [exact Hz | exact Hok].
Qed.

Lemma do_create_charge_valid w tid amt cur capture_now mid desc md env :
  amounts_valid (_authorizations w) ->
  amounts_valid
    (_authorizations
       (snd (_do_create_charge w tid amt cur capture_now mid desc md env))).
Proof.
  intros Hok. unfold _do_create_charge.
  destruct (_validate_amount amt) as [z|e] eqn:Hval; [|exact Hok].
  apply validate_amount_returns in Hval.
  destruct (use_token _ _ _) as [[[token card]|e] ts']; [|exact Hok].
  destruct (negb (approved _)); [exact Hok|].
  destruct (negb capture_now).
  - apply map_Forall_insert_2; [exact Hval | exact Hok].
  - destruct (negb (bank_capture _ _)); exact Hok.
Qed.

Lemma do_capture_valid w aid amt env :
  amounts_valid (_authorizations w) ->
  amounts_valid (_authorizations (snd (_do_capture w aid amt env))).
Proof.
  intros Hok.
  destruct (do_capture_auths w aid amt env) as [-> | (a0 & Ha0 & _ & ->)];
    [exact Hok|].
  apply map_Forall_insert_2; [exact (Hok aid a0 Ha0) | exact Hok].
Qed.

Lemma step_valid svc op :
  amounts_valid (_authorizations (world svc)) ->
  amounts_valid (_authorizations (world (step svc op))).
Proof.
  intros Hok.
  destruct op as [tid amt cur mid md k env | aid0 amt k env | aid0 now
                  | tid amt cur capture_now mid desc md k env]; simpl.
  - unfold Gateway.authorize.
    destruct (_validate_amount amt) as [z|e] eqn:Hval; [|exact Hok].
    apply validate_amount_returns in Hval.
    destruct (key_given k) as [key|].
    + destruct (through_idempotency_world svc key
                  (fun w => _do_authorize w tid z cur mid md (authorize_do_env env))
                  [("token_id", JString tid); ("amount", JInt z);
                   ("currency", JString (currency_value cur))]
                  (authorize_exec_env env)) as [-> | ->];
        [exact Hok | apply do_authorize_valid; assumption].
    + rewrite directly_world. apply do_authorize_valid; assumption.
  - unfold Gateway.capture.
    destruct (key_given k) as [key|].
    + destruct (through_idempotency_world svc key
                  (fun w => _do_capture w aid0 amt (capture_do_env env))
                  [("authorization_id", JString aid0);
                   ("amount", match amt with Some z => JInt z | None => JNull end)]
                  (capture_exec_env env)) as [-> | ->];
        [exact Hok | apply do_capture_valid; exact Hok].
    + rewrite directly_world. apply do_capture_valid. exact Hok.
  - unfold void.
    destruct (_authorizations (world svc) !! aid0) as [a0|] eqn:Ha0;
      [|exact Hok].
    destruct (negb (can_void a0)); [exact Hok|]. simpl.
    apply map_Forall_insert_2; [exact (Hok aid0 a0 Ha0) | exact Hok].
  - unfold Gateway.create_charge.
    destruct (key_given k) as [key|].
    + destruct (through_idempotency_world svc key
                  (fun w => _do_create_charge w tid amt cur capture_now mid desc md
                              (charge_do_env env))
                  [("token_id", JString tid); ("amount", amount_json amt);
                   ("currency", JString (currency_value cur));
                   ("capture", JBool capture_now)]
                  (charge_exec_env env)) as [-> | ->];
        [exact Hok | apply do_create_charge_valid; exact Hok].
    + rewrite directly_world. apply do_create_charge_valid. exact Hok.
Qed.

Lemma run_valid ops : forall svc,
  amounts_valid (_authorizations (world svc)) ->
  amounts_valid (_authorizations (world (run svc ops))).
Proof.
  unfold Gateway.run. induction ops as [|op rest IH]; intros svc Hok; simpl;
    [exact Hok|].
  apply IH. apply step_valid. exact Hok.
Qed.

(** C5. Take a service that starts with no authorization and any sequence
    of calls on it (authorize, capture, void or create_charge, with or
    without an idempotency key), and follow an authorization record under
    its id through one further call that does not store another record
    under that id. The record is still stored afterwards, and its status
    either is unchanged, or went from active to captured by a capture of it
    whose amount is at most amount minus captured_amount at a time not past
    expires_at, or went from active to voided by a void of it. These are
    among the transitions of the specification; in particular a captured,
    voided or expired record keeps its status whatever is called. (The
    third transition of the specification, from active to expired, is
    allowed by it and never taken: no call writes the status expired.) *)
Theorem authorization_status_transitions (svc0 : AuthorizationService)
        (ops : list Op) (op : Op) (aid : string) (a : Authorization) :
  _authorizations (world svc0) = ∅ ->
  _authorizations (world (run svc0 ops)) !! aid = Some a ->
  new_authorization_id op <> Some aid ->
  exists a',
    _authorizations (world (step (run svc0 ops) op)) !! aid = Some a'
    /\ (status a' = status a
        \/ (status a = ACTIVE /\ status a' = CAPTURED
            /\ exists amt k env,
                op = OpCapture aid amt k env
                /\ or_amount amt (amount a) <= amount a - captured_amount a
                /\ can_capture_utcnow (capture_do_env env) <= expires_at a)
        \/ (status a = ACTIVE /\ status a' = VOIDED
            /\ exists now, op = OpVoid aid now))
    /\ (status a = CAPTURED \/ status a = VOIDED \/ status a = EXPIRED ->
        status a' = status a)
    /\ (status a' = EXPIRED -> status a = EXPIRED).
Proof.
  intros Hempty Ha Hnew.
  assert (Hvalid : amounts_valid (_authorizations (world (run svc0 ops)))).
  { apply run_valid. rewrite Hempty. apply map_Forall_empty. }
  destruct (step_auths (run svc0 ops) op aid a Ha Hnew) as (a' & Ha' & Hcases).
  exists a'. split; [exact Ha'|].
  assert (Hcases' :
            status a' = status a
            \/ (status a = ACTIVE /\ status a' = CAPTURED
                /\ exists amt k env,
                    op = OpCapture aid amt k env
                    /\ or_amount amt (amount a) <= amount a - captured_amount a
                    /\ can_capture_utcnow (capture_do_env env) <= expires_at a)
            \/ (status a = ACTIVE /\ status a' = VOIDED
                /\ exists now, op = OpVoid aid now)).
  { destruct Hcases as [H | [(Hs & Hs' & amt & k & env & Hop & Hamt & Hnow)
                            | (Hs & Hs' & Hv)]];
      [left; exact H | | right; right; auto].
    right; left. split; [exact Hs|]. split; [exact Hs'|].
    exists amt, k, env. split; [exact Hop|]. split; [|exact Hnow].
    destruct Hamt as [Hzero | Hle]; [|exact Hle].
    exfalso. pose proof (Hvalid aid a Ha) as [Hmin _]. simpl in Hmin.
    unfold MIN_AMOUNT_CENTS in Hmin. unfold or_amount in Hzero.
    destruct amt as [x|]; [|lia].
    destruct (Z.eqb_spec x 0); lia. }
  split; [exact Hcases'|]. split.
  - intros Hclosed.
    destruct Hcases' as [H | [(H & _) | (H & _)]]; [exact H | |];
      destruct Hclosed as [Hc | [Hc | Hc]]; congruence.
  - intros He. destruct Hcases' as [H | [(_ & H & _) | (_ & H & _)]];
      congruence.
Qed.

(** Without idempotency key, a capture that passes [can_capture] sets the
    status captured and records the captured amount. *)
Lemma capture_active_captures svc aid a amt env :
  _authorizations (world svc) !! aid = Some a ->
  can_capture a (or_amount amt (amount a))
    (can_capture_utcnow (capture_do_env env)) = true ->
  _authorizations (world (snd (capture svc aid amt None env))) !! aid
  = Some (mark_captured a (or_amount amt (amount a))
            (captured_utcnow (capture_do_env env))).
Proof.
  intros Ha Hcan. unfold Gateway.capture. simpl. rewrite directly_world.
  unfold _do_capture. rewrite Ha, Hcan. simpl. apply lookup_insert_eq.
Qed.

(** A void of an active authorization sets the status voided, whatever the
    clock reads. *)
Lemma void_active_voids svc aid a now :
  _authorizations (world svc) !! aid = Some a ->
  status a = ACTIVE ->
  void svc aid now
  = (Returned (mark_voided a now),
     mkAuthorizationService (idempotency svc)
       (mkWorld (tokenization (world svc))
          (<[aid := mark_voided a now]> (_authorizations (world svc)))
          (_charges (world svc)) (bank_calls (world svc)))).
Proof.
  intros Ha Hs. unfold void, can_void. rewrite Ha.
  rewrite bool_decide_eq_true_2 by exact Hs. reflexivity.
Qed.

Lemma authorize_invalid_amount svc tid amt cur mid md k env e :
  _validate_amount amt = Raised e ->
  authorize svc tid amt cur mid md k env = (Raised e, svc).
Proof. intros H. unfold Gateway.authorize. rewrite H. reflexivity. Qed.

Lemma do_create_charge_invalid_amount w tid amt cur capture_now mid desc md env e :
  _validate_amount amt = Raised e ->
  _do_create_charge w tid amt cur capture_now mid desc md env = (Raised e, w).
Proof. intros H. unfold _do_create_charge. rewrite H. reflexivity. Qed.

(** C7, where the code departs from it. [authorize] validates the amount
    before it reaches the idempotency service: an invalid amount raises and
    leaves the service as it was. [create_charge] validates inside the
    operation that it hands to [execute]: with an idempotency key whose
    record is absent and whose lock is free, an invalid amount raises the
    same error and leaves the world as it was (no token used, no bank call),
    but a failed record stays under the key, and a later [create_charge]
    with that key and another amount, whose parameters hash differently,
    raises [IdempotencyConflict]. *)
Theorem create_charge_invalid_amount_consumes_key
        (svc : AuthorizationService) (tid : string) (amt amt' : AmountArg)
        (cur : Currency) (capture_now : bool) (mid : string)
        (desc : option string) (md : option Metadata) (k : string)
        (env env' : ChargeAmbient) (e : Exn) :
  _validate_amount amt = Raised e ->
  key_given (Some k) = Some k ->
  Idempotency.store (idempotency svc) !! k = None ->
  Idempotency.lock_held (Idempotency._locks (idempotency svc)) k = false ->
  Idempotency.get_utcnow (charge_exec_env env')
  <= Idempotency.expires_utcnow (charge_exec_env env) + timedelta_hours 24 ->
  _hash_params (create_charge_params tid amt cur capture_now)
  <> _hash_params (create_charge_params tid amt' cur capture_now) ->
  fst (create_charge svc tid amt cur capture_now mid desc md (Some k) env)
  = Raised e
  /\ world (snd (create_charge svc tid amt cur capture_now mid desc md (Some k) env))
     = world svc
  /\ (exists record,
         Idempotency.store
           (idempotency
              (snd (create_charge svc tid amt cur capture_now mid desc md
                      (Some k) env))) !! k = Some record
         /\ Idempotency.status record = Idempotency.FAILED)
  /\ (exists msg,
         fst (create_charge
                (snd (create_charge svc tid amt cur capture_now mid desc md
                        (Some k) env))
                tid amt' cur capture_now mid desc md (Some k) env')
         = Raised (IdempotencyConflict msg))
  /\ (forall aenv,
         authorize svc tid amt cur mid md (Some k) aenv = (Raised e, svc)).
Proof.
  intros Hinvalid Hkey Hfresh Hlock Hnow Hhash.
  assert (Hfirst :
            create_charge svc tid amt cur capture_now mid desc md (Some k) env
            = (Raised e,
               mkAuthorizationService
                 (Idempotency.mkService
                    (<[k := Idempotency.final_record _hash_params _serialize_result
                              k (create_charge_params tid amt cur capture_now)
                              (charge_exec_env env) (Raised e)]>
                       (Idempotency.store (idempotency svc)))
                    (Idempotency._get_lock (Idempotency._locks (idempotency svc)) k))
                 (world svc))).
  { unfold Gateway.create_charge, Gateway.through_idempotency. rewrite Hkey.
    rewrite (IdempotencyFacts.execute_fresh _hash_params _serialize_result
               (idempotency svc) k _ _ _ _ Hfresh Hlock).
    rewrite (do_create_charge_invalid_amount _ _ _ _ _ _ _ _ _ _ Hinvalid).
    reflexivity. }
  rewrite Hfirst. cbn [fst snd world idempotency Idempotency.store].
  split; [reflexivity|]. split; [reflexivity|].
  split; [eexists; split; [apply lookup_insert_eq | reflexivity]|].
  split; [|intros aenv; apply authorize_invalid_amount; exact Hinvalid].
  unfold Gateway.create_charge, Gateway.through_idempotency. rewrite Hkey.
  cbn [idempotency world].
  erewrite (IdempotencyFacts.execute_existing _hash_params _serialize_result);
    [| cbn [Idempotency.store]; apply lookup_insert_eq | exact Hnow].
  unfold Idempotency._handle_existing_record.
  cbn [Idempotency.final_record Idempotency.request_hash Idempotency.key].
  apply String.eqb_neq in Hhash.
  change (create_charge_params tid amt' cur capture_now)
    with [("token_id", JString tid); ("amount", amount_json amt');
          ("currency", JString (currency_value cur)); ("capture", JBool capture_now)]
    in Hhash.
  rewrite Hhash. simpl. eauto.
Qed.

End ServiceFacts.

Lemma create_charge_invalid_amount_consumes_key_witness :
  fst (create_charge demo_hash demo_service "tok_1" (IntAmount 10) USD true
         "merch_123" None None (Some "key_1") demo_charge_env)
  = Raised (InvalidAmountError "Amount must be at least 50 cents")
  /\ exists msg,
      fst (create_charge demo_hash
             (snd (create_charge demo_hash demo_service "tok_1" (IntAmount 10) USD
                     true "merch_123" None None (Some "key_1") demo_charge_env))
             "tok_1" (IntAmount 1000) USD true "merch_123" None None
             (Some "key_1") demo_charge_env)
      = Raised (IdempotencyConflict msg).
Proof.
  destruct (create_charge_invalid_amount_consumes_key demo_hash demo_service
              "tok_1" (IntAmount 10) (IntAmount 1000) USD true "merch_123" None
              None "key_1" demo_charge_env demo_charge_env
              (InvalidAmountError "Amount must be at least 50 cents"))
    as (Hraise & _ & _ & Hconflict & _).
  - reflexivity.
  - reflexivity.
  - reflexivity.
  - reflexivity.
  - vm_compute. discriminate.
  - vm_compute. discriminate.
  - split; [exact Hraise | exact Hconflict].
Defined.

Lemma authorization_status_transitions_witness :
  exists a',
    _authorizations
      (world (step demo_hash
                (run demo_hash new_service
                   [OpAuthorize "tok_1" (IntAmount 5000) USD "merch_123" None None
                      demo_authorize_env])
                (OpCapture "auth_r1" (Some 3000) None timely_capture_env)))
      !! "auth_r1" = Some a'
    /\ status a' = CAPTURED.
Proof.
  destruct (authorization_status_transitions demo_hash new_service
              [OpAuthorize "tok_1" (IntAmount 5000) USD "merch_123" None None
                 demo_authorize_env]
              (OpCapture "auth_r1" (Some 3000) None timely_capture_env)
              "auth_r1"
              (mkAuthorization "auth_r1" 5000 USD ACTIVE "4242" VISA
                 (at_hour 2025 6 2 12)
                 (at_hour 2025 6 2 12 + timedelta_days AUTH_HOLD_DAYS)
                 None None 0 (Some "A1B2C3") "merch_123" []))
    as (a' & Ha' & _).
  - reflexivity.
  - vm_compute. reflexivity.
  - discriminate.
  - exists a'. split; [exact Ha'|].
    vm_compute in Ha'. injection Ha' as <-. reflexivity.
Defined.

(** No call writes the status expired: a capture attempted after
    [expires_at] raises "Authorization has expired" and leaves the status
    active, and a void attempted after [expires_at] sets the status
    voided. *)
Lemma late_capture_stays_active :
  expires_at active_auth < can_capture_utcnow (capture_do_env late_capture_env)
  /\ fst (capture demo_hash demo_service "auth_1" None None late_capture_env)
     = Raised (CaptureError "Authorization has expired")
  /\ (status
        <$> _authorizations
              (world (snd (capture demo_hash demo_service "auth_1" None None
                             late_capture_env))) !! "auth_1")
     = Some ACTIVE
  /\ (status
        <$> _authorizations
              (world (snd (void demo_service "auth_1" (at_hour 2025 6 9 12))))
              !! "auth_1")
     = Some VOIDED.
Proof. repeat split; vm_compute; reflexivity. Qed.

End GatewayFacts.

(* ===================================================================== *)
(** * Further facts about the issuing bank *)
(* ===================================================================== *)

Module IssuerMoreFacts.
Import Issuer IssuerOps IssuerMore.

Lemma dict_get_set_same {V} k (v : V) d : dict_get k (dict_set k v d) = Some v.
Proof.
  induction d as [|[k' v'] rest IH]; simpl.
  - rewrite String.eqb_refl. reflexivity.
  - destruct (String.eqb k k') eqn:E; simpl; rewrite E; [reflexivity | exact IH].
Qed.

Lemma dict_get_set_other {V} k k' (v : V) d :
  k' <> k -> dict_get k' (dict_set k v d) = dict_get k' d.
Proof.
  intros Hne. induction d as [|[k0 v0] rest IH]; simpl.
  - apply String.eqb_neq in Hne. rewrite Hne. reflexivity.
  - destruct (String.eqb_spec k k0) as [-> | Hk]; simpl.
    + apply String.eqb_neq in Hne. rewrite Hne. reflexivity.
    + destruct (String.eqb k' k0); [reflexivity | exact IH].
Qed.



Ltac declined_case :=
  right; left; eexists; eexists; reflexivity.

Lemma authorize_cases (b : IssuingBank) (request : AuthorizationRequest)
      (env : Ambient) :
  (exists e, authorize b request env = (Raised e, b))
  \/ (exists reason cvv_res,
        authorize b request env = (Returned (declined request reason cvv_res), b))
  \/ (exists account,
        dict_get (req_card_number request) (_accounts b) = Some account
        /\ ~ barred account
        /\ req_cvv request = cvv account
        /\ amount request <= single_transaction_limit account
        /\ amount request <= available account
        /\ Z.of_nat (length (recent_authorizations b (req_card_number request)
                               (now_velocity env)))
           < velocity_limit account
        /\ authorize b request env
           = (Returned (mkResponse (request_id request) true
                          (Some (token_hex env)) None "Y" "M"),
              approved_bank b account request env)).
Proof.
  unfold authorize.
  destruct (dict_get _ _) as [account|] eqn:Hget; [|declined_case].
  repeat (case_decide; [declined_case|]).
  destruct (datetime _ _ _) as [exp_date|]; [|left; eexists; reflexivity].
  destruct (datetime_add _ _) as [grace_end|]; [|left; eexists; reflexivity].
  destruct (grace_end <? now_expiry env); [declined_case|].
  destruct (String.eqb_spec (req_cvv request) (cvv account)) as [Hcvv | Hcvv];
    simpl; [|declined_case].
  destruct (single_transaction_limit account <? amount request) eqn:Hlim;
    [declined_case|].
  destruct (available account <? amount request) eqn:Hfit; [declined_case|].
  destruct (_check_velocity _ _ _ _) eqn:Hvel; simpl; [|declined_case].
  right; right. exists account. apply Z.ltb_ge in Hlim, Hfit.
  unfold _check_velocity in Hvel. apply Z.ltb_lt in Hvel.
  repeat split; try assumption; try reflexivity.
  unfold barred. tauto.
Qed.


Lemma void_scan_after_hold rid amt card accts :
  forall account,
    dict_get card accts = Some account ->
    no_holder accts rid ->
    void_scan rid
      (dict_set card (set_holds account (<[rid := amt]> (holds account))) accts)
    = (true, accts).
Proof.
  induction accts as [|[k a] rest IH]; intros account Hget Hno; simpl in *;
    [discriminate|].
  assert (Ha : holds a !! rid = None)
    by (apply (Hno (k, a)); apply elem_of_cons; auto).
  assert (Hrest : no_holder rest rid)
    by (intros p Hp; apply Hno; apply elem_of_cons; auto).
  destruct (String.eqb card k) eqn:E; simpl.
  - injection Hget as <-. rewrite lookup_insert_eq.
    rewrite delete_insert_id by exact Ha. apply String.eqb_eq in E as ->.
    destruct a; reflexivity.
  - rewrite Ha. rewrite (IH account Hget Hrest). reflexivity.
Qed.

(** X3. An approved authorization followed by the void of its request id
    gives back the accounts as they were before the authorization, when no
    account held anything under that id before. *)
Theorem authorize_then_void (b : IssuingBank) (request : AuthorizationRequest)
        (env : Ambient) (resp : AuthorizationResponse) :
  no_holder (_accounts b) (request_id request) ->
  fst (authorize b request env) = Returned resp ->
  approved resp = true ->
  fst (void (snd (authorize b request env)) (request_id request)) = true
  /\ _accounts (snd (void (snd (authorize b request env)) (request_id request)))
     = _accounts b.
Proof.
  intros Hno Hresp Happ.
  destruct (authorize_cases b request env)
    as [[e He] | [(reason & cvv_res & He) | (account & Hget & _ & _ & _ & _ & _
                                             & He)]];
    rewrite He in Hresp |- *; simpl in Hresp.
  - discriminate Hresp.
  - injection Hresp as <-. discriminate Happ.
  - unfold void, approved_bank. simpl.
    rewrite (void_scan_after_hold _ _ _ _ account Hget Hno). simpl. auto.
Qed.

Lemma authorize_then_void_witness :
  fst (void (snd (authorize (init "Demo Bank")
                    (demo_request "auth_001" "4242424242424242" 50000) demo_env))
         "auth_001") = true
  /\ _accounts (snd (void (snd (authorize (init "Demo Bank")
                                 (demo_request "auth_001" "4242424242424242" 50000)
                                 demo_env)) "auth_001"))
     = _accounts (init "Demo Bank").
Proof.
  apply (authorize_then_void (init "Demo Bank")
           (demo_request "auth_001" "4242424242424242" 50000) demo_env
           (mkResponse "auth_001" true (Some "A1B2C3") None "Y" "M")).
  - intros p Hp. unfold init, test_accounts in Hp. simpl in Hp.
    repeat (apply elem_of_cons in Hp as [-> | Hp]; [reflexivity|]).
    inversion Hp.
  - vm_compute. reflexivity.
  - reflexivity.
Defined.

(** X4. [refund] of an unknown card returns [False] and changes nothing. For
    a known card it returns [True], raises the available funds of the card by
    the amount whatever its holds are, and leaves the holds, the other cards
    and the velocity history as they were. *)
Theorem refund_spec (b : IssuingBank) (card : string) (amt : Z) :
  (dict_get card (_accounts b) = None -> refund b card amt = (false, b))
  /\ (forall a,
        dict_get card (_accounts b) = Some a ->
        fst (refund b card amt) = true
        /\ (exists a',
               dict_get card (_accounts (snd (refund b card amt))) = Some a'
               /\ available a' = available a + amt
               /\ holds a' = holds a
               /\ same_card a a')
        /\ (forall other,
               other <> card ->
               dict_get other (_accounts (snd (refund b card amt)))
               = dict_get other (_accounts b))
        /\ _transaction_history (snd (refund b card amt))
           = _transaction_history b).
Proof.
  unfold refund. split.
  - intros ->. reflexivity.
  - intros a ->. simpl. split; [reflexivity|]. split; [|split].
    + eexists. split; [apply dict_get_set_same|].
      unfold available, available_credit, available_balance, same_card.
      destruct (decide (account_type a = CREDIT)) as [Hc | Hc]; simpl;
        destruct (decide (account_type a = CREDIT)); try contradiction;
        repeat split; lia.
    + intros other Hne. apply dict_get_set_other. exact Hne.
    + reflexivity.
Qed.

Lemma capture_scan_after_hold rid amt amt' card accts :
  forall account,
    dict_get card accts = Some account ->
    no_holder accts rid ->
    capture_scan rid amt'
      (dict_set card (set_holds account (<[rid := amt]> (holds account))) accts)
    = if amt <? amt'
      then (false,
            dict_set card (set_holds account (<[rid := amt]> (holds account)))
              accts)
      else (true, dict_set card (apply_charge account amt') accts).
Proof.
  induction accts as [|[k a] rest IH]; intros account Hget Hno; simpl in *;
    [discriminate|].
  assert (Ha : holds a !! rid = None)
    by (apply (Hno (k, a)); apply elem_of_cons; auto).
  assert (Hrest : no_holder rest rid)
    by (intros p Hp; apply Hno; apply elem_of_cons; auto).
  destruct (String.eqb card k) eqn:E; simpl.
  - injection Hget as <-. rewrite lookup_insert_eq.
    destruct (amt <? amt'); [reflexivity|].
    rewrite delete_insert_id by exact Ha.
    destruct a; reflexivity.
  - rewrite Ha. rewrite (IH account Hget Hrest).
    destruct (amt <? amt'); reflexivity.
Qed.

(** X5. After an approved authorization under a fresh request id, a capture
    of at most the authorized amount succeeds: the hold is released in full
    and only the captured amount is charged, so the available funds end at
    what they were before the authorization minus the captured amount. A
    capture of more than the authorized amount fails and leaves the hold in
    place. *)
Theorem authorize_then_capture (b : IssuingBank) (request : AuthorizationRequest)
        (env : Ambient) (resp : AuthorizationResponse) (amt : Z) :
  no_holder (_accounts b) (request_id request) ->
  fst (authorize b request env) = Returned resp ->
  approved resp = true ->
  exists account,
    dict_get (req_card_number request) (_accounts b) = Some account
    /\ (amt <= amount request ->
        fst (capture (snd (authorize b request env)) (request_id request) amt)
        = true
        /\ exists account',
            dict_get (req_card_number request)
              (_accounts (snd (capture (snd (authorize b request env))
                                 (request_id request) amt)))
            = Some account'
            /\ holds account' = holds account
            /\ available account' = available account - amt)
    /\ (amount request < amt ->
        capture (snd (authorize b request env)) (request_id request) amt
        = (false, snd (authorize b request env))).
Proof.
  intros Hno Hresp Happ.
  destruct (authorize_cases b request env)
    as [[e He] | [(reason & cvv_res & He) | (account & Hget & _ & _ & _ & _ & _
                                             & He)]];
    rewrite He in Hresp |- *; simpl in Hresp.
  - discriminate Hresp.
  - injection Hresp as <-. discriminate Happ.
  - exists account. split; [exact Hget|].
    unfold capture, approved_bank. simpl.
    rewrite (capture_scan_after_hold _ _ _ _ _ account Hget Hno).
    split; intros Hamt.
    + destruct (Z.ltb_spec (amount request) amt) as [|_]; [lia|]. simpl.
      split; [reflexivity|].
      exists (apply_charge account amt).
      split; [apply dict_get_set_same|].
      rewrite IssuerFacts.available_apply_charge, IssuerFacts.holds_apply_charge.
      split; [reflexivity | lia].
    + destruct (Z.ltb_spec (amount request) amt) as [_|]; [|lia]. reflexivity.
Qed.

Lemma authorize_then_capture_witness :
  exists account,
    dict_get "4242424242424242" (_accounts (init "Demo Bank")) = Some account
    /\ (3000 <= 5000 ->
        fst (capture (snd (authorize (init "Demo Bank")
                             (demo_request "auth_001" "4242424242424242" 5000)
                             demo_env)) "auth_001" 3000) = true
        /\ exists account',
            dict_get "4242424242424242"
              (_accounts (snd (capture (snd (authorize (init "Demo Bank")
                                 (demo_request "auth_001" "4242424242424242" 5000)
                                 demo_env)) "auth_001" 3000)))
            = Some account'
            /\ holds account' = holds account
            /\ available account' = available account - 3000)
    /\ (5000 < 3000 ->
        capture (snd (authorize (init "Demo Bank")
                        (demo_request "auth_001" "4242424242424242" 5000)
                        demo_env)) "auth_001" 3000
        = (false, snd (authorize (init "Demo Bank")
                         (demo_request "auth_001" "4242424242424242" 5000)
                         demo_env))).
Proof.
  apply (authorize_then_capture (init "Demo Bank")
           (demo_request "auth_001" "4242424242424242" 5000) demo_env
           (mkResponse "auth_001" true (Some "A1B2C3") None "Y" "M") 3000).
  - intros p Hp. unfold init, test_accounts in Hp. simpl in Hp.
    repeat (apply elem_of_cons in Hp as [-> | Hp]; [reflexivity|]).
    inversion Hp.
  - vm_compute. reflexivity.
  - reflexivity.
Defined.

End IssuerMoreFacts.

(* ===================================================================== *)
(** * Further facts about the card network *)
(* ===================================================================== *)

Module NetworkMoreFacts.
Import Network NetworkMore.

Lemma set_issuer_same net name issuer :
  _issuers net !! name = Some issuer -> set_issuer net name issuer = net.
Proof.
  intros H. unfold set_issuer. rewrite (insert_id _ _ _ H).
  destruct net; reflexivity.
Qed.

Lemma int_true_div_raises p q e :
  int_true_div p q = Raised e -> e = OverflowError.
Proof.
  unfold int_true_div. destruct (p =? 0); [discriminate|].
  destruct (scaled _ _ _) as [n' q'].
  destruct (_ || _); [intros [= <-]; reflexivity | discriminate].
Qed.

(** The transaction that [route_authorization] logs. *)
Local Abbreviation logged net args env code status reason i a :=
  (mkNetworkTransaction (routed_id env) (network_type net)
     (arg_acquirer_id args) "default" (arg_amount args) (arg_currency args)
     code status (utcnow env)
     (mkMetadata (arg_merchant_id args) reason i a)).

Lemma route_cases net args env :
  (exists e, route_authorization net args env = (Raised e, net))
  \/ (exists err, route_authorization net args env = (Returned (RouteError err), net))
  \/ (detect_network (arg_card_number args) = Returned (Some (network_type net))
      /\ exists issuer,
          _issuers net !! "default" = Some issuer
          /\ ((exists reason cvv_res i a,
                  fee (arg_amount args) (interchange_fee_bps net) = Returned i
                  /\ fee (arg_amount args) (assessment_fee_bps net) = Returned a
                  /\ route_authorization net args env
                     = (Returned (RouteResponse false (routed_id env) None
                                    (Some reason) "Y" cvv_res i a (i + a)),
                        set_transaction net (routed_id env)
                          (logged net args env None "declined" (Some reason) i a)))
              \/ (exists account,
                     dict_get (arg_card_number args) (Issuer._accounts issuer)
                     = Some account
                     /\ arg_amount args <= Issuer.available account
                     /\ ((exists i a,
                             fee (arg_amount args) (interchange_fee_bps net)
                             = Returned i
                             /\ fee (arg_amount args) (assessment_fee_bps net)
                                = Returned a
                             /\ route_authorization net args env
                                = (Returned
                                     (RouteResponse true (routed_id env)
                                        (Some (Issuer.token_hex (issuer_env env)))
                                        None "Y" "M" i a (i + a)),
                                   set_transaction
                                     (set_issuer net "default"
                                        (IssuerOps.approved_bank issuer account
                                           (routed_request args env)
                                           (issuer_env env)))
                                     (routed_id env)
                                     (logged net args env
                                        (Some (Issuer.token_hex (issuer_env env)))
                                        "approved" None i a)))
                         \/ ((fee (arg_amount args) (interchange_fee_bps net)
                              = Raised OverflowError
                              \/ fee (arg_amount args) (assessment_fee_bps net)
                                 = Raised OverflowError)
                             /\ route_authorization net args env
                                = (Raised OverflowError,
                                   set_issuer net "default"
                                     (IssuerOps.approved_bank issuer account
                                        (routed_request args env)
                                        (issuer_env env)))))))).
Proof.
  unfold route_authorization.
  destruct (detect_network _) as [detected|e]; [|left; eexists; reflexivity].
  case_bool_decide as Hd; simpl; [|right; left; eexists; reflexivity].
  destruct (_issuers net !! "default") as [issuer|] eqn:Hi;
    [|right; left; eexists; reflexivity].
  fold (routed_id env). fold (routed_request args env).
  pose proof (int_true_div_raises (arg_amount args * interchange_fee_bps net)
                10000) as Hi_raises.
  pose proof (int_true_div_raises (arg_amount args * assessment_fee_bps net)
                10000) as Ha_raises.
  fold (fee (arg_amount args) (interchange_fee_bps net)) in Hi_raises.
  fold (fee (arg_amount args) (assessment_fee_bps net)) in Ha_raises.
  destruct (IssuerMoreFacts.authorize_cases issuer (routed_request args env)
              (issuer_env env))
    as [[e ->] | [(reason & cvv_res & ->) | (account & Hget & _ & _ & _ & Hfit & _
                                             & ->)]].
  - left. exists e. rewrite (set_issuer_same _ _ _ Hi). reflexivity.
  - rewrite (set_issuer_same _ _ _ Hi).
    destruct (fee _ (interchange_fee_bps net)) as [i|e];
      [|left; eexists; reflexivity].
    destruct (fee _ (assessment_fee_bps net)) as [a|e];
      [|left; eexists; reflexivity].
    right; right. split; [congruence|]. exists issuer. split; [reflexivity|].
    left. exists reason, cvv_res, i, a. auto.
  - right; right. split; [congruence|]. exists issuer. split; [reflexivity|].
    right. exists account. split; [exact Hget|]. split; [exact Hfit|].
    destruct (fee _ (interchange_fee_bps net)) as [i|e].
    + destruct (fee _ (assessment_fee_bps net)) as [a|e].
      * left. exists i, a. auto.
      * right. rewrite (Ha_raises e eq_refl). auto.
    + right. rewrite (Hi_raises e eq_refl). auto.
Qed.

(** The fees of the demo network on 100 dollars; the fee is truncated
    towards zero; from about 2^40 on, the float division no longer gives
    the integer quotient; and a fee of 2^1024 or more cannot be computed. *)
Example fee_values :
  fee 10000 200 = Returned 200
  /\ fee 10000 13 = Returned 13
  /\ fee 5000 13 = Returned 6
  /\ fee (-5000) 13 = Returned (-6)
  /\ fee 1000000000006923 13 = Returned 1300000000009
  /\ (1000000000006923 * 13) / 10000 = 1300000000008
  /\ fee (- 10 ^ 400) 200 = Raised OverflowError.
Proof. repeat split; vm_compute; reflexivity. Qed.

(** An amount of [-10^400] passes every check of the issuer, which stores
    the hold; the interchange fee then overflows, and the exception leaves
    the hold in place with no transaction logged. *)
Example route_overflow_keeps_hold :
  let r := route_authorization (init VISA)
             (demo_args "4242424242424242" (- 10 ^ 400)) (demo_env "abc") in
  fst r = Raised OverflowError
  /\ _transactions (snd r) = ∅
  /\ (exists issuer account,
         _issuers (snd r) !! "default" = Some issuer
         /\ dict_get "4242424242424242" (Issuer._accounts issuer) = Some account
         /\ Issuer.holds account !! "nt_abc" = Some (- 10 ^ 400)).
Proof.
  split; [vm_compute; reflexivity|]. split; [vm_compute; reflexivity|].
  eexists _, _. split; [vm_compute; reflexivity|].
  split; vm_compute; reflexivity.
Qed.

(** X6. [route_authorization] logs a transaction only when it returns a
    response, and an [error] result leaves the network as it was. An
    exception leaves the log as it was; it leaves the whole network as it
    was unless it is the [OverflowError] of a fee computation that follows
    an approval by the issuer: then the issuer keeps the hold of the
    amount under the generated id although no transaction is logged. A
    response means that the card's detected brand is the network's own; it
    carries the generated transaction id, the two fees
    [int(amount * bps / 10000)] and their sum as total; the transaction is
    logged under that id with the status [approved] or [declined] according
    to the response, and no other log entry changes. A decline leaves the
    issuers as they were; an approval leaves a hold of the amount on the
    card at the default issuer under the transaction id. *)
Theorem route_authorization_outcome (net : CardNetwork) (args : RouteArgs)
        (env : RouteAmbient) :
  (forall e,
      fst (route_authorization net args env) = Raised e ->
      _transactions (routed net args env) = _transactions net
      /\ (routed net args env = net
          \/ (e = OverflowError
              /\ (fee (arg_amount args) (interchange_fee_bps net)
                  = Raised OverflowError
                  \/ fee (arg_amount args) (assessment_fee_bps net)
                     = Raised OverflowError)
              /\ exists issuer account,
                  _issuers (routed net args env) !! "default" = Some issuer
                  /\ dict_get (arg_card_number args) (Issuer._accounts issuer)
                     = Some account
                  /\ Issuer.holds account !! routed_id env
                     = Some (arg_amount args))))
  /\ (forall err,
        fst (route_authorization net args env) = Returned (RouteError err) ->
        routed net args env = net)
  /\ (forall success tid code reason avs cvv i a total,
        fst (route_authorization net args env)
        = Returned (RouteResponse success tid code reason avs cvv i a total) ->
        detect_network (arg_card_number args) = Returned (Some (network_type net))
        /\ tid = routed_id env
        /\ fee (arg_amount args) (interchange_fee_bps net) = Returned i
        /\ fee (arg_amount args) (assessment_fee_bps net) = Returned a
        /\ total = i + a
        /\ (exists t,
               _transactions (routed net args env) !! tid = Some t
               /\ status t = (if success then "approved" else "declined")
               /\ amount t = arg_amount args
               /\ auth_code t = code
               /\ issuer_id t = "default")
        /\ (forall other,
               other <> tid ->
               _transactions (routed net args env) !! other
               = _transactions net !! other)
        /\ (success = false ->
            _issuers (routed net args env) = _issuers net
            /\ code = None /\ reason <> None)
        /\ (success = true ->
            exists issuer account,
              _issuers (routed net args env) !! "default" = Some issuer
              /\ dict_get (arg_card_number args) (Issuer._accounts issuer)
                 = Some account
              /\ Issuer.holds account !! tid = Some (arg_amount args))).
Proof.
  unfold routed.
  destruct (route_cases net args env)
    as [[e ->] | [[err ->] | (Hd & issuer & Hi
                              & [(reason & cvv_res & i & a & Hfi & Hfa & ->)
                                | (account & Hget & Hfit
                                   & [(i & a & Hfi & Hfa & ->)
                                     | (Hover & ->)])])]]; simpl.
  - split; [auto|]. split; discriminate.
  - split; [discriminate|]. split; [reflexivity | discriminate].
  - split; [discriminate|]. split; [discriminate|].
    intros success tid code reason' avs cvv i' a' total
           [= <- <- <- <- <- <- <- <- <-].
    split; [exact Hd|]. split; [reflexivity|].
    split; [exact Hfi|]. split; [exact Hfa|]. split; [reflexivity|].
    split; [|split; [|split; [|discriminate]]].
    + eexists. rewrite lookup_insert_eq. split; [reflexivity|]. simpl. auto.
    + intros other Hne. apply lookup_insert_ne. congruence.
    + intros _. repeat split. discriminate.
  - split; [discriminate|]. split; [discriminate|].
    intros success tid code reason' avs cvv i' a' total
           [= <- <- <- <- <- <- <- <- <-].
    split; [exact Hd|]. split; [reflexivity|].
    split; [exact Hfi|]. split; [exact Hfa|]. split; [reflexivity|].
    split; [|split; [|split; [discriminate|]]].
    + eexists. rewrite lookup_insert_eq. split; [reflexivity|]. simpl. auto.
    + intros other Hne. apply lookup_insert_ne. congruence.
    + intros _. eexists. eexists. rewrite lookup_insert_eq.
      split; [reflexivity|]. unfold IssuerOps.approved_bank. simpl.
      split; [apply IssuerMoreFacts.dict_get_set_same|].
      simpl. apply lookup_insert_eq.
  - split; [|split; discriminate].
    intros e [= <-]. split; [reflexivity|]. right.
    split; [reflexivity|]. split; [exact Hover|].
    eexists. eexists. rewrite lookup_insert_eq.
    split; [reflexivity|]. unfold IssuerOps.approved_bank. simpl.
    split; [apply IssuerMoreFacts.dict_get_set_same|].
    simpl. apply lookup_insert_eq.
Qed.

(** X7. After an approved [route_authorization] whose transaction id the
    default issuer did not hold before, a network capture of at most the
    authorized amount succeeds and marks the transaction [captured]; a
    capture of more fails with [Capture failed] and leaves the log, with the
    transaction still [approved], as it was. *)
Theorem route_then_capture (net : CardNetwork) (args : RouteArgs)
        (env : RouteAmbient) (r : RouteResult) (amt : Z) :
  unheld net (routed_id env) ->
  fst (route_authorization net args env) = Returned r ->
  route_success r = true ->
  (amt <= arg_amount args ->
   fst (capture (routed net args env) (routed_id env) amt) = NetCaptured amt
   /\ exists t,
       _transactions (snd (capture (routed net args env) (routed_id env) amt))
         !! routed_id env = Some t
       /\ status t = "captured")
  /\ (arg_amount args < amt ->
      fst (capture (routed net args env) (routed_id env) amt)
      = NetError "Capture failed"
      /\ _transactions (snd (capture (routed net args env) (routed_id env) amt))
         = _transactions (routed net args env)).
Proof.
  intros Hfresh Hr Hok. unfold routed.
  destruct (route_cases net args env)
    as [[e He] | [[err He] | (Hd & issuer & Hi
                              & [(reason & cvv_res & i & a & _ & _ & He)
                                | (account & Hget & Hfit
                                   & [(i & a & _ & _ & He) | (_ & He)])])]];
    rewrite He in Hr |- *; simpl in Hr; try discriminate Hr;
    try (injection Hr as <-; discriminate Hok).
  clear Hr Hok He. simpl. unfold capture. simpl.
  rewrite lookup_insert_eq. simpl. rewrite lookup_insert_eq.
  unfold Issuer.capture, IssuerOps.approved_bank. simpl.
  rewrite (IssuerMoreFacts.capture_scan_after_hold _ _ _ _ _ account Hget
             (Hfresh issuer Hi)).
  split; intros Hamt.
  - destruct (Z.ltb_spec (arg_amount args) amt) as [|_]; [lia|]. simpl.
    split; [reflexivity|]. eexists. rewrite lookup_insert_eq.
    split; reflexivity.
  - destruct (Z.ltb_spec (arg_amount args) amt) as [_|]; [|lia]. simpl.
    split; reflexivity.
Qed.

Lemma route_then_capture_witness :
  (4000 <= 10000 ->
   fst (capture (routed (init VISA) (demo_args "4242424242424242" 10000)
                   (demo_env "abc")) (routed_id (demo_env "abc")) 4000)
   = NetCaptured 4000
   /\ exists t,
       _transactions (snd (capture (routed (init VISA)
                                      (demo_args "4242424242424242" 10000)
                                      (demo_env "abc"))
                             (routed_id (demo_env "abc")) 4000))
         !! routed_id (demo_env "abc") = Some t
       /\ status t = "captured")
  /\ (10000 < 4000 ->
      fst (capture (routed (init VISA) (demo_args "4242424242424242" 10000)
                      (demo_env "abc")) (routed_id (demo_env "abc")) 4000)
      = NetError "Capture failed"
      /\ _transactions (snd (capture (routed (init VISA)
                                        (demo_args "4242424242424242" 10000)
                                        (demo_env "abc"))
                               (routed_id (demo_env "abc")) 4000))
         = _transactions (routed (init VISA) (demo_args "4242424242424242" 10000)
                            (demo_env "abc"))).
Proof.
  apply (route_then_capture (init VISA) (demo_args "4242424242424242" 10000)
           (demo_env "abc")
           (RouteResponse true "nt_abc" (Some "A1B2C3") None "Y" "M" 200 13 213)
           4000).
  - intros issuer Hi p Hp. vm_compute in Hi. injection Hi as <-.
    unfold Issuer.init, Issuer.test_accounts in Hp. simpl in Hp.
    repeat (apply elem_of_cons in Hp as [-> | Hp]; [reflexivity|]).
    inversion Hp.
  - vm_compute. reflexivity.
  - reflexivity.
Defined.

Lemma void_success_inv net tid :
  net_success (fst (void net tid)) = true ->
  exists t,
    _transactions net !! tid = Some t
    /\ _transactions (snd (void net tid))
       = <[tid := set_status t "voided"]> (_transactions net).
Proof.
  unfold void.
  destruct (_transactions net !! tid) as [t|] eqn:Ht; [|discriminate].
  destruct (_issuers net !! issuer_id t) as [issuer|]; [|discriminate].
  destruct (Issuer.void issuer tid) as [[|] issuer']; simpl; [|discriminate].
  intros _. exists t. auto.
Qed.

(** X8. A successful network void marks the transaction [voided], and after
    it, whatever captures, voids and authorizations of other transaction ids
    follow, every capture of that transaction id fails. *)
Theorem void_then_capture_fails (net : CardNetwork) (tid : string) :
  net_success (fst (void net tid)) = true ->
  (exists t', _transactions (snd (void net tid)) !! tid = Some t'
              /\ status t' = "voided")
  /\ (forall ops amt,
        Forall (routes_elsewhere tid) ops ->
        net_success (fst (capture (run (snd (void net tid)) ops) tid amt))
        = false).
Proof.
  intros Hok. destruct (void_success_inv net tid Hok) as (t & Ht & Hafter).
  split.
  - exists (set_status t "voided"). rewrite Hafter, lookup_insert_eq. auto.
  - intros ops amt Hops. apply NetworkFacts.capture_needs_approved.
    apply NetworkFacts.run_not_approved; [|exact Hops].
    intros t'. rewrite Hafter, lookup_insert_eq. intros [= <-]. simpl.
    discriminate.
Qed.

Lemma void_then_capture_fails_witness :
  (exists t', _transactions (snd (void visa_after_route "nt_abc")) !! "nt_abc"
              = Some t'
              /\ status t' = "voided")
  /\ (forall ops amt,
        Forall (routes_elsewhere "nt_abc") ops ->
        net_success (fst (capture (run (snd (void visa_after_route "nt_abc")) ops)
                            "nt_abc" amt))
        = false).
Proof.
  apply (void_then_capture_fails visa_after_route "nt_abc").
  vm_compute. reflexivity.
Defined.

Lemma route_issuers_cases net args env :
  _issuers (snd (route_authorization net args env)) = _issuers net
  \/ exists issuer,
      _issuers net !! "default" = Some issuer
      /\ _issuers (snd (route_authorization net args env))
         = <["default" := snd (Issuer.authorize issuer (routed_request args env)
                                 (issuer_env env))]> (_issuers net).
Proof.
  unfold route_authorization.
  destruct (detect_network _) as [detected|]; [|unchanged].
  destruct (negb _); [unchanged|].
  destruct (_issuers net !! "default") as [issuer|] eqn:Hi; [|unchanged].
  fold (routed_id env). fold (routed_request args env).
  right. exists issuer. split; [reflexivity|].
  destruct (Issuer.authorize _ _ _) as [[response|e] issuer']; [|reflexivity].
  destruct (fee _ (interchange_fee_bps net)) as [i|e]; [|reflexivity].
  destruct (fee _ (assessment_fee_bps net)) as [a|e]; reflexivity.
Qed.

Lemma capture_issuers_cases net tid amt :
  _issuers (snd (capture net tid amt)) = _issuers net
  \/ exists name issuer,
      _issuers net !! name = Some issuer
      /\ _issuers (snd (capture net tid amt))
         = <[name := snd (Issuer.capture issuer tid amt)]> (_issuers net).
Proof.
  unfold capture.
  destruct (_transactions net !! tid) as [t|]; [|unchanged].
  destruct (negb _); [unchanged|].
  destruct (_issuers net !! issuer_id t) as [issuer|] eqn:Hi; [|unchanged].
  right. exists (issuer_id t), issuer. split; [exact Hi|].
  destruct (Issuer.capture issuer tid amt) as [[|] issuer']; reflexivity.
Qed.

Lemma void_issuers_cases net tid :
  _issuers (snd (void net tid)) = _issuers net
  \/ exists name issuer,
      _issuers net !! name = Some issuer
      /\ _issuers (snd (void net tid))
         = <[name := snd (Issuer.void issuer tid)]> (_issuers net).
Proof.
  unfold void.
  destruct (_transactions net !! tid) as [t|]; [|unchanged].
  destruct (_issuers net !! issuer_id t) as [issuer|] eqn:Hi; [|unchanged].
  right. exists (issuer_id t), issuer. split; [exact Hi|].
  destruct (Issuer.void issuer tid) as [[|] issuer']; reflexivity.
Qed.

Lemma step_network_ok net op :
  network_ok net -> route_nonneg op -> network_ok (step net op).
Proof.
  unfold network_ok. intros Hok Hop.
  destruct op as [args env | tid amt | tid]; simpl in *.
  - destruct (route_issuers_cases net args env) as [-> | (issuer & Hi & ->)];
      [exact Hok|].
    apply map_Forall_insert_2; [|exact Hok].
    apply (IssuerFacts.step_bank_ok issuer
             (IssuerOps.OpAuthorize (routed_request args env) (issuer_env env)));
      [exact (Hok _ _ Hi) | exact Hop].
  - destruct (capture_issuers_cases net tid amt)
      as [-> | (name & issuer & Hi & ->)]; [exact Hok|].
    apply map_Forall_insert_2; [|exact Hok].
    apply (IssuerFacts.step_bank_ok issuer (IssuerOps.OpCapture tid amt));
      [exact (Hok _ _ Hi) | exact I].
  - destruct (void_issuers_cases net tid)
      as [-> | (name & issuer & Hi & ->)]; [exact Hok|].
    apply map_Forall_insert_2; [|exact Hok].
    apply (IssuerFacts.step_bank_ok issuer (IssuerOps.OpVoid tid));
      [exact (Hok _ _ Hi) | exact I].
Qed.

Lemma run_network_ok ops : forall net,
  network_ok net -> Forall route_nonneg ops -> network_ok (run net ops).
Proof.
  unfold run. induction ops as [|op rest IH]; intros net Hok Hops; simpl;
    [exact Hok|].
  inversion Hops as [|? ? Hop Hrest]; subst.
  apply IH; [apply step_network_ok; assumption | exact Hrest].
Qed.

Lemma init_bank_ok name : IssuerOps.bank_ok (Issuer.init name).
Proof.
  unfold IssuerOps.bank_ok, Issuer.init, Issuer.test_accounts. simpl.
  repeat constructor; simpl; try (vm_compute; discriminate);
    apply map_Forall_empty.
Qed.

(** X9. On a card network whose issuers have non-negative available funds
    and non-negative holds on every account, as a fresh network has, any
    sequence of authorizations of non-negative amounts, captures and voids
    leaves the available funds of every account of every issuer
    non-negative. *)
Theorem network_funds_never_negative (net : CardNetwork) (ops : list Op) :
  network_ok net -> Forall route_nonneg ops ->
  network_funds_nonneg (run net ops).
Proof.
  intros Hok Hops name issuer Hi.
  apply IssuerFacts.bank_ok_funds.
  exact (run_network_ok ops net Hok Hops name issuer Hi).
Qed.

Lemma network_funds_never_negative_witness :
  network_funds_nonneg
    (run (init VISA)
       [ OpRoute (demo_args "4242424242424242" 10000) (demo_env "abc");
         OpCapture "nt_abc" 4000;
         OpVoid "nt_abc" ]).
Proof.
  apply (network_funds_never_negative (init VISA)).
  - unfold network_ok, init. simpl.
    apply map_Forall_insert_2; [apply init_bank_ok | apply map_Forall_empty].
  - repeat constructor. simpl. lia.
Defined.

End NetworkMoreFacts.

(* ===================================================================== *)
(** * Further facts about the acquiring bank *)
(* ===================================================================== *)

Module AcquirerMoreFacts.
Import Acquirer AcquirerMore.

Lemma detect_first_char card :
  match card with
  | String c _ =>
    (Ascii.eqb c "4"%char = true ->
     Network.detect_network card = Returned (Some Network.VISA))
    /\ (Ascii.eqb c "5"%char = true ->
        Network.detect_network card = Returned (Some Network.MASTERCARD))
  | EmptyString => True
  end.
Proof.
  destruct card as [|c rest]; [exact I|].
  split; intros Hc; apply Ascii.eqb_eq in Hc as ->;
    (destruct rest as [|d rest]; [reflexivity|]);
    unfold Network.detect_network, Network.slice_to; simpl;
    destruct rest; simpl;
    repeat match goal with
           | |- context [String.eqb ?s ?k] =>
             destruct (String.eqb_spec s k) as [Heq | _];
               [discriminate Heq|]
           end; reflexivity.
Qed.

Lemma acquirer_choice_inv acq card_number key net :
  _detect_and_get_network acq card_number = Returned (Some (key, net)) ->
  networks_get key (_networks acq) = Some net
  /\ Network.detect_network card_number = Returned (Some key).
Proof.
  unfold _detect_and_get_network.
  pose proof (detect_first_char card_number) as Hdet.
  destruct card_number as [|c rest]; [discriminate|].
  destruct Hdet as [H4 H5].
  destruct (Ascii.eqb c "4"%char).
  - destruct (networks_get Network.VISA _) as [n|] eqn:Hn; [|discriminate].
    intros [= <- <-]. auto.
  - destruct (Ascii.eqb c "5"%char); [|discriminate].
    destruct (networks_get Network.MASTERCARD _) as [n|] eqn:Hn; [|discriminate].
    intros [= <- <-]. auto.
Qed.

(** X10. The network that the acquirer picks from the first digit is the one
    stored under the brand that the network's own detection gives for the
    card, and it is Visa or Mastercard: a card of another brand gets no
    network from the acquirer, whatever networks are registered. *)
Theorem acquirer_network_choice (acq : AcquiringBank) (card_number : string)
        (key : Network.NetworkType) (net : Network.CardNetwork) :
  _detect_and_get_network acq card_number = Returned (Some (key, net)) ->
  networks_get key (_networks acq) = Some net
  /\ Network.detect_network card_number = Returned (Some key)
  /\ (key = Network.VISA \/ key = Network.MASTERCARD).
Proof.
  intros Hd. destruct (acquirer_choice_inv acq card_number key net Hd) as [Hg Hn].
  split; [exact Hg|]. split; [exact Hn|].
  unfold _detect_and_get_network in Hd.
  destruct card_number as [|c rest]; [discriminate|].
  destruct (Ascii.eqb c "4"%char).
  - destruct (networks_get Network.VISA _); [|discriminate].
    injection Hd as <- _. auto.
  - destruct (Ascii.eqb c "5"%char); [|discriminate].
    destruct (networks_get Network.MASTERCARD _); [|discriminate].
    injection Hd as <- _. auto.
Qed.

Lemma acquirer_network_choice_witness :
  networks_get Network.VISA (_networks (init "Demo Acquiring Bank"))
  = Some (Network.init Network.VISA)
  /\ Network.detect_network "4242424242424242" = Returned (Some Network.VISA)
  /\ (Network.VISA = Network.VISA \/ Network.VISA = Network.MASTERCARD).
Proof.
  apply (acquirer_network_choice (init "Demo Acquiring Bank") "4242424242424242").
  reflexivity.
Defined.

Ltac left_alone :=
  left; repeat split; reflexivity.

Lemma process_authorization_cases acq mid card em ey cvv amt cur env :
  (is_approved (fst (process_authorization acq mid card em ey cvv amt cur env))
   = false
   /\ _merchants (snd (process_authorization acq mid card em ey cvv amt cur env))
      = _merchants acq
   /\ _transactions (snd (process_authorization acq mid card em ey cvv amt cur env))
      = _transactions acq
   /\ _batches (snd (process_authorization acq mid card em ey cvv amt cur env))
      = _batches acq)
  \/ exists merchant key network ntid code reason avs cvvr i a network_fees
            discount_fee,
      _merchants acq !! mid = Some merchant
      /\ status merchant = ACTIVE
      /\ current_month_volume merchant + amt <= monthly_volume_limit merchant
      /\ _detect_and_get_network acq card = Returned (Some (key, network))
      /\ fst (Network.route_authorization network
                (route_args acq merchant mid card em ey cvv amt cur)
                (route_env env))
         = Returned (Network.RouteResponse true ntid code reason avs cvvr i a
                       network_fees)
      /\ Network.fee amt (discount_rate_bps merchant) = Returned discount_fee
      /\ process_authorization acq mid card em ey cvv amt cur env
         = (Returned
              (AuthApproved ("txn_" ++ txn_token_hex12 env) ntid code amt
                 discount_fee (fixed_fee_cents merchant) network_fees
                 (fees (recorded merchant mid ntid amt cur discount_fee env)
                  + network_fees)
                 (net_amount (recorded merchant mid ntid amt cur discount_fee env)
                  - network_fees)),
            mkAcquiringBank (bank_name acq)
              (<[merchant_id merchant :=
                   set_current_month_volume merchant
                     (current_month_volume merchant + amt)]> (_merchants acq))
              (networks_set key
                 (snd (Network.route_authorization network
                         (route_args acq merchant mid card em ey cvv amt cur)
                         (route_env env)))
                 (_networks acq))
              (dict_set ("txn_" ++ txn_token_hex12 env)
                 (recorded merchant mid ntid amt cur discount_fee env)
                 (_transactions acq))
              (_batches acq)).
Proof.
  unfold process_authorization.
  destruct (_merchants acq !! mid) as [merchant|] eqn:Hm; [|left_alone].
  case_bool_decide as Hs; simpl; [|left_alone].
  destruct (Z.ltb_spec (monthly_volume_limit merchant)
              (current_month_volume merchant + amt)) as [|Hvol]; [left_alone|].
  destruct (_detect_and_get_network acq card) as [[[key network]|]|e] eqn:Hd;
    [|left_alone|left_alone].
  fold (route_args acq merchant mid card em ey cvv amt cur).
  destruct (Network.route_authorization network _ (route_env env))
    as [[[err|[|] ntid code reason avs cvvr i a network_fees]|e] network']
    eqn:Hr; simpl; [left_alone| |left_alone|left_alone].
  destruct (Network.fee amt (discount_rate_bps merchant)) as [discount_fee|e]
    eqn:Hfee; [|left_alone].
  right. exists merchant, key, network, ntid, code, reason, avs, cvvr, i, a,
           network_fees, discount_fee.
  rewrite Hr. repeat split; try assumption; reflexivity.
Qed.

(** X11. [process_authorization] changes the merchants, the transaction log
    and the batches only when it approves. It approves only for a known,
    active merchant whose monthly volume plus the amount stays within the
    limit; it then records a pending transaction under the generated id
    whose fees are the discount fee plus the fixed fee and whose net amount
    is the amount minus these fees, and it raises the merchant's monthly
    volume by the amount. The net amount of the response is the recorded
    net amount minus the network's fees. *)
Theorem process_authorization_outcome (acq : AcquiringBank) (mid card : string)
        (em ey : Z) (cvv : string) (amt : Z) (cur : string) (env : AuthAmbient) :
  (is_approved (fst (process_authorization acq mid card em ey cvv amt cur env))
   = false ->
   _merchants (snd (process_authorization acq mid card em ey cvv amt cur env))
   = _merchants acq
   /\ _transactions (snd (process_authorization acq mid card em ey cvv amt cur env))
      = _transactions acq
   /\ _batches (snd (process_authorization acq mid card em ey cvv amt cur env))
      = _batches acq)
  /\ (forall tid ntid code a fd ff fn ft net,
        fst (process_authorization acq mid card em ey cvv amt cur env)
        = Returned (AuthApproved tid ntid code a fd ff fn ft net) ->
        exists merchant t,
          _merchants acq !! mid = Some merchant
          /\ status merchant = ACTIVE
          /\ current_month_volume merchant + amt <= monthly_volume_limit merchant
          /\ tid = "txn_" ++ txn_token_hex12 env
          /\ a = amt
          /\ ft = fd + ff + fn
          /\ dict_get tid
               (_transactions
                  (snd (process_authorization acq mid card em ey cvv amt cur env)))
             = Some t
          /\ txn_merchant_id t = mid
          /\ network_transaction_id t = ntid
          /\ amount t = amt
          /\ fees t = fd + ff
          /\ net_amount t = amt - fees t
          /\ settlement_status t = PENDING
          /\ net = net_amount t - fn
          /\ (merchant_id merchant = mid ->
              _merchants
                (snd (process_authorization acq mid card em ey cvv amt cur env))
              = <[mid := set_current_month_volume merchant
                           (current_month_volume merchant + amt)]>
                  (_merchants acq))).
Proof.
  destruct (process_authorization_cases acq mid card em ey cvv amt cur env)
    as [(Hno & Hm & Ht & Hb)
       | (merchant & key & network & ntid & code & reason & avs & cvvr & i & a
          & nf & discount_fee & Hm & Hs & Hvol & Hd & Hr & Hfee & ->)].
  - split; [auto|].
    intros tid ntid code a fd ff fn ft net He. rewrite He in Hno.
    discriminate Hno.
  - simpl. split; [discriminate|].
    intros tid ntid' code' a' fd ff fn ft net [= <- <- <- <- <- <- <- <- <-].
    exists merchant, (recorded merchant mid ntid amt cur discount_fee env).
    repeat split; try assumption; try reflexivity.
    + apply IssuerMoreFacts.dict_get_set_same.
    + intros <-. reflexivity.
Qed.

(** X12. When every network is stored under its own type, the network never
    rejects a card that the acquirer routed to it for its brand: the only
    error that [process_authorization] can pass on from the network is the
    missing issuer. *)
Theorem process_authorization_brand_agrees (acq : AcquiringBank)
        (mid card : string) (em ey : Z) (cvv : string) (amt : Z) (cur : string)
        (env : AuthAmbient) (err : string) :
  networks_keyed acq ->
  fst (process_authorization acq mid card em ey cvv amt cur env)
  = Returned (AuthNetwork (Network.RouteError err)) ->
  err = "No issuing bank found for card".
Proof.
  intros Hkeyed. unfold process_authorization.
  destruct (_merchants acq !! mid) as [merchant|]; [|discriminate].
  destruct (negb _); [discriminate|].
  destruct (_ <? _); [discriminate|].
  destruct (_detect_and_get_network acq card) as [[[key network]|]|e] eqn:Hd;
    [|discriminate|discriminate].
  destruct (acquirer_choice_inv acq card key network Hd) as (Hget & Hdet).
  unfold Network.route_authorization. simpl. rewrite Hdet.
  rewrite (Hkeyed key network Hget).
  rewrite bool_decide_eq_true_2 by reflexivity. simpl.
  destruct (Network._issuers network !! "default") as [issuer|]; simpl;
    [|intros [= <-]; reflexivity].
  destruct (Issuer.authorize _ _ _) as [[response|e] issuer']; simpl;
    [|discriminate].
  destruct (Network.fee _ (Network.interchange_fee_bps network)) as [i|e];
    [|discriminate].
  destruct (Network.fee _ (Network.assessment_fee_bps network)) as [a|e];
    [|discriminate].
  destruct (Issuer.approved response); [|discriminate].
  destruct (Network.fee amt (discount_rate_bps merchant)); discriminate.
Qed.

Lemma process_authorization_brand_agrees_witness :
  "No issuing bank found for card" = "No issuing bank found for card".
Proof.
  apply (process_authorization_brand_agrees
           (set_networks (init "Demo Acquiring Bank")
              [(Network.VISA,
                Network.mkCardNetwork Network.VISA ∅ ∅ 200 13)])
           "merch_demo123" "4242424242424242" 12 2025 "123" 10000 "USD"
           demo_auth_env).
  - intros key net. simpl. case_decide; [|discriminate].
    intros [= <-]. subst key. reflexivity.
  - vm_compute. reflexivity.
Defined.

Lemma capture_merchants_cases acq tid amt :
  _merchants (snd (capture acq tid amt)) = _merchants acq
  \/ exists k merchant credited,
      _merchants acq !! k = Some merchant
      /\ _merchants (snd (capture acq tid amt))
         = <[k := set_pending_settlement merchant credited]> (_merchants acq).
Proof.
  unfold capture.
  destruct (dict_get tid (_transactions acq)) as [transaction|]; [|unchanged].
  destruct (_networks acq) as [|[key network] others]; [unchanged|].
  destruct (Network.capture network _ _) as [result network']. simpl.
  destruct (Network.net_success result); [|unchanged].
  destruct (_merchants acq !! txn_merchant_id transaction) as [merchant|] eqn:Hm;
    [|unchanged].
  right. exists (txn_merchant_id transaction), merchant. eauto.
Qed.

Lemma step_merchants_ok acq op : merchants_ok acq -> merchants_ok (step acq op).
Proof.
  unfold merchants_ok. intros Hok.
  destruct op as [name mcc token | mid card em ey cvv amt cur env | tid amt | env];
    simpl.
  - apply map_Forall_insert_2; [|exact Hok]. split; [reflexivity | simpl; lia].
  - destruct (process_authorization_cases acq mid card em ey cvv amt cur env)
      as [(_ & -> & _) | (merchant & key & network & ntid & code & reason & avs
                          & cvvr & i & a & nf & discount_fee & Hm & Hs & Hvol & _
                          & _ & _ & ->)];
      [exact Hok|].
    simpl. destruct (Hok mid merchant Hm) as [Hid _].
    apply map_Forall_insert_2; [|exact Hok]. split; [reflexivity | simpl; lia].
  - destruct (capture_merchants_cases acq tid amt)
      as [-> | (k & merchant & credited & Hm & ->)]; [exact Hok|].
    destruct (Hok k merchant Hm) as [Hid Hvol].
    apply map_Forall_insert_2; [|exact Hok]. split; assumption.
  - unfold create_settlement_batch.
    destruct (batch_scan _ _ _ _ _ _) as [[[txns ids] ta] tf]. exact Hok.
Qed.

(** X13. Every merchant of a fresh acquiring bank is stored under its own
    id with a monthly volume within its limit, and onboarding merchants,
    authorizations, captures and settlement batches, in any order and with
    any arguments, keep it so: no authorization takes a merchant's monthly
    volume over its limit. *)
Theorem volume_within_limit (acq : AcquiringBank) (ops : list Op) :
  merchants_ok acq -> merchants_ok (run acq ops).
Proof.
  unfold run. revert acq.
  induction ops as [|op rest IH]; intros acq Hok; simpl; [exact Hok|].
  apply IH. apply step_merchants_ok. exact Hok.
Qed.

Lemma volume_within_limit_witness :
  merchants_ok
    (run (init "Demo Acquiring Bank")
       [ OpCreateMerchant "Corner Shop" "5411" "00ff";
         OpAuthorize "merch_demo123" "4242424242424242" 12 2025 "123" 10000 "USD"
           demo_auth_env;
         OpCapture "txn_t1" None;
         OpBatch (demo_batch_env "b1") ]).
Proof.
  apply (volume_within_limit (init "Demo Acquiring Bank")).
  unfold merchants_ok, init. simpl.
  apply map_Forall_insert_2; [|apply map_Forall_empty].
  split; [reflexivity | simpl; lia].
Defined.

Lemma batch_scan_leaves_none_pending clock txns : forall k ids ta tf,
  included (batch_scan clock k txns ids ta tf).1.1.1 = [].
Proof.
  induction txns as [|[key t] rest IH]; intros k ids ta tf; simpl;
    [reflexivity|].
  destruct (decide (settlement_status t = PENDING)) as [Hp | Hp].
  - specialize (IH (S k) (ids ++ [transaction_id t])%list (ta + amount t)
                  (tf + fees t)).
    destruct (batch_scan _ _ _ _ _ _) as [[[rest' ids'] ta'] tf']. simpl in *.
    rewrite AcquirerFacts.included_cons. simpl.
    destruct (decide (BATCHED = PENDING)); [discriminate | exact IH].
  - specialize (IH k ids ta tf).
    destruct (batch_scan _ _ _ _ _ _) as [[[rest' ids'] ta'] tf']. simpl in *.
    rewrite AcquirerFacts.included_cons.
    destruct (decide (settlement_status t = PENDING)); [contradiction | exact IH].
Qed.

Lemma batch_scan_none_pending clock txns : forall k ids ta tf,
  included txns = [] ->
  batch_scan clock k txns ids ta tf = (txns, ids, ta, tf).
Proof.
  induction txns as [|[key t] rest IH]; intros k ids ta tf Hnone; simpl;
    [reflexivity|].
  rewrite AcquirerFacts.included_cons in Hnone.
  destruct (decide (settlement_status t = PENDING)); [discriminate|].
  rewrite (IH k ids ta tf Hnone). reflexivity.
Qed.

(** X14. After [create_settlement_batch] no transaction is pending, so a
    second run right after it returns an empty batch with all totals 0 and
    changes no transaction: no transaction is batched twice. *)
Theorem settlement_batch_twice (acq : AcquiringBank) (env env' : BatchAmbient) :
  included (_transactions (snd (create_settlement_batch acq env))) = []
  /\ batch_transactions
       (fst (create_settlement_batch (snd (create_settlement_batch acq env)) env'))
     = []
  /\ total_amount
       (fst (create_settlement_batch (snd (create_settlement_batch acq env)) env'))
     = 0
  /\ total_fees
       (fst (create_settlement_batch (snd (create_settlement_batch acq env)) env'))
     = 0
  /\ batch_net_amount
       (fst (create_settlement_batch (snd (create_settlement_batch acq env)) env'))
     = 0
  /\ _transactions
       (snd (create_settlement_batch (snd (create_settlement_batch acq env)) env'))
     = _transactions (snd (create_settlement_batch acq env)).
Proof.
  assert (Hnone : included (_transactions (snd (create_settlement_batch acq env)))
                  = []).
  { unfold create_settlement_batch.
    pose proof (batch_scan_leaves_none_pending (settle_utcnow env)
                  (_transactions acq) 0 [] 0 0) as H.
    destruct (batch_scan _ _ _ _ _ _) as [[[txns ids] ta] tf]. exact H. }
  split; [exact Hnone|].
  unfold create_settlement_batch at 1 3 5 7 9.
  rewrite (batch_scan_none_pending _ _ 0%nat [] 0 0 Hnone). simpl.
  repeat split.
Qed.

Lemma balance_scan_after_batch mid clock txns : forall k ids ta tf c a,
  balance_scan mid (batch_scan clock k txns ids ta tf).1.1.1 c a
  = balance_scan mid txns c a.
Proof.
  induction txns as [|[key t] rest IH]; intros k ids ta tf c a; simpl;
    [reflexivity|].
  destruct (decide (settlement_status t = PENDING)) as [Hp | Hp].
  - pose proof (IH (S k) (ids ++ [transaction_id t])%list (ta + amount t)
                  (tf + fees t)) as IH'.
    destruct (batch_scan _ _ _ _ _ _) as [[[rest' ids'] ta'] tf']. simpl in *.
    rewrite (bool_decide_eq_true_2 _ Hp). simpl.
    destruct (String.eqb (txn_merchant_id t) mid); simpl; apply IH'.
  - pose proof (IH k ids ta tf) as IH'.
    destruct (batch_scan _ _ _ _ _ _) as [[[rest' ids'] ta'] tf']. simpl in *.
    destruct (_ && _); apply IH'.
Qed.

(** X15. [create_settlement_batch] does not change what
    [get_merchant_balance] reports for any merchant: a transaction counts
    towards the pending count and amount while it is pending and still
    counts once it is batched. *)
Theorem balance_unchanged_by_batch (acq : AcquiringBank) (env : BatchAmbient)
        (mid : string) :
  get_merchant_balance (snd (create_settlement_batch acq env)) mid
  = get_merchant_balance acq mid.
Proof.
  unfold get_merchant_balance, create_settlement_batch.
  pose proof (balance_scan_after_batch mid (settle_utcnow env)
                (_transactions acq) 0 [] 0 0 0 0) as H.
  destruct (batch_scan _ _ _ _ _ _) as [[[txns ids] ta] tf]. simpl in *.
  rewrite H. reflexivity.
Qed.

Lemma capture_success_state acq tid amt r :
  fst (capture acq tid amt) = Returned r ->
  Network.net_success r = true ->
  exists transaction key network others,
    dict_get tid (_transactions acq) = Some transaction
    /\ _networks acq = (key, network) :: others
    /\ Network.net_success
         (fst (Network.capture network (network_transaction_id transaction)
                 (or_amount amt (amount transaction)))) = true
    /\ _transactions (snd (capture acq tid amt)) = _transactions acq
    /\ _networks (snd (capture acq tid amt))
       = (key, snd (Network.capture network (network_transaction_id transaction)
                      (or_amount amt (amount transaction)))) :: others.
Proof.
  unfold capture.
  destruct (dict_get tid (_transactions acq)) as [transaction|];
    [|intros [= <-]; discriminate].
  destruct (_networks acq) as [|[key network] others]; [discriminate|].
  destruct (Network.capture network _ _) as [result network'] eqn:Hcap. simpl.
  destruct (Network.net_success result) eqn:Hok.
  - intros _ _. exists transaction, key, network, others.
    destruct (_merchants acq !! txn_merchant_id transaction); simpl;
      rewrite Hcap; repeat split; assumption.
  - simpl. intros [= <-] Hr. congruence.
Qed.

(** X16. After a successful capture of a transaction, a further capture of
    the same transaction fails, whatever amount it asks for, and adds
    nothing to any merchant's pending settlement. *)
Theorem acquirer_capture_once (acq : AcquiringBank) (tid : string)
        (amt amt' : option Z) (r : Network.NetResult) :
  fst (capture acq tid amt) = Returned r ->
  Network.net_success r = true ->
  exists r',
    fst (capture (snd (capture acq tid amt)) tid amt') = Returned r'
    /\ Network.net_success r' = false
    /\ _merchants (snd (capture (snd (capture acq tid amt)) tid amt'))
       = _merchants (snd (capture acq tid amt)).
Proof.
  intros Hr Hok.
  destruct (capture_success_state acq tid amt r Hr Hok)
    as (transaction & key & network & others & Ht & Hn & Hnet & Ht' & Hn').
  destruct (NetworkFacts.capture_success_inv _ _ _ Hnet) as (t & _ & _ & Hafter).
  remember (snd (capture acq tid amt)) as acq' eqn:Hacq'.
  unfold capture. rewrite Ht', Ht, Hn'.
  assert (Hna : Network.not_approved
                  (snd (Network.capture network
                          (network_transaction_id transaction)
                          (or_amount amt (amount transaction))))
                  (network_transaction_id transaction)).
  { intros t'. rewrite Hafter, lookup_insert_eq. intros [= <-]. discriminate. }
  pose proof (NetworkFacts.capture_needs_approved _ _
                (or_amount amt' (amount transaction)) Hna) as Hfail.
  destruct (Network.capture _ _ (or_amount amt' (amount transaction)))
    as [result network'']. simpl in *.
  rewrite Hfail. exists result. simpl. auto.
Qed.

Lemma acquirer_capture_once_witness :
  exists r',
    fst (capture (snd (capture after_visa_auth "txn_t1" None)) "txn_t1" (Some 1))
    = Returned r'
    /\ Network.net_success r' = false
    /\ _merchants (snd (capture (snd (capture after_visa_auth "txn_t1" None))
                          "txn_t1" (Some 1)))
       = _merchants (snd (capture after_visa_auth "txn_t1" None)).
Proof.
  apply (acquirer_capture_once after_visa_auth "txn_t1" None (Some 1)
           (Network.NetCaptured 10000)).
  - vm_compute. reflexivity.
  - reflexivity.
Defined.

Lemma networks_get_Forall (P : Network.CardNetwork -> Prop) key nets net :
  Forall (fun p => P (snd p)) nets -> networks_get key nets = Some net -> P net.
Proof.
  induction 1 as [|[k n] rest Hn _ IH]; simpl; [discriminate|].
  destruct (decide (key = k)); [intros [= <-]; exact Hn | exact IH].
Qed.

Lemma networks_set_Forall (P : Network.CardNetwork -> Prop) key net nets :
  Forall (fun p => P (snd p)) nets -> P net ->
  Forall (fun p => P (snd p)) (networks_set key net nets).
Proof.
  intros Hnets Hnet.
  induction Hnets as [|[k n] rest Hn Hrest IH]; simpl;
    [repeat constructor; exact Hnet|].
  destruct (decide (key = k)); constructor; assumption.
Qed.

Lemma process_authorization_networks acq mid card em ey cvv amt cur env :
  _networks (snd (process_authorization acq mid card em ey cvv amt cur env))
  = _networks acq
  \/ exists key network args,
      networks_get key (_networks acq) = Some network
      /\ Network.arg_amount args = amt
      /\ _networks (snd (process_authorization acq mid card em ey cvv amt cur env))
         = networks_set key
             (snd (Network.route_authorization network args (route_env env)))
             (_networks acq).
Proof.
  unfold process_authorization.
  destruct (_merchants acq !! mid) as [merchant|]; [|unchanged].
  destruct (negb _); [unchanged|].
  destruct (_ <? _); [unchanged|].
  destruct (_detect_and_get_network acq card) as [[[key network]|]|e] eqn:Hd;
    [|unchanged|unchanged].
  destruct (acquirer_choice_inv acq card key network Hd) as [Hget _].
  fold (route_args acq merchant mid card em ey cvv amt cur).
  right. exists key, network, (route_args acq merchant mid card em ey cvv amt cur).
  split; [exact Hget|]. split; [reflexivity|].
  destruct (Network.route_authorization network _ (route_env env))
    as [[[err|[|] ntid code reason avs cvvr i a nf]|e] network'];
    try reflexivity.
  destruct (Network.fee amt (discount_rate_bps merchant)); reflexivity.
Qed.

Lemma capture_networks acq tid amt :
  _networks (snd (capture acq tid amt)) = _networks acq
  \/ exists key network others ntid amt',
      _networks acq = (key, network) :: others
      /\ _networks (snd (capture acq tid amt))
         = (key, snd (Network.capture network ntid amt')) :: others.
Proof.
  unfold capture.
  destruct (dict_get tid (_transactions acq)) as [transaction|]; [|unchanged].
  destruct (_networks acq) as [|[key network] others] eqn:Hn;
    [left; exact Hn|].
  right. exists key, network, others, (network_transaction_id transaction),
           (or_amount amt (amount transaction)).
  split; [reflexivity|].
  destruct (Network.capture network _ _) as [result network']. simpl.
  destruct (Network.net_success result); [|reflexivity].
  destruct (_merchants acq !! txn_merchant_id transaction); reflexivity.
Qed.

Lemma step_networks_ok acq op :
  networks_ok acq -> authorizes_nonneg op -> networks_ok (step acq op).
Proof.
  unfold networks_ok. intros Hok Hop.
  destruct op as [name mcc token | mid card em ey cvv amt cur env | tid amt | env];
    simpl in *.
  - exact Hok.
  - destruct (process_authorization_networks acq mid card em ey cvv amt cur env)
      as [-> | (key & network & args & Hget & Hamt & ->)]; [exact Hok|].
    apply (networks_set_Forall NetworkMore.network_ok); [exact Hok|].
    apply (NetworkMoreFacts.step_network_ok network
             (Network.OpRoute args (route_env env))).
    + exact (networks_get_Forall NetworkMore.network_ok _ _ _ Hok Hget).
    + simpl. lia.
  - destruct (capture_networks acq tid amt)
      as [-> | (key & network & others & ntid & amt' & Hn & ->)]; [exact Hok|].
    rewrite Hn in Hok. inversion Hok as [|? ? Hnet Hothers]; subst.
    constructor; [|exact Hothers]. simpl in *.
    exact (NetworkMoreFacts.step_network_ok network
             (Network.OpCapture ntid amt') Hnet I).
  - unfold create_settlement_batch.
    destruct (batch_scan _ _ _ _ _ _) as [[[txns ids] ta] tf]. exact Hok.
Qed.

(** X17. Through the acquiring bank too, cardholders' funds stay
    non-negative: when every account of every issuer of every network has
    non-negative available funds and holds, as in a fresh acquiring bank,
    then after any sequence of merchant onboardings, authorizations of
    non-negative amounts, captures and settlement batches every account
    still has non-negative available funds. *)
Theorem acquirer_funds_never_negative (acq : AcquiringBank) (ops : list Op) :
  networks_ok acq -> Forall authorizes_nonneg ops ->
  Forall (fun p => NetworkMore.network_funds_nonneg (snd p))
    (_networks (run acq ops)).
Proof.
  intros Hok Hops.
  assert (Hrun : networks_ok (run acq ops)).
  { unfold run. revert acq Hok.
    induction Hops as [|op rest Hop Hrest IH]; intros acq Hok; simpl;
      [exact Hok|].
    apply IH. apply step_networks_ok; assumption. }
  eapply Forall_impl; [exact Hrun|].
  intros [key net] Hnet name issuer Hi. simpl in *.
  apply IssuerFacts.bank_ok_funds. exact (Hnet name issuer Hi).
Qed.

Lemma acquirer_funds_never_negative_witness :
  Forall (fun p => NetworkMore.network_funds_nonneg (snd p))
    (_networks
       (run (init "Demo Acquiring Bank")
          [ OpAuthorize "merch_demo123" "4242424242424242" 12 2025 "123" 10000
              "USD" demo_auth_env;
            OpCapture "txn_t1" None;
            OpBatch (demo_batch_env "b1") ])).
Proof.
  apply (acquirer_funds_never_negative (init "Demo Acquiring Bank")).
  - unfold networks_ok, init. simpl.
    repeat constructor; simpl; unfold NetworkMore.network_ok, Network.init;
      simpl;
      (apply map_Forall_insert_2;
       [apply NetworkMoreFacts.init_bank_ok | apply map_Forall_empty]).
  - repeat constructor. simpl. lia.
Defined.

End AcquirerMoreFacts.

(* ===================================================================== *)
(** * Further facts about idempotency *)
(* ===================================================================== *)

Module IdempotencyMoreFacts.
Import Idempotency IdempotencyMore.

Section StoreFacts.
Context {Dict : Type}.
Implicit Types st : gmap string (IdempotencyRecord Dict).

Lemma elem_of_expired_keys st clock k :
  k ∈ expired_keys st clock
  <-> exists r, st !! k = Some r /\ is_expired r (clock k) = true.
Proof.
  unfold expired_keys. rewrite list_elem_of_fmap. split.
  - intros [[k' r] [-> Hin]]. apply elem_of_map_to_list in Hin.
    apply map_lookup_filter_Some in Hin as [Hk He]. exists r. auto.
  - intros (r & Hk & He). exists (k, r). split; [reflexivity|].
    apply elem_of_map_to_list. apply map_lookup_filter_Some. auto.
Qed.

Lemma cleanup_lookup st clock k :
  snd (cleanup_expired st clock) !! k
  = match st !! k with
    | Some r => if is_expired r (clock k) then None else Some r
    | None => None
    end.
Proof.
  unfold cleanup_expired. simpl.
  destruct (st !! k) as [r|] eqn:Hk.
  - destruct (is_expired r (clock k)) eqn:He.
    + apply lookup_foldr_delete. apply elem_of_expired_keys. eauto.
    + rewrite lookup_foldr_delete_not_elem_of; [exact Hk|].
      intros Hin. apply elem_of_expired_keys in Hin as (r' & Hk' & He').
      congruence.
  - rewrite lookup_foldr_delete_not_elem_of; [exact Hk|].
    intros Hin. apply elem_of_expired_keys in Hin as (r' & Hk' & _).
    congruence.
Qed.

Lemma cleanup_is_filter st clock :
  snd (cleanup_expired st clock)
  = filter (fun kv => ~ expired_at clock kv) st.
Proof.
  apply map_eq. intros k. rewrite cleanup_lookup.
  destruct (st !! k) as [r|] eqn:Hk.
  - destruct (is_expired r (clock k)) eqn:He; symmetry.
    + apply map_lookup_filter_None. right. intros r' Hk' Hne.
      apply Hne. unfold expired_at. simpl. congruence.
    + apply map_lookup_filter_Some. split; [exact Hk|].
      unfold expired_at. simpl. congruence.
  - symmetry. apply map_lookup_filter_None. auto.
Qed.

(** X18. [cleanup_expired] removes exactly the records that have expired
    when they are examined and keeps every other record as it is; the
    number it returns is the number of records removed; a second run with
    the same clock readings removes nothing; and for every key, [get] finds
    after the cleanup what it would have found without it. *)
Theorem cleanup_expired_spec (st : gmap string (IdempotencyRecord Dict))
        (clock : string -> Z) :
  (forall k,
      snd (cleanup_expired st clock) !! k
      = match st !! k with
        | Some r => if is_expired r (clock k) then None else Some r
        | None => None
        end)
  /\ (fst (cleanup_expired st clock) + size (snd (cleanup_expired st clock))
      = size st)%nat
  /\ cleanup_expired (snd (cleanup_expired st clock)) clock
     = (0%nat, snd (cleanup_expired st clock))
  /\ (forall k,
        fst (store_get (snd (cleanup_expired st clock)) k (clock k))
        = fst (store_get st k (clock k))).
Proof.
  split; [apply cleanup_lookup|]. split; [|split].
  - rewrite cleanup_is_filter. unfold cleanup_expired, expired_keys. simpl.
    rewrite length_fmap, length_map_to_list.
    rewrite <- (map_filter_union_complement (expired_at clock) st) at 3.
    rewrite map_size_disj_union by apply map_disjoint_filter_complement.
    reflexivity.
  - assert (Hnone : expired_keys (snd (cleanup_expired st clock)) clock = []).
    { destruct (expired_keys _ clock) as [|k rest] eqn:Hkeys; [reflexivity|].
      assert (Hin : k ∈ expired_keys (snd (cleanup_expired st clock)) clock)
        by (rewrite Hkeys; apply list_elem_of_here).
      apply elem_of_expired_keys in Hin as (r & Hk & He).
      rewrite cleanup_lookup in Hk.
      destruct (st !! k) as [r0|]; [|discriminate].
      destruct (is_expired r0 (clock k)) eqn:He0; [discriminate|].
      congruence. }
    unfold cleanup_expired at 1. rewrite Hnone. reflexivity.
  - intros k. unfold store_get. rewrite cleanup_lookup.
    destruct (st !! k) as [r|]; [|reflexivity].
    destruct (is_expired r (clock k)) eqn:He; [reflexivity|].
    rewrite He. reflexivity.
Qed.

End StoreFacts.

Section ExecuteFacts.
Context {Params Result Dict : Type}.
Variable _hash_params : Params -> string.
Variable _serialize_result : Result -> Dict.

Local Abbreviation execute := (execute _hash_params _serialize_result).
Local Abbreviation first_outcome := (first_outcome _serialize_result).
Local Abbreviation final_record := (final_record _hash_params _serialize_result).

(** X19. Once the record under a key has expired, [execute] treats the key
    as new: with the lock free it runs the operation, whatever the
    parameters are (no conflict with the expired record's hash, no replay of
    its outcome), and replaces the record by the one of this run. *)
Theorem execute_after_expiry {World : Type} (svc : IdempotencyService Dict)
        (k : string) (operation : World -> Outcome Result * World)
        (params : Params) (env : ExecAmbient) (w : World)
        (record : IdempotencyRecord Dict) :
  store svc !! k = Some record ->
  expires_at record < get_utcnow env ->
  lock_held (_locks svc) k = false ->
  execute svc k operation params env w
  = (first_outcome (fst (operation w)),
     mkService (<[k := final_record k params env (fst (operation w))]> (store svc))
       (_get_lock (_locks svc) k),
     snd (operation w)).
Proof.
  intros Hk Hexp Hlock. unfold Idempotency.execute, store_get, is_expired.
  rewrite Hk. apply Z.ltb_lt in Hexp. rewrite Hexp.
  rewrite (IdempotencyFacts.lock_free_after_get _ _ Hlock).
  rewrite lookup_delete_eq.
  destruct (operation w) as [[r | e] w']; simpl;
    rewrite insert_insert_eq, insert_delete_eq; reflexivity.
Qed.

Lemma get_lock_other (locks : gmap string bool) k k' :
  k' <> k -> _get_lock locks k !! k' = locks !! k'.
Proof.
  intros Hne. unfold _get_lock. destruct (locks !! k); [reflexivity|].
  apply lookup_insert_ne. congruence.
Qed.

Lemma store_get_other (st : gmap string (IdempotencyRecord Dict)) k k' now :
  k' <> k -> snd (store_get st k now) !! k' = st !! k'.
Proof.
  intros Hne. unfold store_get. destruct (st !! k) as [r|]; [|reflexivity].
  destruct (is_expired r now); [|reflexivity].
  apply lookup_delete_ne. congruence.
Qed.

Lemma get_lock_held (locks : gmap string bool) k :
  lock_held (_get_lock locks k) k = lock_held locks k.
Proof.
  unfold lock_held, _get_lock. destruct (locks !! k) as [b|] eqn:Hk.
  - rewrite Hk. reflexivity.
  - rewrite lookup_insert_eq. reflexivity.
Qed.

(** X20. A call of [execute] with key [k] leaves the record and the lock
    of every other key as they were, and it leaves the lock of [k] in the
    state it found it in: a lock that was free is free again, whether the
    operation returned or raised. *)
Theorem execute_frame {World : Type} (svc : IdempotencyService Dict)
        (k : string) (operation : World -> Outcome Result * World)
        (params : Params) (env : ExecAmbient) (w : World) :
  (forall k', k' <> k ->
      store (snd (fst (execute svc k operation params env w))) !! k'
      = store svc !! k'
      /\ _locks (snd (fst (execute svc k operation params env w))) !! k'
         = _locks svc !! k')
  /\ lock_held (_locks (snd (fst (execute svc k operation params env w)))) k
     = lock_held (_locks svc) k.
Proof.
  unfold Idempotency.execute.
  pose proof (fun k' => store_get_other (store svc) k k' (get_utcnow env)) as H1.
  destruct (store_get (store svc) k (get_utcnow env)) as [[record|] store1];
    simpl in *; [auto|].
  destruct (lock_held (_get_lock (_locks svc) k) k) eqn:Hheld; simpl.
  { split; [|apply get_lock_held].
    intros k' Hne. split; [auto | apply get_lock_other; exact Hne]. }
  pose proof (fun k' => store_get_other store1 k k' (recheck_utcnow env)) as H2.
  destruct (store_get store1 k (recheck_utcnow env)) as [[record|] store2];
    simpl in *.
  { split; [|apply get_lock_held].
    intros k' Hne. split; [|apply get_lock_other; exact Hne].
    rewrite H2, H1 by exact Hne. reflexivity. }
  destruct (operation w) as [[r | e] w']; simpl;
    (split; [|apply get_lock_held]);
    intros k' Hne; (split; [|apply get_lock_other; exact Hne]);
    rewrite !lookup_insert_ne by congruence;
    rewrite H2, H1 by exact Hne; reflexivity.
Qed.

End ExecuteFacts.

Lemma execute_after_expiry_witness :
  Idempotency.execute (fun p : string => p) (fun r : Z => r)
    (mkService {["order_123" := mkRecord "order_123" COMPLETED "amount=9900"
                                  (Some 4242) None 0 10]} ∅)
    "order_123" (fun _ : unit => (Returned 5000, tt)) "amount=5000"
    (mkExecAmbient 11 11 11 11) tt
  = (Returned (Some 5000),
     mkService
       (<["order_123" :=
            Idempotency.final_record (fun p : string => p) (fun r : Z => r)
              "order_123" "amount=5000" (mkExecAmbient 11 11 11 11)
              (Returned 5000)]>
          {["order_123" := mkRecord "order_123" COMPLETED "amount=9900"
                             (Some 4242) None 0 10]})
       (_get_lock ∅ "order_123"),
     tt).
Proof.
  refine (eq_trans
            (execute_after_expiry (fun p : string => p) (fun r : Z => r)
               (mkService {["order_123" := mkRecord "order_123" COMPLETED
                                             "amount=9900" (Some 4242) None 0 10]}
                  ∅)
               "order_123" (fun _ : unit => (Returned 5000, tt)) "amount=5000"
               (mkExecAmbient 11 11 11 11) tt
               (mkRecord "order_123" COMPLETED "amount=9900" (Some 4242) None 0 10)
               _ _ _) _).
  - reflexivity.
  - simpl. lia.
  - reflexivity.
  - reflexivity.
Defined.

(** X21. The key builders keep operations apart: for one order, different
    attempt numbers give different charge keys; for one charge, different
    amounts give different refund keys; different authorizations give
    different capture keys; and a charge key, a refund key and a capture
    key never coincide. *)
Theorem key_builder_distinct :
  (forall order_id attempt attempt',
      for_charge order_id attempt = for_charge order_id attempt' ->
      attempt = attempt')
  /\ (forall charge_id amount_cents amount_cents',
        for_refund charge_id amount_cents = for_refund charge_id amount_cents' ->
        amount_cents = amount_cents')
  /\ (forall authorization_id authorization_id',
        for_capture authorization_id = for_capture authorization_id' ->
        authorization_id = authorization_id')
  /\ (forall order_id attempt charge_id amount_cents authorization_id,
        for_charge order_id attempt <> for_refund charge_id amount_cents
        /\ for_charge order_id attempt <> for_capture authorization_id
        /\ for_refund charge_id amount_cents <> for_capture authorization_id).
Proof.
  unfold for_charge, for_refund, for_capture.
  split; [|split; [|split]].
  - intros o a a' H. do 3 apply String.app_inj in H.
    apply pretty_Z_inj. exact H.
  - intros c m m' H. do 3 apply String.app_inj in H.
    apply pretty_Z_inj. exact H.
  - intros x y H. apply String.app_inj in H. exact H.
  - intros o a c m x. repeat split; intros H; discriminate H.
Qed.

End IdempotencyMoreFacts.

(* ===================================================================== *)
(** * Further facts about the gateway *)
(* ===================================================================== *)

Module GatewayMoreFacts.
Import Gateway GatewayMore.

Lemma use_token_cases ts tid now :
  (exists e, use_token ts tid now = (Raised e, ts))
  \/ exists t,
      _tokens ts !! tid = Some t
      /\ is_valid t now = true
      /\ get_token ts tid now = Returned t
      /\ snd (use_token ts tid now)
         = mkTokenization (<[tid := set_used t]> (_tokens ts)) (_vault ts)
      /\ ((exists card,
              _card_vault_id t ≫= (fun v => _vault ts !! v) = Some card
              /\ fst (use_token ts tid now) = Returned (set_used t, card))
          \/ (_card_vault_id t ≫= (fun v => _vault ts !! v) = None
              /\ exists msg,
                  fst (use_token ts tid now) = Raised (TokenNotFoundError msg))).
Proof.
  unfold use_token, get_token, is_valid.
  destruct (_tokens ts !! tid) as [t|] eqn:Ht; [|left; eexists; reflexivity].
  destruct (token_is_expired t now) eqn:He; [left; eexists; reflexivity|].
  destruct (used t) eqn:Hu; [left; eexists; reflexivity|].
  right. exists t. rewrite He, Hu.
  destruct (_card_vault_id t ≫= (fun v => _vault ts !! v)) as [card|]; simpl.
  - do 4 (split; [reflexivity|]). left. exists card. auto.
  - do 4 (split; [reflexivity|]). right. split; [reflexivity|].
    eexists. reflexivity.
Qed.

Lemma use_token_keeps_spent ts tid tid' now :
  spent ts tid -> spent (snd (use_token ts tid' now)) tid.
Proof.
  intros (t & Ht & Hu).
  destruct (use_token_cases ts tid' now)
    as [[e ->] | (t' & Ht' & _ & _ & -> & _)]; [exists t; auto|].
  unfold spent. simpl. destruct (decide (tid' = tid)) as [-> | Hne].
  - exists (set_used t'). rewrite lookup_insert_eq. auto.
  - exists t. rewrite lookup_insert_ne by exact Hne. auto.
Qed.

Lemma use_all_keeps_spent tid calls : forall ts,
  spent ts tid -> spent (use_all ts calls) tid.
Proof.
  unfold use_all. induction calls as [|[tid' now] rest IH]; intros ts Hs; simpl;
    [exact Hs|].
  apply IH. apply use_token_keeps_spent. exact Hs.
Qed.

Lemma use_token_of_spent ts tid now :
  spent ts tid -> exists e, use_token ts tid now = (Raised e, ts).
Proof.
  intros (t & Ht & Hu). unfold use_token. rewrite Ht, Hu.
  destruct (token_is_expired t now); eexists; reflexivity.
Qed.

(** X22. [use_token] either raises and leaves the service as it was, or it
    found a token that [get_token] returns and that is valid (not used, not
    expired), and marked it used. In the second case it returns the marked
    token with the card number of its vault entry; if the vault entry is
    missing it raises [TokenNotFoundError] and the token stays marked used. *)
Theorem use_token_outcome (ts : TokenizationService) (tid : string) (now : Z) :
  (forall r,
      fst (use_token ts tid now) = Returned r ->
      exists t card,
        r = (set_used t, card)
        /\ _tokens ts !! tid = Some t
        /\ is_valid t now = true
        /\ get_token ts tid now = Returned t
        /\ _card_vault_id t ≫= (fun v => _vault ts !! v) = Some card
        /\ spent (snd (use_token ts tid now)) tid)
  /\ (forall e,
        fst (use_token ts tid now) = Raised e ->
        snd (use_token ts tid now) = ts
        \/ exists t msg,
            _tokens ts !! tid = Some t
            /\ is_valid t now = true
            /\ _card_vault_id t ≫= (fun v => _vault ts !! v) = None
            /\ e = TokenNotFoundError msg
            /\ spent (snd (use_token ts tid now)) tid).
Proof.
  destruct (use_token_cases ts tid now)
    as [[e ->] | (t & Ht & Hv & Hg & Hsnd & [(card & Hc & Hfst)
                                            | (Hc & msg & Hfst)])].
  - split; [discriminate|]. intros e' _. left. reflexivity.
  - rewrite Hfst, Hsnd. split; [|discriminate].
    intros r [= <-]. exists t, card. repeat split; try assumption.
    unfold spent. simpl. exists (set_used t). rewrite lookup_insert_eq. auto.
  - rewrite Hfst, Hsnd. split; [discriminate|].
    intros e [= <-]. right. exists t, msg. repeat split; try assumption.
    unfold spent. simpl. exists (set_used t). rewrite lookup_insert_eq. auto.
Qed.

(** X23. A token is good for one use: after a successful [use_token],
    whatever uses of this or of other tokens follow, every further
    [use_token] of the same token raises and changes nothing. *)
Theorem use_token_once (ts : TokenizationService) (tid : string) (now : Z)
        (r : Token * string) :
  fst (use_token ts tid now) = Returned r ->
  forall calls now',
  exists e,
    use_token (use_all (snd (use_token ts tid now)) calls) tid now'
    = (Raised e, use_all (snd (use_token ts tid now)) calls).
Proof.
  intros Hr calls now'. apply use_token_of_spent. apply use_all_keeps_spent.
  destruct (use_token_cases ts tid now)
    as [[e He] | (t & Ht & Hv & Hg & Hsnd & _)].
  - rewrite He in Hr. discriminate Hr.
  - rewrite Hsnd. unfold spent. simpl. exists (set_used t).
    rewrite lookup_insert_eq. auto.
Qed.

Lemma use_token_once_witness :
  exists e,
    use_token (use_all (snd (use_token one_token "tok_1" (at_hour 2025 6 1 12)))
                 [("tok_2", at_hour 2025 6 1 12)])
      "tok_1" (at_hour 2025 6 1 12)
    = (Raised e,
       use_all (snd (use_token one_token "tok_1" (at_hour 2025 6 1 12)))
         [("tok_2", at_hour 2025 6 1 12)]).
Proof.
  apply (use_token_once one_token "tok_1" (at_hour 2025 6 1 12)
           (set_used (mkToken "tok_1" "4242" VISA 12 2030 (at_hour 2025 6 1 12)
                        (Some (at_hour 2025 6 1 13)) false (Some "vault_1")),
            "4242424242424242")).
  vm_compute. reflexivity.
Defined.

Lemma bank_authorize_cases card amt cur code :
  bank_authorize card amt cur code = mkBankAuthResponse true (Some code) None None None
  \/ exists dc msg,
      bank_authorize card amt cur code
      = mkBankAuthResponse false None (Some dc) (Some msg) None
      /\ msg <> EmptyString.
Proof.
  unfold bank_authorize.
  destruct (dict_get card TEST_CARDS) as [[behavior test_code]|]; [|unchanged].
  destruct (String.eqb behavior "success"); [unchanged|].
  destruct (String.eqb behavior "decline").
  - right. exists (default CARD_DECLINED test_code),
             (decline_message_of (default CARD_DECLINED test_code)).
    split; [reflexivity|].
    destruct (default CARD_DECLINED test_code); intros H; discriminate H.
  - destruct (String.eqb behavior "success_delayed"); [unchanged|].
    destruct (String.eqb behavior "3ds_required"); [|unchanged].
    right. eexists. eexists. split; [reflexivity|]. intros H; discriminate H.
Qed.

Lemma do_authorize_cases w tid z cur mid md env :
  (exists e,
      use_token (tokenization w) tid (token_utcnow env)
      = (Raised e, tokenization w)
      /\ _do_authorize w tid z cur mid md env = (Raised e, w))
  \/ (exists e,
         fst (use_token (tokenization w) tid (token_utcnow env)) = Raised e
         /\ spent (snd (use_token (tokenization w) tid (token_utcnow env))) tid
         /\ _do_authorize w tid z cur mid md env
            = (Raised e,
               set_tokenization w
                 (snd (use_token (tokenization w) tid (token_utcnow env)))))
  \/ exists token card,
      fst (use_token (tokenization w) tid (token_utcnow env))
      = Returned (token, card)
      /\ spent (snd (use_token (tokenization w) tid (token_utcnow env))) tid
      /\ ((exists dc msg,
              _do_authorize w tid z cur mid md env
              = (Raised (AuthorizationError msg (decline_code_value dc)),
                 log_bank_call
                   (set_tokenization w
                      (snd (use_token (tokenization w) tid (token_utcnow env))))
                   (CallAuthorize card z cur)))
          \/ _do_authorize w tid z cur mid md env
             = (Returned
                  (RAuthorization
                     (mkAuthorization ("auth_" ++ auth_random env) z cur ACTIVE
                        (token_card_last_four token) (token_card_brand token)
                        (auth_created_utcnow env)
                        (auth_expires_utcnow env + timedelta_days AUTH_HOLD_DAYS)
                        None None 0 (Some (auth_code_random env)) mid
                        (default [] md))),
                store_authorization
                  (log_bank_call
                     (set_tokenization w
                        (snd (use_token (tokenization w) tid (token_utcnow env))))
                     (CallAuthorize card z cur))
                  (mkAuthorization ("auth_" ++ auth_random env) z cur ACTIVE
                     (token_card_last_four token) (token_card_brand token)
                     (auth_created_utcnow env)
                     (auth_expires_utcnow env + timedelta_days AUTH_HOLD_DAYS)
                     None None 0 (Some (auth_code_random env)) mid
                     (default [] md)))).
Proof.
  unfold _do_authorize.
  destruct (use_token_cases (tokenization w) tid (token_utcnow env))
    as [[e He] | (t & Ht & Hv & Hg & Hsnd & Hfst)].
  - left. exists e. rewrite He. split; [reflexivity|]. destruct w; reflexivity.
  - assert (Hspent : spent (snd (use_token (tokenization w) tid (token_utcnow env)))
                       tid).
    { rewrite Hsnd. unfold spent. simpl. exists (set_used t).
      rewrite lookup_insert_eq. auto. }
    destruct (use_token (tokenization w) tid (token_utcnow env))
      as [[[token card]|e] ts'] eqn:Huse; simpl in *.
    + right; right. exists token, card. split; [reflexivity|].
      split; [exact Hspent|].
      destruct (bank_authorize_cases card z cur (auth_code_random env))
        as [-> | (dc & msg & -> & Hmsg)]; simpl.
      * right. reflexivity.
      * left. exists dc, msg. unfold or_string.
        apply String.eqb_neq in Hmsg. rewrite Hmsg. reflexivity.
    + right; left. exists e. auto.
Qed.

(** X24. [can_refund] is false for every charge that has not succeeded. For
    a succeeded charge it is true when no amount (or the amount 0) is given,
    even when nothing is left to refund, and for any other amount it is
    true exactly when the amount is at most what is left, negative amounts
    included. *)
Theorem can_refund_edges (c : Charge) :
  (charge_status c <> SUCCEEDED -> forall amt, can_refund c amt = false)
  /\ (charge_status c = SUCCEEDED ->
      can_refund c None = true
      /\ can_refund c (Some 0) = true
      /\ forall a,
          a <> 0 ->
          (can_refund c (Some a) = true
           <-> a <= charge_amount c - refunded_amount c)).
Proof.
  unfold can_refund. split.
  - intros Hs amt. rewrite bool_decide_eq_false_2 by exact Hs. reflexivity.
  - intros Hs. rewrite bool_decide_eq_true_2 by exact Hs. simpl.
    split; [apply Z.leb_refl|]. split; [apply Z.leb_refl|].
    intros a Ha. apply Z.eqb_neq in Ha. rewrite Ha. apply Z.leb_le.
Qed.

Lemma two_chars_unlisted c d :
  c <> "3"%char ->
  dict_get (String c (String d EmptyString)) Network.BIN_RANGES = None.
Proof.
  intros Hc. unfold Network.BIN_RANGES, dict_get.
  repeat match goal with
         | |- context [String.eqb ?s ?k] =>
           destruct (String.eqb_spec s k) as [Heq | _];
             [injection Heq as Hc' Hd'; try discriminate Hd'; congruence|]
         end.
  reflexivity.
Qed.

Lemma detect_network_first_char c rest :
  c <> "3"%char ->
  Network.detect_network (String c rest)
  = Returned (dict_get (String c EmptyString) Network.BIN_RANGES).
Proof.
  intros Hc. unfold Network.detect_network, Network.slice_to.
  remember (dict_get (String c EmptyString) Network.BIN_RANGES) as first eqn:Hf.
  destruct rest as [|d rest].
  - change (String.substring 0 2 (String c EmptyString)) with (String c EmptyString).
    rewrite <- Hf. destruct first; reflexivity.
  - assert (Hs : String.substring 0 2 (String c (String d rest))
                 = String c (String d EmptyString))
      by (destruct rest; reflexivity).
    rewrite Hs, (two_chars_unlisted c d Hc). destruct first; reflexivity.
Qed.

Lemma prefix_cons a p n :
  String.prefix (String a p) n = true ->
  exists rest, n = String a rest /\ String.prefix p rest = true.
Proof.
  destruct n as [|b rest]; simpl; [discriminate|].
  destruct (ascii_dec a b) as [<- | _]; [|discriminate].
  intros H. exists rest. auto.
Qed.

Ltac open_prefix H :=
  let rest := fresh "rest" in
  let Heq := fresh "Heq" in
  apply prefix_cons in H as (rest & Heq & H); subst.

Ltac network_brand :=
  first
    [ rewrite detect_network_first_char by (intros Hc; discriminate Hc);
      reflexivity
    | unfold Network.detect_network, Network.slice_to;
      match goal with
      | |- context [String.substring 0 2 (String _ (String _ ?r))] =>
        destruct r; reflexivity
      end ].

Lemma three_then_unlisted d :
  d <> "4"%char -> d <> "7"%char ->
  dict_get (String "3" (String d EmptyString)) Network.BIN_RANGES = None.
Proof.
  intros H4 H7. unfold Network.BIN_RANGES, dict_get.
  repeat match goal with
         | |- context [String.eqb ?s ?k] =>
           destruct (String.eqb_spec s k) as [Heq | _];
             [injection Heq as Hd'; try discriminate Hd'; congruence|]
         end.
  reflexivity.
Qed.

Lemma one_char_unlisted c :
  c <> "4"%char -> c <> "5"%char -> c <> "6"%char ->
  dict_get (String c EmptyString) Network.BIN_RANGES = None.
Proof.
  intros H4 H5 H6. unfold Network.BIN_RANGES, dict_get.
  repeat match goal with
         | |- context [String.eqb ?s ?k] =>
           destruct (String.eqb_spec s k) as [Heq | _];
             [try discriminate Heq; injection Heq as Hc'; congruence|]
         end.
  reflexivity.
Qed.

Lemma prefix_cons_false a c rest :
  String.prefix (String a EmptyString) (String c rest) = false -> c <> a.
Proof.
  simpl. destruct (ascii_dec a c) as [<- | Hne]; [|congruence].
  destruct rest; discriminate.
Qed.

Lemma prefix_one_ne a c rest :
  c <> a -> String.prefix (String a EmptyString) (String c rest) = false.
Proof.
  intros H. simpl. destruct (ascii_dec a c); [congruence | reflexivity].
Qed.

Lemma prefix_two_false a b c d rest :
  String.prefix (String a (String b EmptyString)) (String c (String d rest)) = false ->
  c = a -> d <> b.
Proof.
  intros H -> ->. simpl in H.
  destruct (ascii_dec a a) as [_|Hne]; [|congruence].
  destruct (ascii_dec b b) as [_|Hne]; [|congruence].
  destruct rest; discriminate.
Qed.

(** The network's answer for a number in which the gateway finds no brand. *)
Lemma unknown_brand_network number :
  String.prefix "4" number = false ->
  String.prefix "34" number = false ->
  String.prefix "37" number = false ->
  (number = EmptyString /\ Network.detect_network number = Raised IndexError)
  \/ (String.prefix "5" number = true
      /\ Network.detect_network number = Returned (Some Network.MASTERCARD))
  \/ (String.prefix "6" number = true
      /\ Network.detect_network number = Returned (Some Network.DISCOVER))
  \/ (number <> EmptyString
      /\ String.prefix "5" number = false /\ String.prefix "6" number = false
      /\ Network.detect_network number = Returned None).
Proof.
  intros H4 H34 H37.
  destruct number as [|c rest]; [left; split; reflexivity|]. right.
  apply prefix_cons_false in H4.
  destruct (ascii_dec c "5") as [-> | H5].
  { left. split; [destruct rest; reflexivity|].
    rewrite detect_network_first_char by discriminate. reflexivity. }
  destruct (ascii_dec c "6") as [-> | H6].
  { right. left. split; [destruct rest; reflexivity|].
    rewrite detect_network_first_char by discriminate. reflexivity. }
  right. right. split; [discriminate|].
  split; [apply prefix_one_ne, H5|].
  split; [apply prefix_one_ne, H6|].
  destruct (ascii_dec c "3") as [-> | H3].
  - destruct rest as [|d rest]; [reflexivity|].
    pose proof (prefix_two_false _ _ _ _ _ H34 eq_refl) as Hd4.
    pose proof (prefix_two_false _ _ _ _ _ H37 eq_refl) as Hd7.
    unfold Network.detect_network, Network.slice_to.
    assert (Hs : String.substring 0 2 (String "3" (String d rest))
                 = String "3" (String d EmptyString))
      by (destruct rest; reflexivity).
    rewrite Hs, (three_then_unlisted d Hd4 Hd7). reflexivity.
  - rewrite (detect_network_first_char c rest H3),
      (one_char_unlisted c H4 H5 H6). reflexivity.
Qed.

(** X25. For a card number without spaces and dashes, the brand that the
    gateway detects and the answer of the card network are related as
    follows. Visa, Amex and Discover for the gateway are the same brand for
    the network. Mastercard for the gateway is Mastercard for the network
    when the number starts with 5, and no brand for the network when it
    starts with 2221 or 2720. Where the gateway finds no brand, the network
    raises [IndexError] on the empty number, answers Mastercard for a number
    that starts with 5, Discover for one that starts with 6, and no brand
    for every other number. *)
Theorem brand_agreement (number : string) :
  remove_separators number = number ->
  match detect_card_brand number with
  | VISA => Network.detect_network number = Returned (Some Network.VISA)
  | MASTERCARD =>
    (String.prefix "5" number = true
     /\ Network.detect_network number = Returned (Some Network.MASTERCARD))
    \/ ((String.prefix "2221" number = true \/ String.prefix "2720" number = true)
        /\ Network.detect_network number = Returned None)
  | AMEX => Network.detect_network number = Returned (Some Network.AMEX)
  | DISCOVER => Network.detect_network number = Returned (Some Network.DISCOVER)
  | UNKNOWN =>
    (number = EmptyString /\ Network.detect_network number = Raised IndexError)
    \/ (String.prefix "5" number = true
        /\ Network.detect_network number = Returned (Some Network.MASTERCARD))
    \/ (String.prefix "6" number = true
        /\ Network.detect_network number = Returned (Some Network.DISCOVER))
    \/ (number <> EmptyString
        /\ String.prefix "5" number = false /\ String.prefix "6" number = false
        /\ Network.detect_network number = Returned None)
  end.
Proof.
  intros Hclean. unfold detect_card_brand. rewrite Hclean. clear Hclean.
  unfold BIN_RANGES. cbn [find existsb snd].
  remember (String.prefix "5" number) as p5 eqn:Hp5.
  remember (String.prefix "6" number) as p6 eqn:Hp6.
  repeat match goal with
         | |- context [String.prefix ?p number] =>
           destruct (String.prefix p number) eqn:?; cbn [orb]
         end;
    subst p5 p6;
    try (apply unknown_brand_network; assumption);
    repeat match goal with
           | H : String.prefix (String _ _) _ = true |- _ => open_prefix H
           | H : String.prefix _ _ = false |- _ => clear H
           | H : String.prefix EmptyString _ = true |- _ => clear H
           end;
    try network_brand;
    try (left; split; [reflexivity | network_brand]);
    try (right; split; [auto | network_brand]).
Qed.

Lemma brand_agreement_witness :
  (String.prefix "5" "5011000000000000" = true
   /\ Network.detect_network "5011000000000000"
      = Returned (Some Network.MASTERCARD))
  \/ (String.prefix "6" "5011000000000000" = true
      /\ Network.detect_network "5011000000000000"
         = Returned (Some Network.DISCOVER))
  \/ ("5011000000000000" <> EmptyString
      /\ String.prefix "5" "5011000000000000" = false
      /\ String.prefix "6" "5011000000000000" = false
      /\ Network.detect_network "5011000000000000" = Returned None).
Proof.
  destruct (brand_agreement "5011000000000000" eq_refl) as [[H _] | H];
    [discriminate H | exact H].
Defined.

Lemma down_by_two_lookup fuel : forall i (ds : list Z) k,
  (i < 2 * fuel)%nat ->
  fold_left (fun ds i => alter double_digit i ds) (down_by_two fuel i) ds !! k
  = weigh (doubled_at i k) <$> ds !! k.
Proof.
  induction fuel as [|fuel IH]; intros i ds k Hi; [lia|].
  cbn [down_by_two fold_left].
  destruct i as [|[|j]].
  - cbn [fold_left]. rewrite list_lookup_alter. unfold doubled_at.
    destruct k as [|k]; simpl; [reflexivity|].
    destruct (ds !! S k); reflexivity.
  - cbn [fold_left]. rewrite list_lookup_alter. unfold doubled_at.
    destruct k as [|[|k]]; simpl; try reflexivity;
      destruct (ds !! _); reflexivity.
  - rewrite IH by lia. unfold doubled_at.
    destruct (Nat.leb_spec k j) as [Hk | Hk].
    + rewrite list_lookup_alter_ne by lia.
      destruct (Nat.leb_spec k (S (S j))) as [_ | ?]; [|lia].
      replace (S (S j) - k)%nat with (S (S (j - k))) by lia.
      reflexivity.
    + cbn [andb]. rewrite list_lookup_alter.
      destruct (decide (S (S j) = k)) as [<- | Hne].
      * rewrite Nat.leb_refl, Nat.sub_diag. simpl.
        destruct (ds !! S (S j)); reflexivity.
      * destruct (Nat.leb_spec k (S (S j))) as [Hle | _];
          [|simpl; destruct (ds !! k); reflexivity].
        replace k with (S j) by lia. replace (S (S j) - S j)%nat with 1%nat by lia.
        simpl. destruct (ds !! S j); reflexivity.
Qed.

Lemma luhn_doubled_closed (ds : list Z) :
  luhn_doubled ds
  = imap (fun k => weigh (doubles (length ds) k)) ds.
Proof.
  apply list_eq. intros k. rewrite list_lookup_imap.
  unfold luhn_doubled, luhn_indices, doubles.
  destruct (Nat.ltb_spec (length ds) 2) as [Hlen | Hlen]; simpl.
  - destruct (ds !! k); reflexivity.
  - rewrite down_by_two_lookup by lia.
    destruct (doubled_at _ k); destruct (ds !! k); reflexivity.
Qed.

Lemma sum_middle (a b : list Z) x :
  foldr Z.add 0 (a ++ x :: b) = foldr Z.add 0 a + x + foldr Z.add 0 b.
Proof. induction a as [|y a IH]; simpl; [lia | rewrite IH; lia]. Qed.

Lemma luhn_sum_middle (pre post : list Z) d :
  foldr Z.add 0 (luhn_doubled (pre ++ d :: post))
  = foldr Z.add 0
      (imap (fun k => weigh (doubles (length pre + S (length post)) k)) pre)
    + weigh (doubles (length pre + S (length post)) (length pre)) d
    + foldr Z.add 0
        (imap (fun k => weigh (doubles (length pre + S (length post))
                                 (length pre + S k))) post).
Proof.
  rewrite luhn_doubled_closed, length_app. cbn [length].
  rewrite imap_app, imap_cons, sum_middle, Nat.add_0_r.
  reflexivity.
Qed.

Lemma double_digit_differs d d' :
  0 <= d <= 9 -> 0 <= d' <= 9 -> d <> d' ->
  double_digit d - double_digit d' <> 0
  /\ -9 <= double_digit d - double_digit d' <= 9.
Proof.
  unfold double_digit. intros Hd Hd' Hne.
  destruct (Z.ltb_spec 9 (d * 2)); destruct (Z.ltb_spec 9 (d' * 2)); lia.
Qed.

Lemma list_ascii_app a b :
  String.list_ascii_of_string (a ++ b)
  = (String.list_ascii_of_string a ++ String.list_ascii_of_string b)%list.
Proof. induction a as [|c a IH]; simpl; [reflexivity | rewrite IH; reflexivity]. Qed.

Lemma digit_facts c :
  is_ascii_digit c = true ->
  is_ascii c = true /\ 0 <= digit_value c <= 9
  /\ Ascii.eqb c " " = false /\ Ascii.eqb c "-" = false.
Proof.
  unfold is_ascii_digit, is_ascii, digit_value. intros H.
  apply andb_true_iff in H as [H1 H2].
  apply N.leb_le in H1, H2.
  split; [apply N.ltb_lt; lia|]. split; [lia|].
  split; apply Ascii.eqb_neq; intros ->; simpl in *; lia.
Qed.

Lemma digit_value_inj c c' : digit_value c = digit_value c' -> c = c'.
Proof.
  unfold digit_value. intros H.
  rewrite <- (ascii_N_embedding c), <- (ascii_N_embedding c').
  f_equal. lia.
Qed.

Lemma all_digits_clean s : all_digits s -> remove_separators s = s.
Proof.
  unfold all_digits, remove_separators.
  induction s as [|c s IH]; simpl; [reflexivity|].
  intros H. apply andb_true_iff in H as [Hc Hs].
  destruct (digit_facts c Hc) as (_ & _ & Hsp & Hda).
  rewrite Hsp. simpl. rewrite Hda.
  specialize (IH Hs). congruence.
Qed.

Lemma all_digits_ascii s :
  all_digits s -> forallb is_ascii (String.list_ascii_of_string s) = true.
Proof.
  unfold all_digits. induction (String.list_ascii_of_string s) as [|c l IH];
    simpl; [reflexivity|].
  intros H. apply andb_true_iff in H as [Hc Hs].
  destruct (digit_facts c Hc) as (-> & _). simpl. auto.
Qed.

Lemma all_digits_middle pre post d :
  all_digits pre -> all_digits post -> is_ascii_digit d = true ->
  all_digits (pre ++ String d post).
Proof.
  unfold all_digits. intros Hpre Hpost Hd.
  rewrite list_ascii_app, forallb_app. simpl. rewrite Hpre, Hd, Hpost.
  reflexivity.
Qed.

Lemma validate_luhn_digits pre post d :
  all_digits pre -> all_digits post -> is_ascii_digit d = true ->
  validate_luhn (pre ++ String d post)
  = Some (foldr Z.add 0
            (luhn_doubled
               ((digit_value <$> String.list_ascii_of_string pre)
                  ++ digit_value d
                  :: (digit_value <$> String.list_ascii_of_string post))%list)
          `mod` 10 =? 0).
Proof.
  intros Hpre Hpost Hd.
  pose proof (all_digits_middle pre post d Hpre Hpost Hd) as Hall.
  unfold validate_luhn. rewrite (all_digits_clean _ Hall).
  rewrite (all_digits_ascii _ Hall). simpl.
  unfold all_digits in Hall. rewrite Hall.
  rewrite list_ascii_app. simpl.
  rewrite bool_decide_eq_false_2 by (intros H; destruct (String.list_ascii_of_string pre); discriminate H).
  simpl. rewrite fmap_app, fmap_cons. reflexivity.
Qed.

(** X26. [validate_luhn] detects every single wrong digit: when a number made
    of ASCII digits passes the check, the number obtained by replacing one
    of its digits by a different digit fails it. *)
Theorem luhn_detects_substitution (pre post : string) (d d' : ascii) :
  all_digits pre -> all_digits post ->
  is_ascii_digit d = true -> is_ascii_digit d' = true -> d <> d' ->
  validate_luhn (pre ++ String d post) = Some true ->
  validate_luhn (pre ++ String d' post) = Some false.
Proof.
  intros Hpre Hpost Hd Hd' Hne.
  rewrite !validate_luhn_digits by assumption.
  rewrite !luhn_sum_middle.
  set (lpre := digit_value <$> String.list_ascii_of_string pre).
  set (lpost := digit_value <$> String.list_ascii_of_string post).
  set (A := foldr Z.add 0 (imap _ lpre)).
  set (B := foldr Z.add 0 (imap _ lpost)).
  destruct (digit_facts d Hd) as (_ & Hr & _).
  destruct (digit_facts d' Hd') as (_ & Hr' & _).
  assert (Hv : digit_value d <> digit_value d')
    by (intros H; apply Hne, digit_value_inj, H).
  intros [= Hsum]. f_equal. apply Z.eqb_eq in Hsum. apply Z.eqb_neq.
  unfold weigh in *.
  destruct (doubles _ _).
  - destruct (double_digit_differs _ _ Hr Hr' Hv) as [Hz Hb].
    Z.to_euclidean_division_equations. lia.
  - Z.to_euclidean_division_equations. lia.
Qed.

Lemma luhn_detects_substitution_witness :
  validate_luhn ("424242424242424" ++ String "1" EmptyString) = Some false.
Proof.
  apply (luhn_detects_substitution "424242424242424" EmptyString "2" "1").
  - reflexivity.
  - reflexivity.
  - reflexivity.
  - reflexivity.
  - intros H. discriminate H.
  - vm_compute. reflexivity.
Defined.

Section ServiceMoreFacts.
Variable _hash_params : Params -> string.

Local Abbreviation capture := (capture _hash_params).
Local Abbreviation authorize := (authorize _hash_params).
Local Abbreviation create_charge := (create_charge _hash_params).

Lemma validate_amount_range amt z :
  _validate_amount amt = Returned z ->
  amt = IntAmount z /\ MIN_AMOUNT_CENTS <= z <= MAX_AMOUNT_CENTS.
Proof.
  unfold _validate_amount. destruct amt as [z0 | repr]; [|discriminate].
  destruct (Z.ltb_spec z0 MIN_AMOUNT_CENTS); [discriminate|].
  destruct (Z.ltb_spec MAX_AMOUNT_CENTS z0); [discriminate|].
  intros [= <-]. auto.
Qed.

(** X27. Without idempotency key, [authorize] returns only an active
    authorization for the given amount, which lies between 50 and
    99,999,999 cents; the authorization has nothing captured, expires 7 days
    after the clock reading taken for it and is stored under its id, the
    token is marked used, and the charges are untouched. When [authorize]
    raises, no authorization and no charge is stored; an invalid amount
    leaves the whole service as it was, while a decline by the bank has
    already consumed the token. *)
Theorem gateway_authorize_outcome (svc : AuthorizationService) (tid : string)
        (amt : AmountArg) (cur : Currency) (mid : string) (md : option Metadata)
        (env : AuthorizeAmbient) :
  (forall r,
      fst (authorize svc tid amt cur mid md None env) = Returned r ->
      exists a z,
        r = Object (RAuthorization a)
        /\ amt = IntAmount z
        /\ MIN_AMOUNT_CENTS <= z <= MAX_AMOUNT_CENTS
        /\ amount a = z
        /\ status a = ACTIVE
        /\ captured_amount a = 0
        /\ id a = "auth_" ++ auth_random (authorize_do_env env)
        /\ expires_at a
           = auth_expires_utcnow (authorize_do_env env) + timedelta_days 7
        /\ _authorizations (world (snd (authorize svc tid amt cur mid md None env)))
           = <[id a := a]> (_authorizations (world svc))
        /\ spent (tokenization
                    (world (snd (authorize svc tid amt cur mid md None env)))) tid
        /\ _charges (world (snd (authorize svc tid amt cur mid md None env)))
           = _charges (world svc))
  /\ (forall e,
        fst (authorize svc tid amt cur mid md None env) = Raised e ->
        _authorizations (world (snd (authorize svc tid amt cur mid md None env)))
        = _authorizations (world svc)
        /\ _charges (world (snd (authorize svc tid amt cur mid md None env)))
           = _charges (world svc)
        /\ (forall msg,
               e = InvalidAmountError msg ->
               snd (authorize svc tid amt cur mid md None env) = svc)
        /\ (forall msg code,
               e = AuthorizationError msg code ->
               spent (tokenization
                        (world (snd (authorize svc tid amt cur mid md None env))))
                 tid)).
Proof.
  unfold Gateway.authorize.
  destruct (_validate_amount amt) as [z|e0] eqn:Hval.
  - apply validate_amount_range in Hval as [-> Hrange]. simpl.
    unfold directly.
    destruct (do_authorize_cases (world svc) tid z cur mid md (authorize_do_env env))
      as [(e & Huse & ->) | [(e & Hfst & Hspent & ->)
                           | (token & card & Hfst & Hspent
                              & [(dc & msg & ->) | ->])]]; simpl.
    + split; [discriminate|]. intros e' [= <-].
      repeat split.
      * intros msg ->. unfold use_token in Huse.
        destruct (_tokens _ !! tid) as [t|]; [|discriminate].
        destruct (token_is_expired t _); [discriminate|].
        destruct (used t); [discriminate|].
        destruct (_ ≫= _); discriminate.
      * intros msg code ->. unfold use_token in Huse.
        destruct (_tokens _ !! tid) as [t|]; [|discriminate].
        destruct (token_is_expired t _); [discriminate|].
        destruct (used t); [discriminate|].
        destruct (_ ≫= _); discriminate.
    + split; [discriminate|]. intros e' [= <-].
      repeat split.
      * intros msg ->. unfold use_token in Hfst.
        destruct (_tokens _ !! tid) as [t|]; [|discriminate].
        destruct (token_is_expired t _); [discriminate|].
        destruct (used t); [discriminate|].
        destruct (_ ≫= _); discriminate.
      * intros msg code _. exact Hspent.
    + split; [discriminate|]. intros e' [= <-].
      repeat split; [discriminate|]. intros _ _ _. exact Hspent.
    + split; [|discriminate]. intros r [= <-].
      eexists. exists z. repeat split; try reflexivity; try lia; assumption.
  - simpl. split; [discriminate|]. intros e [= <-].
    repeat split. intros msg code ->.
    unfold _validate_amount in Hval. destruct amt as [z|repr]; [|discriminate].
    destruct (z <? MIN_AMOUNT_CENTS); [discriminate|].
    destruct (MAX_AMOUNT_CENTS <? z); discriminate.
Qed.

Lemma do_capture_cases w aid amt env :
  (exists msg, _do_capture w aid amt env = (Raised (CaptureError msg), w))
  \/ exists a,
      _authorizations w !! aid = Some a
      /\ can_capture a (or_amount amt (amount a)) (can_capture_utcnow env) = true
      /\ _do_capture w aid amt env
         = (Returned
              (RCharge
                 (mkCharge ("ch_" ++ charge_random env) (or_amount amt (amount a))
                    (currency a) SUCCEEDED (card_last_four a) (card_brand a)
                    (charge_created_utcnow env) (auth_code a) None None false 0
                    (Some (id a)) (merchant_id a) None (metadata a))),
            mkWorld (tokenization w)
              (<[aid := mark_captured a (or_amount amt (amount a))
                          (captured_utcnow env)]> (_authorizations w))
              (<["ch_" ++ charge_random env :=
                   mkCharge ("ch_" ++ charge_random env)
                     (or_amount amt (amount a)) (currency a) SUCCEEDED
                     (card_last_four a) (card_brand a)
                     (charge_created_utcnow env) (auth_code a) None None false 0
                     (Some (id a)) (merchant_id a) None (metadata a)]>
                 (_charges w))
              (bank_calls w
                 ++ [CallCapture (auth_code a) (or_amount amt (amount a))])%list).
Proof.
  unfold _do_capture.
  destruct (_authorizations w !! aid) as [a|] eqn:Ha;
    [|left; eexists; reflexivity].
  destruct (can_capture a _ _) eqn:Hcan; simpl.
  - right. exists a. auto.
  - left. repeat (destruct (bool_decide _); [eexists; reflexivity|]).
    destruct (expires_at a <? expired_utcnow env); eexists; reflexivity.
Qed.

(** X28. Without idempotency key, [capture] either raises [CaptureError] and
    leaves the service as it was, or it returns a succeeded charge for an
    authorization that was active and not past its expiry: the charge is for
    the given amount (the whole authorized amount when none or zero is
    given), which is zero or at most what was left to capture; it names the
    authorization and is stored under its id; the authorization becomes
    captured with that amount; and one capture call is made on the bank. *)
Theorem gateway_capture_outcome (svc : AuthorizationService) (aid : string)
        (amt : option Z) (env : CaptureAmbient) :
  (forall e,
      fst (capture svc aid amt None env) = Raised e ->
      snd (capture svc aid amt None env) = svc
      /\ exists msg, e = CaptureError msg)
  /\ (forall r,
        fst (capture svc aid amt None env) = Returned r ->
        exists a c,
          r = Object (RCharge c)
          /\ _authorizations (world svc) !! aid = Some a
          /\ status a = ACTIVE
          /\ can_capture_utcnow (capture_do_env env) <= expires_at a
          /\ charge_amount c = or_amount amt (amount a)
          /\ (charge_amount c = 0
              \/ charge_amount c <= amount a - captured_amount a)
          /\ charge_status c = SUCCEEDED
          /\ authorization_id c = Some (id a)
          /\ _charges (world (snd (capture svc aid amt None env)))
             = <[charge_id c := c]> (_charges (world svc))
          /\ _authorizations (world (snd (capture svc aid amt None env)))
             = <[aid := mark_captured a (charge_amount c)
                          (captured_utcnow (capture_do_env env))]>
                 (_authorizations (world svc))
          /\ bank_calls (world (snd (capture svc aid amt None env)))
             = (bank_calls (world svc)
                  ++ [CallCapture (auth_code a) (charge_amount c)])%list).
Proof.
  unfold Gateway.capture. simpl. unfold directly.
  destruct (do_capture_cases (world svc) aid amt (capture_do_env env))
    as [[msg ->] | (a & Ha & Hcan & ->)]; simpl.
  - split; [|discriminate]. intros e [= <-].
    split; [destruct svc; reflexivity | eauto].
  - split; [discriminate|]. intros r [= <-].
    destruct (GatewayFacts.can_capture_true _ _ _ Hcan) as (Hs & Hexp & Hamt).
    exists a. eexists. split; [reflexivity|]. simpl.
    repeat split; assumption.
Qed.

(** X29. An authorization that is no longer active is closed: a capture of
    it raises [CaptureError], a void of it raises [PaymentError], and both
    leave the service as it was. *)
Theorem closed_authorization_rejects (svc : AuthorizationService) (aid : string)
        (a : Authorization) (amt : option Z) (env : CaptureAmbient) (now : Z) :
  _authorizations (world svc) !! aid = Some a ->
  status a <> ACTIVE ->
  (exists msg, capture svc aid amt None env = (Raised (CaptureError msg), svc))
  /\ (exists msg, void svc aid now = (Raised (PaymentError msg), svc)).
Proof.
  intros Ha Hs. split.
  - unfold Gateway.capture. simpl. unfold directly.
    destruct (do_capture_cases (world svc) aid amt (capture_do_env env))
      as [[msg ->] | (a' & Ha' & Hcan & _)].
    + exists msg. destruct svc; reflexivity.
    + destruct (GatewayFacts.can_capture_true _ _ _ Hcan) as (Hs' & _).
      congruence.
  - unfold void, can_void. rewrite Ha.
    rewrite bool_decide_eq_false_2 by exact Hs. simpl. eauto.
Qed.

Lemma use_token_never_payment_error ts tid now e :
  fst (use_token ts tid now) = Raised e ->
  (forall msg code, e <> AuthorizationError msg code)
  /\ (forall msg, e <> CaptureError msg)
  /\ (forall msg, e <> InvalidAmountError msg).
Proof.
  unfold use_token.
  destruct (_tokens ts !! tid) as [t|];
    [|intros [= <-]; repeat split; intros; discriminate].
  destruct (token_is_expired t now);
    [intros [= <-]; repeat split; intros; discriminate|].
  destruct (used t); [intros [= <-]; repeat split; intros; discriminate|].
  destruct (_ ≫= _); [discriminate|].
  intros [= <-]; repeat split; intros; discriminate.
Qed.

(** X30. Without idempotency key, [create_charge] returns only a charge for
    the given amount, which lies between 50 and 99,999,999 cents, stored
    under its id, with the token marked used. The charge is failed when the
    bank declines (it carries the decline code, and a decline is returned,
    not raised), authorized when [capture] is false (an active authorization
    for the amount is stored and named by the charge), and succeeded when
    [capture] is true (the bank is asked to authorize and then to capture,
    and no authorization is stored). When [create_charge] raises, it has
    made no bank call and stored nothing, and the exception is neither
    [AuthorizationError] nor [CaptureError]. *)
Theorem create_charge_outcome (svc : AuthorizationService) (tid : string)
        (amt : AmountArg) (cur : Currency) (capture_now : bool) (mid : string)
        (desc : option string) (md : option Metadata) (env : ChargeAmbient) :
  (forall r,
      fst (create_charge svc tid amt cur capture_now mid desc md None env)
      = Returned r ->
      exists c z card,
        r = Object (RCharge c)
        /\ amt = IntAmount z
        /\ MIN_AMOUNT_CENTS <= z <= MAX_AMOUNT_CENTS
        /\ charge_amount c = z
        /\ _charges
             (world (snd (create_charge svc tid amt cur capture_now mid desc md
                            None env)))
           = <[charge_id c := c]> (_charges (world svc))
        /\ spent (tokenization
                    (world (snd (create_charge svc tid amt cur capture_now mid
                                   desc md None env)))) tid
        /\ ((charge_status c = FAILED
             /\ decline_code c <> None
             /\ authorization_code c = None
             /\ _authorizations
                  (world (snd (create_charge svc tid amt cur capture_now mid desc
                                 md None env)))
                = _authorizations (world svc)
             /\ bank_calls
                  (world (snd (create_charge svc tid amt cur capture_now mid desc
                                 md None env)))
                = (bank_calls (world svc) ++ [CallAuthorize card z cur])%list)
            \/ (charge_status c = AUTHORIZED
                /\ capture_now = false
                /\ (exists a,
                       authorization_id c = Some (id a)
                       /\ status a = ACTIVE
                       /\ amount a = z
                       /\ _authorizations
                            (world (snd (create_charge svc tid amt cur capture_now
                                           mid desc md None env)))
                          = <[id a := a]> (_authorizations (world svc)))
                /\ bank_calls
                     (world (snd (create_charge svc tid amt cur capture_now mid
                                    desc md None env)))
                   = (bank_calls (world svc) ++ [CallAuthorize card z cur])%list)
            \/ (charge_status c = SUCCEEDED
                /\ capture_now = true
                /\ authorization_id c = None
                /\ _authorizations
                     (world (snd (create_charge svc tid amt cur capture_now mid
                                    desc md None env)))
                   = _authorizations (world svc)
                /\ bank_calls
                     (world (snd (create_charge svc tid amt cur capture_now mid
                                    desc md None env)))
                   = (bank_calls (world svc)
                        ++ [CallAuthorize card z cur;
                            CallCapture (authorization_code c) z])%list)))
  /\ (forall e,
        fst (create_charge svc tid amt cur capture_now mid desc md None env)
        = Raised e ->
        _authorizations
          (world (snd (create_charge svc tid amt cur capture_now mid desc md None
                         env)))
        = _authorizations (world svc)
        /\ _charges
             (world (snd (create_charge svc tid amt cur capture_now mid desc md
                            None env)))
           = _charges (world svc)
        /\ bank_calls
             (world (snd (create_charge svc tid amt cur capture_now mid desc md
                            None env)))
           = bank_calls (world svc)
        /\ (forall msg code, e <> AuthorizationError msg code)
        /\ (forall msg, e <> CaptureError msg)).
Proof.
  unfold Gateway.create_charge. simpl. unfold directly, _do_create_charge.
  destruct (_validate_amount amt) as [z|e0] eqn:Hval; simpl.
  2:{ split; [discriminate|]. intros e [= <-]. repeat split.
      - intros msg code ->. unfold _validate_amount in Hval.
        destruct amt as [z|repr]; [|discriminate].
        destruct (z <? MIN_AMOUNT_CENTS); [discriminate|].
        destruct (MAX_AMOUNT_CENTS <? z); discriminate.
      - intros msg ->. unfold _validate_amount in Hval.
        destruct amt as [z|repr]; [|discriminate].
        destruct (z <? MIN_AMOUNT_CENTS); [discriminate|].
        destruct (MAX_AMOUNT_CENTS <? z); discriminate. }
  apply validate_amount_range in Hval as [-> Hrange].
  pose proof (use_token_never_payment_error (tokenization (world svc)) tid
                (charge_token_utcnow (charge_do_env env))) as Hnever.
  destruct (use_token_cases (tokenization (world svc)) tid
              (charge_token_utcnow (charge_do_env env)))
    as [[e He] | (t & Ht & Hv & Hg & Hsnd & Hfst)].
  { rewrite He in Hnever |- *. simpl. split; [discriminate|].
    intros e' [= <-]. destruct (Hnever e eq_refl) as (Ha & Hc & _).
    repeat split; assumption. }
  assert (Hspent : spent (snd (use_token (tokenization (world svc)) tid
                                 (charge_token_utcnow (charge_do_env env)))) tid).
  { rewrite Hsnd. unfold spent. simpl. exists (set_used t).
    rewrite lookup_insert_eq. auto. }
  clear Hsnd Hfst.
  destruct (use_token (tokenization (world svc)) tid
              (charge_token_utcnow (charge_do_env env)))
    as [[[token card]|e] ts'] eqn:Huse; simpl in *.
  2:{ split; [discriminate|]. intros e' [= <-].
      destruct (Hnever e eq_refl) as (Ha & Hc & _). repeat split; assumption. }
  destruct (bank_authorize_cases card z cur
              (charge_auth_code_random (charge_do_env env)))
    as [-> | (dc & msg & -> & Hmsg)]; simpl.
  - destruct capture_now; simpl.
    + split; [|discriminate]. intros r [= <-].
      eexists. exists z, card. split; [reflexivity|]. simpl.
      do 5 (split; [first [reflexivity | assumption]|]).
      right; right. rewrite <- app_assoc. repeat split.
    + split; [|discriminate]. intros r [= <-].
      eexists. exists z, card. split; [reflexivity|]. simpl.
      do 5 (split; [first [reflexivity | assumption]|]).
      right; left. split; [reflexivity|]. split; [reflexivity|].
      split; [|reflexivity].
      eexists (mkAuthorization _ _ _ _ _ _ _ _ _ _ _ _ _ _). simpl.
      repeat split.
  - split; [|discriminate]. intros r [= <-].
    eexists. exists z, card. split; [reflexivity|]. simpl.
    do 5 (split; [first [reflexivity | assumption]|]).
    left. repeat split. discriminate.
Qed.

End ServiceMoreFacts.

Lemma closed_authorization_rejects_witness :
  (exists msg,
      Gateway.capture demo_hash
        (snd (void demo_service "auth_1" (at_hour 2025 6 2 12))) "auth_1" None
        None timely_capture_env
      = (Raised (CaptureError msg),
         snd (void demo_service "auth_1" (at_hour 2025 6 2 12))))
  /\ (exists msg,
         void (snd (void demo_service "auth_1" (at_hour 2025 6 2 12))) "auth_1"
           (at_hour 2025 6 2 13)
         = (Raised (PaymentError msg),
            snd (void demo_service "auth_1" (at_hour 2025 6 2 12)))).
Proof.
  apply (closed_authorization_rejects demo_hash
           (snd (void demo_service "auth_1" (at_hour 2025 6 2 12))) "auth_1"
           (mark_voided active_auth (at_hour 2025 6 2 12))).
  - reflexivity.
  - intros H. discriminate H.
Defined.

End GatewayMoreFacts.
